(** * cert-manager-webhook-contabo: the solver and the Contabo DNS client

    A shallow embedding of [pkg/solver/solver.go] and
    [pkg/contabo/client.go].  Go strings are byte sequences and are
    modelled by [string] (a list of 8-bit [ascii] characters); Go's
    [int]/[int64] (the build targets amd64) are modelled by [Z] with the
    64-bit wrap-around written out where the code does arithmetic;
    [time.Time] is a count of nanoseconds in [Z] and [time.Duration] a
    signed 64-bit count of nanoseconds. *)

From Stdlib Require Import ZArith Ascii String List Bool Lia DecimalString.
From Stdlib Require Import DecimalPos DecimalZ.
From stdpp Require Import base strings gmap list.

Local Open Scope string_scope.
Local Open Scope Z_scope.

(** ** The parts of Go's [strings] package the solver uses *)

Module strings.

(** [strings.HasSuffix]: [len(s) >= len(suffix) &&
    s[len(s)-len(suffix):] == suffix]. *)
Definition HasSuffix (s suffix : string) : bool :=
  (String.length suffix <=? String.length s)%nat
  && String.eqb
       (substring (String.length s - String.length suffix)
                  (String.length suffix) s)
       suffix.

(** [strings.TrimSuffix]: [s] without the trailing [suffix], or [s]
    itself when it does not end with [suffix]. *)
Definition TrimSuffix (s suffix : string) : string :=
  if HasSuffix s suffix
  then substring 0 (String.length s - String.length suffix) s
  else s.

(** ASCII letters, as Go's [EqualFold] fast path tests them. *)
Definition isUpper (c : ascii) : bool :=
  (65 <=? nat_of_ascii c)%nat && (nat_of_ascii c <=? 90)%nat.

Definition toLower (c : ascii) : ascii :=
  if isUpper c then ascii_of_nat (nat_of_ascii c + 32) else c.

(** [strings.EqualFold], on the inputs the solver gives it: the right
    operand is the ASCII literal ["TXT"], and neither [T] nor [X] has a
    simple-fold partner outside ASCII, so a byte of 0x80 or more on the
    left can never match and the comparison is the byte-wise one of the
    fast path: equal bytes, or an upper-case ASCII letter and its
    lower-case form. *)
Fixpoint EqualFold (s t : string) : bool :=
  match s, t with
  | EmptyString, EmptyString => true
  | String sr s', String tr t' =>
      (Ascii.eqb sr tr
       || (Ascii.eqb (toLower sr) (toLower tr)
           && (isUpper sr || isUpper tr)))
      && EqualFold s' t'
  | _, _ => false
  end.

(** White space as [unicode.IsSpace] sees it, by UTF-8 encoding: the six
    ASCII characters of the fast path's [asciiSpace] table, U+0085 and
    U+00A0 (two bytes), and U+1680, U+2000..U+200A, U+2028, U+2029,
    U+202F, U+205F, U+3000 (three bytes).  [spaceLen s] is the number of
    leading bytes of [s] that encode one white-space rune, or [0]. *)
Definition asciiSpace (c : ascii) : bool :=
  let n := nat_of_ascii c in
  ((9 <=? n) && (n <=? 13) || (n =? 32))%nat.

Definition spaceLen (s : string) : nat :=
  match s with
  | EmptyString => 0
  | String c0 s1 =>
      if asciiSpace c0 then 1
      else
        match s1 with
        | EmptyString => 0
        | String c1 s2 =>
            let n0 := nat_of_ascii c0 in
            let n1 := nat_of_ascii c1 in
            if ((n0 =? 194) && ((n1 =? 133) || (n1 =? 160)))%nat then 2
            else
              match s2 with
              | EmptyString => 0
              | String c2 _ =>
                  let n2 := nat_of_ascii c2 in
                  if ((n0 =? 225) && (n1 =? 154) && (n2 =? 128)
                      || (n0 =? 226) && (n1 =? 128)
                         && ((128 <=? n2) && (n2 <=? 138)
                             || (n2 =? 168) || (n2 =? 169) || (n2 =? 175))
                      || (n0 =? 226) && (n1 =? 129) && (n2 =? 159)
                      || (n0 =? 227) && (n1 =? 128) && (n2 =? 128))%nat
                  then 3 else 0
              end
        end
  end.

(** The same test at the end of the string, as [DecodeLastRuneInString]
    finds the last rune; the argument is the string reversed. *)
Definition spaceLenRev (r : string) : nat :=
  match r with
  | EmptyString => 0
  | String c0 r1 =>
      if asciiSpace c0 then 1
      else
        match r1 with
        | EmptyString => 0
        | String c1 r2 =>
            if (spaceLen (String c1 (String c0 EmptyString)) =? 2)%nat then 2
            else
              match r2 with
              | EmptyString => 0
              | String c2 _ =>
                  if (spaceLen (String c2 (String c1 (String c0 EmptyString)))
                      =? 3)%nat
                  then 3 else 0
              end
        end
  end.

Fixpoint drop (n : nat) (s : string) : string :=
  match n, s with
  | O, _ => s
  | S n', String _ s' => drop n' s'
  | S _, EmptyString => EmptyString
  end.

Fixpoint rev (s : string) : string :=
  match s with
  | EmptyString => EmptyString
  | String c s' => rev s' +:+ String c EmptyString
  end.

(** Strip white-space runes from the front, one rune per step; [fuel]
    bounds the number of steps and the length of the string is enough. *)
Fixpoint trimLeftFuel (len : string -> nat) (fuel : nat) (s : string) : string :=
  match fuel with
  | O => s
  | S fuel' =>
      match len s with
      | O => s
      | S k => trimLeftFuel len fuel' (drop (S k) s)
      end
  end.

Definition TrimLeftSpace (s : string) : string :=
  trimLeftFuel spaceLen (String.length s) s.

Definition TrimRightSpace (s : string) : string :=
  rev (trimLeftFuel spaceLenRev (String.length s) (rev s)).

(** [strings.TrimSpace]: leading and trailing white space removed. *)
Definition TrimSpace (s : string) : string :=
  TrimRightSpace (TrimLeftSpace s).

End strings.

(** ** Name resolution ([solver.go]) *)

Definition normalizeZone (zone : string) : string :=
  strings.TrimSuffix zone ".".

Definition relativeRecordName (fqdn zone : string) : string :=
  let zone := strings.TrimSuffix zone "." in
  let fqdn := strings.TrimSuffix fqdn "." in
  let trimmed := strings.TrimSuffix fqdn ("." +:+ zone) in
  let trimmed := strings.TrimSuffix trimmed "." in
  if String.eqb trimmed "" then "@" else trimmed.


(** ** The parts of Go's [net/url] and [fmt] packages the client uses *)

Module url.

Definition isAlnum (c : ascii) : bool :=
  let n := nat_of_ascii c in
  ((48 <=? n) && (n <=? 57) || (65 <=? n) && (n <=? 90)
   || (97 <=? n) && (n <=? 122))%nat.

Definition isMark (c : ascii) : bool :=
  (Ascii.eqb c "-" || Ascii.eqb c "_" || Ascii.eqb c "." || Ascii.eqb c "~")%bool.

Definition isReserved (c : ascii) : bool :=
  existsb (Ascii.eqb c)
    ["$"; "&"; "+"; ","; "/"; ":"; ";"; "="; "?"; "@"]%char.

Inductive encoding := encodePathSegment | encodeQueryComponent.

(** [shouldEscape] for the two modes used here. *)
Definition shouldEscape (c : ascii) (mode : encoding) : bool :=
  if isAlnum c then false
  else if isMark c then false
  else if isReserved c then
    match mode with
    | encodePathSegment =>
        Ascii.eqb c "/" || Ascii.eqb c ";" || Ascii.eqb c "," || Ascii.eqb c "?"
    | encodeQueryComponent => true
    end
  else true.

Definition upperhex (n : nat) : ascii :=
  match get n "0123456789ABCDEF" with
  | Some c => c
  | None => "0"%char
  end.

Fixpoint escape (s : string) (mode : encoding) : string :=
  match s with
  | EmptyString => EmptyString
  | String c s' =>
      if shouldEscape c mode then
        match mode with
        | encodeQueryComponent =>
            if Ascii.eqb c " " then String "+" (escape s' mode)
            else String "%"
                   (String (upperhex (nat_of_ascii c / 16))
                      (String (upperhex (nat_of_ascii c mod 16))
                         (escape s' mode)))
        | encodePathSegment =>
            String "%"
              (String (upperhex (nat_of_ascii c / 16))
                 (String (upperhex (nat_of_ascii c mod 16))
                    (escape s' mode)))
        end
      else String c (escape s' mode)
  end.

Definition PathEscape (s : string) : string := escape s encodePathSegment.
Definition QueryEscape (s : string) : string := escape s encodeQueryComponent.

End url.

(** [fmt.Sprint] of an [int64]: its decimal representation. *)
Definition Sprint (n : Z) : string := NilZero.string_of_int (Z.to_int n).

(** ** Errors

    Both packages return plain [error] values.  One constructor stands for
    each place in the source that creates or passes on an error; the
    arguments are what the message is formatted from. *)

Inductive error : Type :=
  (* client.go *)
  | ErrClientArgs                    (* clientID, clientSecret, username, and password are required *)
  | ErrNewRequest (target : string)  (* http.NewRequestWithContext refused the URL *)
  | ErrTransport (msg : string)      (* httpClient.Do failed: connection, deadline *)
  | ErrTokenStatus (status : string) (* token request failed: status %s *)
  | ErrJSON                          (* json Decode / Unmarshal failed *)
  | ErrTokenMissing                  (* token response missing access_token *)
  | ErrAPI (message : string)        (* contabo api error: %s *)
  | ErrAPIStatus (status : string)   (* contabo api error: status %s *)
  (* solver.go *)
  | ErrConfigRequired                (* config is required *)
  | ErrConfigUnmarshal               (* failed to unmarshal config: %w *)
  | ErrSecretNameRequired            (* credentialsSecretName is required *)
  | ErrKubeNotInitialized            (* kubernetes client is not initialized *)
  | ErrNamespaceRequired             (* credentialsSecretNamespace is required when ... *)
  | ErrGetSecret (namespace name : string)   (* failed to get credentials secret %s/%s: %w *)
  | ErrSecretKeys (namespace name : string). (* secret %s/%s must contain non-empty ... keys *)

(** A Go function returning [(T, error)] or just [error]. *)
Definition result (A : Type) : Type := error + A.

(** ** The webhook configuration ([Config] of package [solver])

    Declared ahead of the client because the environment below holds the
    JSON decoder for it. *)

Record Config := {
  CredentialsSecretName : string;
  CredentialsSecretNamespace : string;
  BaseURL : string;
  AuthURL : string;
  TTL : Z;
  TimeoutSecs : Z
}.

(** ** Time

    [time.Duration] is an [int64] number of nanoseconds; arithmetic on it
    wraps.  [time.Time] values are far from the ends of their range and
    are plain integers (nanoseconds on the clock [time.Now] reads). *)

Definition wrap64 (z : Z) : Z := (z + 2 ^ 63) mod 2 ^ 64 - 2 ^ 63.

Definition Second : Z := 1000000000.
Definition minDuration : Z := - 2 ^ 63.
Definition maxDuration : Z := 2 ^ 63 - 1.

(** [Time.Add d], for a duration [d]. *)
Definition Add (t d : Z) : Z := t + d.

(** [Time.Sub]: the difference as a [Duration], saturating at the ends of
    the [Duration] range. *)
Definition Sub (t u : Z) : Z :=
  let d := t - u in
  if d <? minDuration then minDuration
  else if maxDuration <? d then maxDuration
  else d.

(** ** The Contabo client ([client.go]) *)

Module contabo.

Definition defaultBaseURL : string := "https://api.contabo.com".
Definition defaultAuthURL : string :=
  "https://auth.contabo.com/auth/realms/contabo/protocol/openid-connect/token".

Record tokenResponse := {
  AccessToken : string;
  TokenType : string;
  ExpiresIn : Z
}.

(** The field [Type] of the source is [Type_] here. *)
Record DNSRecord := {
  RecordID : Z;
  Name : string;
  Type_ : string;
  Data : string;
  TTL : Z;
  Prio : Z
}.

Record CreateRecordRequest := {
  req_Name : string;
  req_Type : string;
  req_TTL : Z;
  req_Prio : Z;
  req_Data : string
}.

(** *** HTTP exchanges

    A request as the client builds it: method, URL, the [Content-Type]
    and [Authorization] headers and the body ([json.Marshal] of a
    [CreateRecordRequest] cannot fail, so the JSON body is kept as the
    value marshalled).  The [x-request-id] header is a fresh random UUID
    and is left out. *)

Inductive Body :=
  | NoBody
  | FormBody (encoded : string)
  | JSONBody (r : CreateRecordRequest).

Record Request := {
  Method : string;
  URL : string;
  ContentType : string;
  Authorization : option string;
  ReqBody : Body
}.

Record Response := {
  StatusCode : Z;
  Status : string;
  RespBody : string
}.

(** What the process has done to the outside world so far, oldest
    first: a reading of the clock, or an HTTP request together with
    what [httpClient.Do] returned for it (an error message on the left,
    a response on the right). *)
Inductive Event :=
  | EvNow (t : Z)
  | EvHTTP (req : Request) (res : string + Response).

(** The outside world and the decoders of library code:
    - [server h req]: what [httpClient.Do req] returns after history [h];
    - [clock h]: what [time.Now] reads after history [h];
    - [urlOK u]: whether [http.NewRequestWithContext] accepts the URL;
    - [decodeToken], [decodeRecords]: [json] decoding of a body into a
      [tokenResponse] or the [data] of a [listRecordsResponse], [None]
      when [Decode] returns an error;
    - [decodeMessage]: the [message] field that [Decode] leaves in an
      [apiErrorResponse], empty when the body has none;
    - [decodeConfig]: [json.Unmarshal] into the solver's [Config]. *)
Record Env := {
  server : list Event -> Request -> string + Response;
  clock : list Event -> Z;
  urlOK : string -> bool;
  decodeToken : string -> option tokenResponse;
  decodeRecords : string -> option (list DNSRecord);
  decodeMessage : string -> string;
  decodeConfig : string -> option Config
}.

(** The [Client] struct; the mutex plays no role in a sequential run and
    the [http.Client] is the [server] of the environment. *)
Record Client := {
  baseURL : string;
  authURL : string;
  clientID : string;
  secret : string;
  username : string;
  password : string;
  accessToken : string;
  expiresAt : Z
}.

(** The client is a mutable object shared by all calls on it, and every
    call can touch the network: a computation takes the client and the
    history and returns a result with the client and history after it. *)
Record State := {
  client : Client;
  events : list Event
}.

Definition M (A : Type) : Type := State -> result A * State.

Definition ret {A} (a : A) : M A := fun s => (inr a, s).
Definition throw {A} (e : error) : M A := fun s => (inl e, s).
Definition bind {A B} (m : M A) (k : A -> M B) : M B :=
  fun s =>
    match m s with
    | (inl e, s') => (inl e, s')
    | (inr a, s') => k a s'
    end.

Notation "x <~ m ;; k" := (bind m (fun x => k))
  (at level 100, m at next level, right associativity).
Notation "m ;;; k" := (bind m (fun _ => k))
  (at level 100, right associativity).

Definition getClient : M Client := fun s => (inr (client s), s).

(** The client after [c.accessToken = token; c.expiresAt = expiry]. *)
Definition withToken (c : Client) (token : string) (expiry : Z) : Client :=
  {| baseURL := baseURL c; authURL := authURL c; clientID := clientID c;
     secret := secret c; username := username c; password := password c;
     accessToken := token; expiresAt := expiry |}.

Definition record (e : Event) (s : State) : State :=
  {| client := client s; events := events s ++ [e] |}.

Definition NewClientWithAuthURL
    (baseURL authURL clientID secret username password : string)
    : result Client :=
  if String.eqb clientID "" || String.eqb secret ""
     || String.eqb username "" || String.eqb password ""
  then inl ErrClientArgs
  else
    let baseURL := if String.eqb baseURL "" then defaultBaseURL else baseURL in
    let authURL := if String.eqb authURL "" then defaultAuthURL else authURL in
    inr {| baseURL := baseURL; authURL := authURL; clientID := clientID;
           secret := secret; username := username; password := password;
           accessToken := ""; expiresAt := 0 |}.

Definition NewClient (baseURL clientID secret username password : string)
    : result Client :=
  NewClientWithAuthURL baseURL defaultAuthURL clientID secret username password.


Section WithEnv.
Context (env : Env).

(** [time.Now()]. *)
Definition timeNow : M Z :=
  fun s => let t := clock env (events s) in (inr t, record (EvNow t) s).

(** [time.Until(t)] is [t.Sub(time.Now())]. *)
Definition timeUntil (t : Z) : M Z :=
  now <~ timeNow ;; ret (Sub t now).

(** [http.NewRequestWithContext] followed by the [Header.Set] calls. *)
Definition newRequest (method target contentType : string)
    (authorization : option string) (body : Body) : M Request :=
  if urlOK env target
  then ret {| Method := method; URL := target; ContentType := contentType;
              Authorization := authorization; ReqBody := body |}
  else throw (ErrNewRequest target).

(** [c.httpClient.Do(req)]. *)
Definition httpDo (req : Request) : M Response :=
  fun s =>
    let res := server env (events s) req in
    (match res with
     | inl msg => inl (ErrTransport msg)
     | inr resp => inr resp
     end, record (EvHTTP req res) s).

(** [url.Values.Encode] of the five fields set in [ensureToken]: keys
    in sorted order, each value query-escaped. *)
Definition tokenForm (c : Client) : string :=
  "client_id=" +:+ url.QueryEscape (clientID c)
  +:+ "&client_secret=" +:+ url.QueryEscape (secret c)
  +:+ "&grant_type=" +:+ url.QueryEscape "password"
  +:+ "&password=" +:+ url.QueryEscape (password c)
  +:+ "&username=" +:+ url.QueryEscape (username c).

Definition setToken (token : string) (expiry : Z) : M unit :=
  fun s =>
    (inr tt,
     {| client := withToken (client s) token expiry; events := events s |}).

(** The test at the head of [ensureToken]; [&&] does not read the
    clock when there is no token. *)
Definition tokenFresh : M bool :=
  c <~ getClient ;;
  if negb (String.eqb (accessToken c) "")
  then d <~ timeUntil (expiresAt c) ;; ret (30 * Second <? d)
  else ret false.

(** The request [ensureToken] builds when it has to refresh. *)
Definition tokenRequest (c : Client) : M Request :=
  newRequest "POST" (authURL c) "application/x-www-form-urlencoded" None
    (FormBody (tokenForm c)).

(** The second half of [ensureToken]: ask the auth endpoint for a token
    and store it with its expiry. *)
Definition refreshToken : M unit :=
  c <~ getClient ;;
  req <~ tokenRequest c ;;
  resp <~ httpDo req ;;
  if 300 <=? StatusCode resp
  then throw (ErrTokenStatus (Status resp))
  else
    match decodeToken env (RespBody resp) with
    | None => throw ErrJSON
    | Some token =>
        if String.eqb (AccessToken token) ""
        then throw ErrTokenMissing
        else
          now <~ timeNow ;;
          setToken (AccessToken token)
                   (Add now (wrap64 (ExpiresIn token * Second)))
    end.

Definition ensureToken : M unit :=
  fresh <~ tokenFresh ;;
  if fresh then ret tt else refreshToken.

(** [doJSON]; [out] tells whether the caller passed a
    [listRecordsResponse] to decode the body into. *)
Definition doJSON (method path : string)
    (reqBody : option CreateRecordRequest) (out : bool)
    : M (list DNSRecord) :=
  ensureToken ;;;
  let body := match reqBody with
              | Some r => JSONBody r
              | None => NoBody
              end in
  c <~ getClient ;;
  req <~ newRequest method (baseURL c +:+ path) "application/json"
           (Some ("Bearer " +:+ accessToken c)) body ;;
  resp <~ httpDo req ;;
  if 300 <=? StatusCode resp
  then
    let message := decodeMessage env (RespBody resp) in
    if negb (String.eqb message "")
    then throw (ErrAPI message)
    else throw (ErrAPIStatus (Status resp))
  else
    if out
    then match decodeRecords env (RespBody resp) with
         | None => throw ErrJSON
         | Some data => ret data
         end
    else ret [].

Definition recordsPath (zone : string) : string :=
  "/v1/dns/zones/" +:+ url.PathEscape zone +:+ "/records".

Definition CreateRecord (zone : string) (req : CreateRecordRequest) : M unit :=
  doJSON "POST" (recordsPath zone) (Some req) false ;;; ret tt.

Definition listEndpoint (zone search : string) : string :=
  let endpoint := recordsPath zone in
  if negb (String.eqb search "")
  then endpoint +:+ "?search=" +:+ url.QueryEscape search
  else endpoint.

Definition ListRecords (zone search : string) : M (list DNSRecord) :=
  doJSON "GET" (listEndpoint zone search) None true.

Definition DeleteRecord (zone recordID : string) : M unit :=
  doJSON "DELETE"
    (recordsPath zone +:+ "/" +:+ url.PathEscape recordID) None false
  ;;; ret tt.

End WithEnv.

End contabo.

(** ** The solver ([solver.go]) *)

Module solver.

Definition defaultTTL : Z := 120.
Definition secretKeyClientID : string := "clientId".
Definition secretKeyClientSecret : string := "clientSecret".
Definition secretKeyUsername : string := "username".
Definition secretKeyPassword : string := "password".

Record credentials := {
  clientID : string;
  clientSecret : string;
  username : string;
  password : string
}.

(** A Kubernetes [Secret]: its namespace, name and [Data] map. *)
Record Secret := {
  Namespace : string;
  SecretName : string;
  SecretData : gmap string string
}.

(** The [Solver] struct: [client] is [None] before [Initialize]; an
    initialised client answers [Secrets(namespace).Get(name)] with the
    secret or an error ([None]). *)
Record Solver := {
  client : option (string -> string -> option Secret)
}.

(** The fields of the [ChallengeRequest] the solver reads; [ch_Config]
    is the raw JSON of the [Config] field, [None] for a nil pointer. *)
Record ChallengeRequest := {
  ResourceNamespace : string;
  ResolvedZone : string;
  ResolvedFQDN : string;
  Key : string;
  ch_Config : option string
}.

(** Indexing a Go map at a missing key gives the zero value. *)
Definition index (m : gmap string string) (k : string) : string :=
  default "" (m !! k).

Definition credentialsFromSecret (secret : Secret) : result credentials :=
  let clientID := strings.TrimSpace (index (SecretData secret) secretKeyClientID) in
  let clientSecret := strings.TrimSpace (index (SecretData secret) secretKeyClientSecret) in
  let username := strings.TrimSpace (index (SecretData secret) secretKeyUsername) in
  let password := strings.TrimSpace (index (SecretData secret) secretKeyPassword) in
  if String.eqb clientID "" || String.eqb clientSecret ""
     || String.eqb username "" || String.eqb password ""
  then inl (ErrSecretKeys (Namespace secret) (SecretName secret))
  else inr {| clientID := clientID; clientSecret := clientSecret;
              username := username; password := password |}.

Definition isACMERecord (record : contabo.DNSRecord) (name value : string) : bool :=
  if negb (strings.EqualFold (contabo.Type_ record) "TXT") then false
  else if negb (String.eqb (contabo.Name record) name) then false
  else if negb (String.eqb value "")
          && negb (String.eqb (contabo.Data record) value) then false
  else true.

Definition ttl (c : Config) : Z :=
  if TTL c <=? 0 then defaultTTL else TTL c.



Definition NewSolver : Solver := {| client := None |}.

Definition Name (s : Solver) : string := "contabo".

(** The error of [Initialize], which wraps the one of
    [kubernetes.NewForConfig]: failed to initialize kubernetes client. *)
Inductive initError : Type :=
  | ErrInitialize (cause : string).

(** [Initialize]; [made] is what [kubernetes.NewForConfig] returns for
    the REST configuration, an error message or a client.  The result is
    the error, if any, and the solver afterwards. *)
Definition Initialize (made : string + (string -> string -> option Secret))
    (s : Solver) : option initError * Solver :=
  match made with
  | inl cause => (Some (ErrInitialize cause), s)
  | inr kube => (None, {| client := Some kube |})
  end.

Definition newClient (cfg : Config) (creds : credentials) : result contabo.Client :=
  if negb (String.eqb (AuthURL cfg) "")
  then contabo.NewClientWithAuthURL (BaseURL cfg) (AuthURL cfg)
         (clientID creds) (clientSecret creds) (username creds) (password creds)
  else contabo.NewClient (BaseURL cfg)
         (clientID creds) (clientSecret creds) (username creds) (password creds).

Definition loadCredentials (s : Solver) (ch : ChallengeRequest) (cfg : Config)
    : result credentials :=
  match client s with
  | None => inl ErrKubeNotInitialized
  | Some kube =>
      let namespace := CredentialsSecretNamespace cfg in
      let namespace :=
        if String.eqb namespace "" then ResourceNamespace ch else namespace in
      if String.eqb namespace "" then inl ErrNamespaceRequired
      else
        match kube namespace (CredentialsSecretName cfg) with
        | None => inl (ErrGetSecret namespace (CredentialsSecretName cfg))
        | Some secret => credentialsFromSecret secret
        end
  end.

Section WithEnv.
Context (env : contabo.Env).

Definition loadConfig (rawJSON : option string) : result Config :=
  match rawJSON with
  | None => inl ErrConfigRequired
  | Some raw =>
      match contabo.decodeConfig env raw with
      | None => inl ErrConfigUnmarshal
      | Some cfg =>
          if String.eqb (CredentialsSecretName cfg) ""
          then inl ErrSecretNameRequired
          else inr cfg
      end
  end.

(** Run a computation on a client of its own, from history [h]. *)
Definition withClient {A} (c : contabo.Client) (m : contabo.M A)
    (h : list contabo.Event) : result A * list contabo.Event :=
  let '(r, st) := m {| contabo.client := c; contabo.events := h |} in
  (r, contabo.events st).

Definition Present (s : Solver) (ch : ChallengeRequest)
    (h : list contabo.Event) : result unit * list contabo.Event :=
  match loadConfig (ch_Config ch) with
  | inl err => (inl err, h)
  | inr cfg =>
      match loadCredentials s ch cfg with
      | inl err => (inl err, h)
      | inr creds =>
          match newClient cfg creds with
          | inl err => (inl err, h)
          | inr client =>
              let zone := normalizeZone (ResolvedZone ch) in
              let recordName :=
                relativeRecordName (ResolvedFQDN ch) (ResolvedZone ch) in
              let req :=
                {| contabo.req_Name := recordName;
                   contabo.req_Type := "TXT";
                   contabo.req_TTL := ttl cfg;
                   contabo.req_Prio := 0;
                   contabo.req_Data := Key ch |} in
              withClient client (contabo.CreateRecord env zone req) h
          end
      end
  end.

(** The [for ... range records] loop of [CleanUp]. *)
Fixpoint deleteRecords (zone recordName key : string)
    (records : list contabo.DNSRecord) : contabo.M unit :=
  match records with
  | [] => contabo.ret tt
  | record :: rest =>
      if negb (isACMERecord record recordName key)
      then deleteRecords zone recordName key rest
      else
        contabo.bind
          (contabo.DeleteRecord env zone (Sprint (contabo.RecordID record)))
          (fun _ => deleteRecords zone recordName key rest)
  end.

Definition CleanUp (s : Solver) (ch : ChallengeRequest)
    (h : list contabo.Event) : result unit * list contabo.Event :=
  match loadConfig (ch_Config ch) with
  | inl err => (inl err, h)
  | inr cfg =>
      match loadCredentials s ch cfg with
      | inl err => (inl err, h)
      | inr creds =>
          match newClient cfg creds with
          | inl err => (inl err, h)
          | inr client =>
              let zone := normalizeZone (ResolvedZone ch) in
              let recordName :=
                relativeRecordName (ResolvedFQDN ch) (ResolvedZone ch) in
              withClient client
                (contabo.bind (contabo.ListRecords env zone recordName)
                   (fun records => deleteRecords zone recordName (Key ch) records))
                h
          end
      end
  end.

(** The steps [Present] and [CleanUp] share before they touch the
    network: configuration, credentials and a new client.  The deadline
    of the context reaches the model only through the errors of the
    transport. *)
Definition setup (s : Solver) (ch : ChallengeRequest) : result contabo.Client :=
  match loadConfig (ch_Config ch) with
  | inl err => inl err
  | inr cfg =>
      match loadCredentials s ch cfg with
      | inl err => inl err
      | inr creds => newClient cfg creds
      end
  end.

End WithEnv.

End solver.

(** ** A concrete world, after [TestSolverPresentAndCleanUp]

    A server with a token endpoint and the records of zone [example.com];
    bodies are named rather than spelled out in JSON, and the decoders map
    the names to what the JSON of the test decodes to. *)

Module Scenario.
Import solver.

Definition base : string := "http://127.0.0.1".

Definition the_records : list contabo.DNSRecord :=
  [ {| contabo.RecordID := 99; contabo.Name := "_acme-challenge"; contabo.Type_ := "TXT";
       contabo.Data := "key"; contabo.TTL := 120; contabo.Prio := 0 |};
    {| contabo.RecordID := 100; contabo.Name := "_acme-challenge"; contabo.Type_ := "TXT";
       contabo.Data := "other"; contabo.TTL := 120; contabo.Prio := 0 |};
    {| contabo.RecordID := 101; contabo.Name := "_acme-challenge"; contabo.Type_ := "txt";
       contabo.Data := "third"; contabo.TTL := 120; contabo.Prio := 0 |} ].

Definition the_config : Config :=
  {| CredentialsSecretName := "contabo-credentials";
     CredentialsSecretNamespace := "";
     BaseURL := base; AuthURL := base +:+ "/token";
     TTL := 0; TimeoutSecs := 0 |}.

(** [expires_in] and the status of the token endpoint are parameters. *)
Definition handler (tokenStatus : Z) (req : contabo.Request) : string + contabo.Response :=
  if String.eqb (contabo.URL req) (base +:+ "/token") then
    inr {| contabo.StatusCode := tokenStatus;
           contabo.Status := if tokenStatus <? 300 then "200 OK" else "401 Unauthorized";
           contabo.RespBody := "token" |}
  else if String.eqb (contabo.Method req) "POST" then
    inr {| contabo.StatusCode := 201; contabo.Status := "201 Created"; contabo.RespBody := "" |}
  else if String.eqb (contabo.Method req) "GET" then
    inr {| contabo.StatusCode := 200; contabo.Status := "200 OK"; contabo.RespBody := "records" |}
  else if String.eqb (contabo.URL req)
            (base +:+ "/v1/dns/zones/example.com/records/99") then
    inr {| contabo.StatusCode := 204; contabo.Status := "204 No Content"; contabo.RespBody := "" |}
  else
    inr {| contabo.StatusCode := 404; contabo.Status := "404 Not Found"; contabo.RespBody := "gone" |}.

Definition world (tokenStatus expires_in : Z) : contabo.Env :=
  {| contabo.server := fun _ req => handler tokenStatus req;
     contabo.clock := fun h => 1000 * Second + Z.of_nat (length h) * Second;
     contabo.urlOK := fun _ => true;
     contabo.decodeToken := fun body =>
       if String.eqb body "token"
       then Some {| contabo.AccessToken := "token123"; contabo.TokenType := "Bearer";
                    contabo.ExpiresIn := expires_in |}
       else None;
     contabo.decodeRecords := fun body =>
       if String.eqb body "records" then Some the_records else None;
     contabo.decodeMessage := fun body =>
       if String.eqb body "gone" then "record not found" else "";
     contabo.decodeConfig := fun raw =>
       if String.eqb raw "cfg" then Some the_config else None |}.

Definition the_secret : Secret :=
  {| Namespace := "tenant-ns"; SecretName := "contabo-credentials";
     SecretData :=
       <[secretKeyClientID := "id"]>
         (<[secretKeyClientSecret := "secret"]>
            (<[secretKeyUsername := "user"]>
               (<[secretKeyPassword := " pass "]> ∅))) |}.

Definition the_solver : Solver :=
  {| solver.client := Some (fun namespace name =>
       if String.eqb namespace "tenant-ns" && String.eqb name "contabo-credentials"
       then Some the_secret else None) |}.

(** The client [newClient] builds from [the_config] and [the_secret]. *)
Definition the_client : contabo.Client :=
  {| contabo.baseURL := base; contabo.authURL := base +:+ "/token";
     contabo.clientID := "id"; contabo.secret := "secret";
     contabo.username := "user"; contabo.password := "pass";
     contabo.accessToken := ""; contabo.expiresAt := 0 |}.

Definition start : contabo.State :=
  {| contabo.client := the_client; contabo.events := [] |}.

Definition challenge : ChallengeRequest :=
  {| ResourceNamespace := "tenant-ns";
     ResolvedZone := "example.com.";
     ResolvedFQDN := "_acme-challenge.example.com.";
     Key := "key";
     ch_Config := Some "cfg" |}.

(** A world whose token endpoint hands out a token for ten seconds, once:
    it answers the first request of a history and refuses the later
    ones. *)
Definition short_lived : contabo.Env :=
  {| contabo.server := fun h req =>
       if String.eqb (contabo.URL req) (base +:+ "/token") then
         match h with
         | [] => handler 200 req
         | _ => handler 401 req
         end
       else handler 200 req;
     contabo.clock := fun h => 1000 * Second + Z.of_nat (length h) * Second;
     contabo.urlOK := fun _ => true;
     contabo.decodeToken := fun body =>
       if String.eqb body "token"
       then Some {| contabo.AccessToken := "token123"; contabo.TokenType := "Bearer";
                    contabo.ExpiresIn := 10 |}
       else None;
     contabo.decodeRecords := fun body =>
       if String.eqb body "records" then Some the_records else None;
     contabo.decodeMessage := fun body =>
       if String.eqb body "gone" then "record not found" else "";
     contabo.decodeConfig := fun raw =>
       if String.eqb raw "cfg" then Some the_config else None |}.

(** The incomplete secret of [TestCredentialsFromSecretErrors], with a
    password of white space added. *)
Definition bad_secret : Secret :=
  {| Namespace := "tenant-ns"; SecretName := "contabo-credentials";
     SecretData :=
       <[secretKeyClientID := "id"]> (<[secretKeyPassword := "  "]> ∅) |}.

Definition bad_solver : Solver :=
  {| solver.client := Some (fun _ _ => Some bad_secret) |}.

(** The same challenge from a caller that does not supply the key. *)
Definition challenge_nokey : ChallengeRequest :=
  {| ResourceNamespace := "tenant-ns";
     ResolvedZone := "example.com.";
     ResolvedFQDN := "_acme-challenge.example.com.";
     Key := "";
     ch_Config := Some "cfg" |}.

End Scenario.
(** ** Vocabulary of the statements *)

(** ASCII lower-casing of a string, and equality up to ASCII case. *)
Fixpoint lower (s : string) : string :=
  match s with
  | EmptyString => EmptyString
  | String c s' => String (strings.toLower c) (lower s')
  end.

Definition equalIgnoringCase (s t : string) : Prop := lower s = lower t.

(** A string made of white-space runes only. *)
Definition isSpaceRune (w : string) : Prop :=
  w <> "" /\ strings.spaceLen w = String.length w.

(** The same at the end of a string, read backwards. *)
Definition isSpaceRuneRev (q : string) : Prop :=
  q <> "" /\ strings.spaceLenRev q = String.length q.

(** A concatenation of strings that satisfy [P]. *)
Inductive Concat (P : string -> Prop) : string -> Prop :=
  | Concat_nil : Concat P ""
  | Concat_app (w s : string) : P w -> Concat P s -> Concat P (w +:+ s).

Definition OnlySpace : string -> Prop := Concat isSpaceRune.

(** Requests to the record API carry the bearer token; the token request
    carries no [Authorization] header. *)
Definition isRecordRequest (req : contabo.Request) : bool :=
  match contabo.Authorization req with
  | Some _ => true
  | None => false
  end.

(** The requests sent to the record API in a history, oldest first. *)
Fixpoint recordRequests (h : list contabo.Event) : list contabo.Request :=
  match h with
  | [] => []
  | contabo.EvHTTP req _ :: h' =>
      if isRecordRequest req then req :: recordRequests h'
      else recordRequests h'
  | contabo.EvNow _ :: h' => recordRequests h'
  end.

(** The requests sent to the auth endpoint in a history. *)
Fixpoint tokenRequests (h : list contabo.Event) : list contabo.Request :=
  match h with
  | [] => []
  | contabo.EvHTTP req _ :: h' =>
      if isRecordRequest req then tokenRequests h'
      else req :: tokenRequests h'
  | contabo.EvNow _ :: h' => tokenRequests h'
  end.

(** The request [ensureToken] sends to refresh the token of [c]. *)
Definition authRequest (c : contabo.Client) : contabo.Request :=
  {| contabo.Method := "POST";
     contabo.URL := contabo.authURL c;
     contabo.ContentType := "application/x-www-form-urlencoded";
     contabo.Authorization := None;
     contabo.ReqBody := contabo.FormBody (contabo.tokenForm c) |}.

(** The request [doJSON] sends for a client holding [token]. *)
Definition recordRequest (c : contabo.Client) (token method path : string)
    (body : contabo.Body) : contabo.Request :=
  {| contabo.Method := method;
     contabo.URL := contabo.baseURL c +:+ path;
     contabo.ContentType := "application/json";
     contabo.Authorization := Some ("Bearer " +:+ token);
     contabo.ReqBody := body |}.

(** Two client values that differ at most in the cached token. *)
Definition sameSettings (c c' : contabo.Client) : Prop :=
  contabo.baseURL c' = contabo.baseURL c
  /\ contabo.authURL c' = contabo.authURL c
  /\ contabo.clientID c' = contabo.clientID c
  /\ contabo.secret c' = contabo.secret c
  /\ contabo.username c' = contabo.username c
  /\ contabo.password c' = contabo.password c.

(** The cached token may be used at time [now]. *)
Definition tokenUsable (c : contabo.Client) (now : Z) : Prop :=
  contabo.accessToken c <> "" /\ now + 30 * Second < contabo.expiresAt c.

(** The three ways a response of the auth endpoint fails the token
    request, with the error each one gives. *)
Definition authFailure (env : contabo.Env) (resp : contabo.Response)
    : option error :=
  if 300 <=? contabo.StatusCode resp
  then Some (ErrTokenStatus (contabo.Status resp))
  else
    match contabo.decodeToken env (contabo.RespBody resp) with
    | None => Some ErrJSON
    | Some token =>
        if String.eqb (contabo.AccessToken token) ""
        then Some ErrTokenMissing
        else None
    end.

(** The body [doJSON] sends for its [reqBody] argument. *)
Definition jsonBody (reqBody : option contabo.CreateRecordRequest) : contabo.Body :=
  match reqBody with
  | Some r => contabo.JSONBody r
  | None => contabo.NoBody
  end.

(** What [doJSON] makes of a response of the record API. *)
Definition recordOutcome (env : contabo.Env) (out : bool)
    (resp : contabo.Response) : result (list contabo.DNSRecord) :=
  if 300 <=? contabo.StatusCode resp then
    if negb (String.eqb (contabo.decodeMessage env (contabo.RespBody resp)) "")
    then inl (ErrAPI (contabo.decodeMessage env (contabo.RespBody resp)))
    else inl (ErrAPIStatus (contabo.Status resp))
  else if out then
    match contabo.decodeRecords env (contabo.RespBody resp) with
    | None => inl ErrJSON
    | Some data => inr data
    end
  else inr [].

(** The method and URL of each request sent to the record API. *)
Definition calls (h : list contabo.Event) : list (string * string) :=
  List.map (fun req => (contabo.Method req, contabo.URL req)) (recordRequests h).

(** The call that deletes record [r] of [zone]. *)
Definition deleteCall (c : contabo.Client) (zone : string)
    (r : contabo.DNSRecord) : string * string :=
  ("DELETE",
   contabo.baseURL c +:+ contabo.recordsPath zone +:+ "/"
   +:+ url.PathEscape (Sprint (contabo.RecordID r))).

(** The records of a candidate list that [CleanUp] selects. *)
Definition selected (name key : string) (records : list contabo.DNSRecord)
    : list contabo.DNSRecord :=
  List.filter (fun r => solver.isACMERecord r name key) records.

(** The record [Present] asks the provider to create. *)
Definition desiredRecord (cfg : Config) (ch : solver.ChallengeRequest)
    : contabo.CreateRecordRequest :=
  {| contabo.req_Name :=
       relativeRecordName (solver.ResolvedFQDN ch) (solver.ResolvedZone ch);
     contabo.req_Type := "TXT";
     contabo.req_TTL := if TTL cfg <=? 0 then 120 else TTL cfg;
     contabo.req_Prio := 0;
     contabo.req_Data := solver.Key ch |}.

(** The namespace [loadCredentials] reads the secret from. *)
Definition secretNamespace (cfg : Config) (ch : solver.ChallengeRequest) : string :=
  if String.eqb (CredentialsSecretNamespace cfg) ""
  then solver.ResourceNamespace ch
  else CredentialsSecretNamespace cfg.

(** [v] is [raw] without its leading and trailing white space: white
    space only was cut off on either side, and [v] neither starts nor
    ends with a white-space rune. *)
Definition trimmedOf (raw v : string) : Prop :=
  (exists l r, raw = l +:+ v +:+ r /\ OnlySpace l /\ OnlySpace r)
  /\ strings.spaceLen v = 0%nat
  /\ strings.spaceLenRev (strings.rev v) = 0%nat.

(** A key of the secret without a usable value: missing, or holding
    white space only (the empty value included). *)
Definition blank (data : gmap string string) (k : string) : Prop :=
  data !! k = None \/ exists v, data !! k = Some v /\ OnlySpace v.



(** Whether the byte [c] occurs in [s]. *)
Fixpoint occurs (c : ascii) (s : string) : bool :=
  match s with
  | EmptyString => false
  | String d s' => Ascii.eqb c d || occurs c s'
  end.

(** What [escape] writes for one byte. *)
Definition enc (c : ascii) (mode : url.encoding) : string :=
  if url.shouldEscape c mode then
    if match mode with
       | url.encodeQueryComponent => Ascii.eqb c " "
       | url.encodePathSegment => false
       end
    then "+"
    else String "%"
           (String (url.upperhex (nat_of_ascii c / 16))
              (String (url.upperhex (nat_of_ascii c mod 16)) ""))
  else String c "".

(** The errors of the steps before a client exists. *)
Definition setupError (e : error) : bool :=
  match e with
  | ErrConfigRequired | ErrConfigUnmarshal | ErrSecretNameRequired
  | ErrKubeNotInitialized | ErrNamespaceRequired
  | ErrGetSecret _ _ | ErrSecretKeys _ _ => true
  | _ => false
  end.

(** The errors of [ensureToken]. *)
Definition tokenError (e : error) : bool :=
  match e with
  | ErrNewRequest _ | ErrTransport _ | ErrTokenStatus _ | ErrJSON
  | ErrTokenMissing => true
  | _ => false
  end.

(** The errors of a call of the client. *)
Definition callError (e : error) : bool :=
  match e with
  | ErrAPI _ | ErrAPIStatus _ => true
  | _ => tokenError e
  end.

(** Where a client with the settings of [c] may send what: its
    credentials to the auth URL, in the token request, and a token, never
    the empty one, to a URL under the base URL. *)
Definition addressed (c : contabo.Client) (ev : contabo.Event) : Prop :=
  match ev with
  | contabo.EvNow _ => True
  | contabo.EvHTTP req _ =>
      req = authRequest c
      \/ exists token method path body,
           token <> "" /\ req = recordRequest c token method path body
  end.

(** A specification of a client computation: run in a state that
    satisfies [I], it ends in a state that satisfies [I], the events it
    adds to the history satisfy [Q], and it fails with errors in [E]
    only. *)
Definition keeps (I : contabo.State -> Prop) (Q : list contabo.Event -> Prop)
    (E : error -> Prop) {A : Type} (m : contabo.M A) : Prop :=
  forall s : contabo.State,
    I s ->
    I (snd (m s))
    /\ (exists new,
          contabo.events (snd (m s)) = (contabo.events s ++ new)%list /\ Q new)
    /\ forall e, fst (m s) = inl e -> E e.

(** The client [newClient] makes of a configuration and credentials. *)
Definition clientOf (cfg : Config) (creds : solver.credentials) : contabo.Client :=
  {| contabo.baseURL :=
       if String.eqb (BaseURL cfg) "" then contabo.defaultBaseURL else BaseURL cfg;
     contabo.authURL :=
       if String.eqb (AuthURL cfg) "" then contabo.defaultAuthURL else AuthURL cfg;
     contabo.clientID := solver.clientID creds;
     contabo.secret := solver.clientSecret creds;
     contabo.username := solver.username creds;
     contabo.password := solver.password creds;
     contabo.accessToken := "";
     contabo.expiresAt := 0 |}.

(** What a run adds to the history without logging in again: no token
    request, and requests that carry the token of [c]. *)
Definition reuses (c : contabo.Client) (new : list contabo.Event) : Prop :=
  tokenRequests new = []
  /\ Forall (fun req => contabo.Authorization req
                        = Some ("Bearer " +:+ contabo.accessToken c))
       (recordRequests new).

(** A call got as far as the record request and was answered with a
    status below 300 by a response that satisfies [p]. *)
Definition answered (s : contabo.State) (after : list contabo.Event)
    (p : contabo.Response -> Prop) : Prop :=
  exists pre req resp,
    after = (contabo.events s ++ pre ++ [contabo.EvHTTP req (inr resp)])%list
    /\ isRecordRequest req = true
    /\ contabo.StatusCode resp < 300
    /\ p resp.



(** * Properties *)

(** ** Facts about strings *)

Section StringFacts.

Lemma sapp_nil_l (s : string) : "" +:+ s = s.
Proof. reflexivity. Qed.

Lemma sapp_cons (c : ascii) (s t : string) :
  String c s +:+ t = String c (s +:+ t).
Proof. reflexivity. Qed.

Lemma sapp_nil_r (s : string) : s +:+ "" = s.
Proof.
  induction s as [|c s IH]; [reflexivity|].
  rewrite sapp_cons, IH. reflexivity.
Qed.

Lemma sapp_assoc (s t u : string) : (s +:+ t) +:+ u = s +:+ (t +:+ u).
Proof.
  induction s as [|c s IH]; [reflexivity|].
  rewrite !sapp_cons, IH. reflexivity.
Qed.

Lemma slength_app (s t : string) :
  String.length (s +:+ t) = (String.length s + String.length t)%nat.
Proof.
  induction s as [|c s IH]; [reflexivity|].
  rewrite sapp_cons. simpl. rewrite IH. reflexivity.
Qed.

Lemma length_zero (s : string) : String.length s = 0%nat -> s = "".
Proof. destruct s; [reflexivity|discriminate]. Qed.

Lemma substring_0_0 (s : string) : substring 0 0 s = "".
Proof. destruct s; reflexivity. Qed.

Lemma substring_0_app (s t : string) :
  substring 0 (String.length s) (s +:+ t) = s.
Proof.
  induction s as [|c s IH].
  - apply substring_0_0.
  - rewrite sapp_cons. simpl. rewrite IH. reflexivity.
Qed.

Lemma substring_0_all (s : string) : substring 0 (String.length s) s = s.
Proof.
  induction s as [|c s IH]; [reflexivity|]. simpl. rewrite IH. reflexivity.
Qed.

Lemma substring_skip_app (s t : string) :
  substring (String.length s) (String.length t) (s +:+ t) = t.
Proof.
  induction s as [|c s IH].
  - apply substring_0_all.
  - rewrite sapp_cons. simpl. exact IH.
Qed.

Lemma substring_split (s : string) (n : nat) :
  (n <= String.length s)%nat ->
  substring 0 n s +:+ substring n (String.length s - n) s = s.
Proof.
  revert n. induction s as [|c s IH]; intros n Hn.
  - simpl in Hn. assert (n = 0%nat) as -> by lia. reflexivity.
  - destruct n as [|n].
    + simpl. rewrite sapp_nil_l, substring_0_all. reflexivity.
    + simpl in Hn. simpl. rewrite sapp_cons, IH by lia. reflexivity.
Qed.

Lemma sapp_inv_tail (s t u : string) : s +:+ u = t +:+ u -> s = t.
Proof.
  revert t. induction s as [|c s IH]; intros [|d t] H.
  - reflexivity.
  - apply (f_equal String.length) in H.
    rewrite sapp_nil_l, sapp_cons in H. simpl in H. rewrite slength_app in H. lia.
  - apply (f_equal String.length) in H.
    rewrite sapp_nil_l, sapp_cons in H. simpl in H. rewrite slength_app in H. lia.
  - rewrite !sapp_cons in H. injection H as -> H. f_equal. apply IH, H.
Qed.

(** [HasSuffix] holds exactly of the strings that end with the suffix. *)
Lemma HasSuffix_iff (s suffix : string) :
  strings.HasSuffix s suffix = true <-> exists p, s = p +:+ suffix.
Proof.
  unfold strings.HasSuffix. rewrite andb_true_iff, Nat.leb_le, String.eqb_eq.
  split.
  - intros [Hlen Hsub].
    exists (substring 0 (String.length s - String.length suffix) s).
    rewrite <- (substring_split s (String.length s - String.length suffix))
      at 1 by lia.
    f_equal.
    replace (String.length s - (String.length s - String.length suffix))%nat
      with (String.length suffix) by lia.
    exact Hsub.
  - intros [p ->]. rewrite slength_app. split; [lia|].
    replace (String.length p + String.length suffix - String.length suffix)%nat
      with (String.length p) by lia.
    apply substring_skip_app.
Qed.

Lemma TrimSuffix_app (p suffix : string) :
  strings.TrimSuffix (p +:+ suffix) suffix = p.
Proof.
  unfold strings.TrimSuffix.
  assert (strings.HasSuffix (p +:+ suffix) suffix = true) as ->
    by (apply HasSuffix_iff; eauto).
  rewrite slength_app.
  replace (String.length p + String.length suffix - String.length suffix)%nat
    with (String.length p) by lia.
  apply substring_0_app.
Qed.

Lemma TrimSuffix_none (s suffix : string) :
  strings.HasSuffix s suffix = false -> strings.TrimSuffix s suffix = s.
Proof. unfold strings.TrimSuffix. intros ->. reflexivity. Qed.

(** The two outcomes of [TrimSuffix]. *)
Lemma TrimSuffix_cases (s suffix : string) :
  (strings.HasSuffix s suffix = true /\ s = strings.TrimSuffix s suffix +:+ suffix)
  \/ (strings.HasSuffix s suffix = false /\ strings.TrimSuffix s suffix = s).
Proof.
  destruct (strings.HasSuffix s suffix) eqn:H.
  - left. split; [reflexivity|].
    apply HasSuffix_iff in H as [p ->]. rewrite TrimSuffix_app. reflexivity.
  - right. split; [reflexivity|]. apply TrimSuffix_none, H.
Qed.

End StringFacts.

(** ** Name resolution *)

Section NameResolver.

Lemma HasSuffix_dot_dot (p : string) : strings.HasSuffix (p +:+ "..") "." = true.
Proof.
  apply HasSuffix_iff. exists (p +:+ "."). rewrite sapp_assoc. reflexivity.
Qed.

Lemma app_dot_neq (p : string) : p <> p +:+ ".".
Proof.
  intros H. apply (f_equal String.length) in H.
  rewrite slength_app in H. simpl in H. lia.
Qed.

(** Where [normalizeZone] is idempotent: everywhere but on the strings
    that end with two dots. *)
Lemma normalizeZone_idempotent_iff (z : string) :
  normalizeZone (normalizeZone z) = normalizeZone z
  <-> strings.HasSuffix z ".." = false.
Proof.
  unfold normalizeZone. split.
  - intros Hidem. destruct (strings.HasSuffix z "..") eqn:H2; [|reflexivity].
    apply HasSuffix_iff in H2 as [p ->].
    replace (p +:+ "..") with ((p +:+ ".") +:+ ".") in Hidem
      by (rewrite sapp_assoc; reflexivity).
    rewrite !TrimSuffix_app in Hidem.
    exfalso. exact (app_dot_neq p Hidem).
  - intros H2. destruct (TrimSuffix_cases z ".") as [[_ Hz]|[Hno Hz]].
    + destruct (TrimSuffix_cases (strings.TrimSuffix z ".") ".")
        as [[_ Hz']|[_ Hz']]; [|exact Hz'].
      exfalso. rewrite Hz' in Hz. rewrite sapp_assoc in Hz.
      assert (strings.HasSuffix z ".." = true) as Habs
        by (apply HasSuffix_iff; eexists; exact Hz).
      congruence.
    + rewrite Hz. exact Hz.
Qed.

(** A name equal to its zone: the suffix that [relativeRecordName] looks
    for is one byte longer than the name, so nothing is stripped but
    trailing dots. *)
Lemma relativeRecordName_self (z : string) :
  relativeRecordName z z =
    let n := strings.TrimSuffix (strings.TrimSuffix z ".") "." in
    if String.eqb n "" then "@" else n.
Proof.
  unfold relativeRecordName. cbv zeta.
  assert (strings.HasSuffix (strings.TrimSuffix z ".")
            ("." +:+ strings.TrimSuffix z ".") = false) as Hno.
  { destruct (strings.HasSuffix _ _) eqn:H; [|reflexivity].
    apply HasSuffix_iff in H as [p Hp].
    apply (f_equal String.length) in Hp.
    rewrite !slength_app in Hp. simpl in Hp. lia. }
  rewrite (TrimSuffix_none _ _ Hno). reflexivity.
Qed.

Lemma relativeRecordName_nonempty (fqdn zone : string) :
  relativeRecordName fqdn zone <> "".
Proof.
  unfold relativeRecordName. cbv zeta.
  destruct (String.eqb_spec
              (strings.TrimSuffix
                 (strings.TrimSuffix (strings.TrimSuffix fqdn ".")
                    ("." +:+ strings.TrimSuffix zone ".")) ".") "")
    as [_|Hne]; [discriminate|exact Hne].
Qed.

End NameResolver.

(** ** Matching records *)

Section Matching.

Lemma fold_upper (c d : ascii) :
  strings.isUpper d = true ->
  (Ascii.eqb c d
   || Ascii.eqb (strings.toLower c) (strings.toLower d)
      && (strings.isUpper c || strings.isUpper d) = true
   <-> strings.toLower c = strings.toLower d).
Proof.
  intros Hd. rewrite Hd, orb_true_r, andb_true_r, orb_true_iff.
  rewrite !Ascii.eqb_eq. split.
  - intros [->|H]; [reflexivity|exact H].
  - intros H. right. exact H.
Qed.

Lemma EqualFold_TXT (s : string) :
  strings.EqualFold s "TXT" = true <-> equalIgnoringCase s "TXT".
Proof.
  unfold equalIgnoringCase.
  destruct s as [|c0 [|c1 [|c2 [|c3 s]]]]; simpl; rewrite ?andb_false_r;
    try (split; [discriminate|intros H; discriminate H]).
  rewrite !andb_true_iff, !fold_upper by reflexivity.
  split.
  - intros [H0 [H1 [H2 _]]]. rewrite H0, H1, H2. reflexivity.
  - intros H. injection H as H0 H1 H2. auto.
Qed.

Lemma isACMERecord_true (r : contabo.DNSRecord) (name value : string) :
  solver.isACMERecord r name value = true
  <-> strings.EqualFold (contabo.Type_ r) "TXT" = true
      /\ contabo.Name r = name
      /\ (value = "" \/ contabo.Data r = value).
Proof.
  unfold solver.isACMERecord.
  destruct (strings.EqualFold (contabo.Type_ r) "TXT"); simpl;
    [|split; [discriminate|intros [H _]; discriminate H]].
  destruct (String.eqb_spec (contabo.Name r) name) as [Hn|Hn]; simpl;
    [|split; [discriminate|intros [_ [H _]]; contradiction]].
  destruct (String.eqb_spec value "") as [Hv|Hv]; simpl.
  - split; auto.
  - destruct (String.eqb_spec (contabo.Data r) value) as [Hd|Hd]; simpl.
    + split; auto.
    + split; [discriminate|intros [_ [_ [H|H]]]; contradiction].
Qed.

End Matching.

(** ** The client: what each call does to the history *)

Section ClientFacts.

Context (env : contabo.Env).

Lemma recordRequests_app (h1 h2 : list contabo.Event) :
  recordRequests (h1 ++ h2) = (recordRequests h1 ++ recordRequests h2)%list.
Proof.
  induction h1 as [|[t|req res] h1 IH]; simpl; [reflexivity|exact IH|].
  destruct (isRecordRequest req); simpl; rewrite IH; reflexivity.
Qed.

Lemma tokenRequests_app (h1 h2 : list contabo.Event) :
  tokenRequests (h1 ++ h2) = (tokenRequests h1 ++ tokenRequests h2)%list.
Proof.
  induction h1 as [|[t|req res] h1 IH]; simpl; [reflexivity|exact IH|].
  destruct (isRecordRequest req); simpl; rewrite IH; reflexivity.
Qed.

Lemma sameSettings_refl (c : contabo.Client) : sameSettings c c.
Proof. repeat split. Qed.

Lemma sameSettings_trans (c1 c2 c3 : contabo.Client) :
  sameSettings c1 c2 -> sameSettings c2 c3 -> sameSettings c1 c3.
Proof.
  unfold sameSettings. intros (?&?&?&?&?&?) (?&?&?&?&?&?).
  repeat split; congruence.
Qed.

(** Unfold the monad and split on every test the code makes. *)
Ltac unfold_client :=
  unfold contabo.ensureToken, contabo.refreshToken, contabo.tokenFresh,
    contabo.tokenRequest, contabo.timeUntil, contabo.timeNow,
    contabo.newRequest, contabo.httpDo, contabo.setToken,
    contabo.withToken, contabo.getClient, contabo.bind, contabo.ret, contabo.throw,
    contabo.record in *;
  simpl in *.

Ltac split_tests :=
  repeat match goal with
    | |- context [match ?x with _ => _ end] =>
        lazymatch x with
        | context [match _ with _ => _ end] => fail
        | _ => destruct x eqn:?; simpl in *
        end
    end.

Ltac grown :=
  rewrite <- ?List.app_assoc; simpl;
  first [ eexists; split; [reflexivity|]
        | exists []; split; [symmetry; apply List.app_nil_r|] ].

(** The closed form of the freshness test: no token, no clock reading;
    otherwise one reading [t] and the test [now + 30s < expiry]. *)
Lemma tokenFresh_run (s : contabo.State) :
  contabo.tokenFresh env s =
    if String.eqb (contabo.accessToken (contabo.client s)) ""
    then (inr false, s)
    else
      let t := contabo.clock env (contabo.events s) in
      (inr (30 * Second <? Sub (contabo.expiresAt (contabo.client s)) t),
       contabo.record (contabo.EvNow t) s).
Proof.
  unfold_client.
  destruct (String.eqb (contabo.accessToken (contabo.client s)) "");
    reflexivity.
Qed.

(** The saturating subtraction does not change the comparison. *)
Lemma fresh_test (expiry now : Z) :
  (30 * Second <? Sub expiry now) = true <-> now + 30 * Second < expiry.
Proof.
  unfold Sub, minDuration, maxDuration, Second. rewrite Z.ltb_lt.
  destruct (expiry - now <? - 2 ^ 63) eqn:H1;
    [apply Z.ltb_lt in H1; lia|apply Z.ltb_ge in H1].
  destruct (2 ^ 63 - 1 <? expiry - now) eqn:H2;
    [apply Z.ltb_lt in H2; lia|apply Z.ltb_ge in H2; lia].
Qed.

(** A refresh adds to the history clock readings and one request at
    most, never a request to the record API; it changes nothing in the
    client but the token, and nothing at all when it fails. *)
Lemma refreshToken_trace (s : contabo.State) :
  let out := contabo.refreshToken env s in
  exists new,
    contabo.events (snd out) = (contabo.events s ++ new)%list
    /\ recordRequests new = []
    /\ sameSettings (contabo.client s) (contabo.client (snd out))
    /\ (forall e, fst out = inl e -> contabo.client (snd out) = contabo.client s).
Proof.
  unfold_client. split_tests; grown;
    (split; [reflexivity|]);
    (split; [unfold sameSettings; simpl; repeat split|]);
    intros; try reflexivity; discriminate.
Qed.

(** The closed form of a refresh. *)
Lemma refreshToken_run (s : contabo.State) :
  contabo.refreshToken env s =
    let c := contabo.client s in
    if contabo.urlOK env (contabo.authURL c) then
      let res := contabo.server env (contabo.events s) (authRequest c) in
      let s1 := contabo.record (contabo.EvHTTP (authRequest c) res) s in
      match res with
      | inl msg => (inl (ErrTransport msg), s1)
      | inr resp =>
          match authFailure env resp with
          | Some e => (inl e, s1)
          | None =>
              match contabo.decodeToken env (contabo.RespBody resp) with
              | Some token =>
                  let t := contabo.clock env (contabo.events s1) in
                  (inr tt,
                   {| contabo.client :=
                        contabo.withToken c (contabo.AccessToken token)
                          (Add t (wrap64 (contabo.ExpiresIn token * Second)));
                      contabo.events :=
                        contabo.events s1 ++ [contabo.EvNow t] |})
              | None => (inl ErrJSON, s1)
              end
          end
      end
    else (inl (ErrNewRequest (contabo.authURL c)), s).
Proof.
  unfold authFailure, authRequest. unfold_client.
  split_tests; try reflexivity; try discriminate; congruence.
Qed.

(** The closed form of [ensureToken]. *)
Lemma ensureToken_run (s : contabo.State) :
  contabo.ensureToken env s =
    if String.eqb (contabo.accessToken (contabo.client s)) ""
    then contabo.refreshToken env s
    else
      let t := contabo.clock env (contabo.events s) in
      let s1 := contabo.record (contabo.EvNow t) s in
      if 30 * Second <? Sub (contabo.expiresAt (contabo.client s)) t
      then (inr tt, s1)
      else contabo.refreshToken env s1.
Proof.
  unfold contabo.ensureToken, contabo.bind. rewrite tokenFresh_run.
  destruct (String.eqb (contabo.accessToken (contabo.client s)) "");
    [reflexivity|].
  cbv zeta. destruct (30 * Second <? Sub _ _); reflexivity.
Qed.

Lemma ensureToken_trace (s : contabo.State) :
  let out := contabo.ensureToken env s in
  exists new,
    contabo.events (snd out) = (contabo.events s ++ new)%list
    /\ recordRequests new = []
    /\ sameSettings (contabo.client s) (contabo.client (snd out))
    /\ (forall e, fst out = inl e -> contabo.client (snd out) = contabo.client s).
Proof.
  cbv zeta. unfold contabo.ensureToken, contabo.bind.
  rewrite tokenFresh_run.
  destruct (String.eqb (contabo.accessToken (contabo.client s)) "").
  - simpl. apply refreshToken_trace.
  - cbv zeta.
    destruct (30 * Second <? Sub _ _).
    + simpl. exists [contabo.EvNow (contabo.clock env (contabo.events s))].
      repeat split; intros; discriminate.
    + destruct (refreshToken_trace
                  (contabo.record
                     (contabo.EvNow (contabo.clock env (contabo.events s))) s))
        as (new & Hev & Hreq & Hsame & Herr).
      exists (contabo.EvNow (contabo.clock env (contabo.events s)) :: new).
      simpl in *. rewrite Hev, <- List.app_assoc. repeat split; try tauto; try apply Hsame; try exact Herr.
Qed.

(** Every response a refresh receives is the response to its token
    request: when that response is a failure, so is the refresh. *)
Lemma refreshToken_failure (s : contabo.State) :
  let out := contabo.refreshToken env s in
  exists new,
    contabo.events (snd out) = (contabo.events s ++ new)%list
    /\ forall req resp e,
         In (contabo.EvHTTP req (inr resp)) new ->
         authFailure env resp = Some e ->
         fst out = inl e.
Proof.
  cbv zeta. rewrite refreshToken_run. cbv zeta.
  destruct (contabo.urlOK env (contabo.authURL (contabo.client s))).
  2:{ exists []. split; [symmetry; apply List.app_nil_r|]. intros ? ? ? []. }
  destruct (contabo.server env (contabo.events s)
              (authRequest (contabo.client s))) as [msg|resp] eqn:Hres.
  { simpl. eexists. split; [reflexivity|].
    intros req resp e [H|[]] _. discriminate H. }
  destruct (authFailure env resp) as [e0|] eqn:Hfail.
  { simpl. eexists. split; [reflexivity|].
    intros req resp' e [H|[]] Hf. injection H as _ <-. congruence. }
  destruct (contabo.decodeToken env (contabo.RespBody resp)) as [token|] eqn:Hdec.
  - simpl. rewrite <- List.app_assoc. simpl. eexists. split; [reflexivity|].
    intros req resp' e [H|[H|[]]] Hf; [|discriminate H].
    injection H as _ <-. congruence.
  - simpl. eexists. split; [reflexivity|].
    intros req resp' e [H|[]] Hf. injection H as _ <-. congruence.
Qed.

Lemma ensureToken_failure (s : contabo.State) :
  let out := contabo.ensureToken env s in
  exists new,
    contabo.events (snd out) = (contabo.events s ++ new)%list
    /\ recordRequests new = []
    /\ sameSettings (contabo.client s) (contabo.client (snd out))
    /\ forall req resp e,
         In (contabo.EvHTTP req (inr resp)) new ->
         authFailure env resp = Some e ->
         fst out = inl e.
Proof.
  cbv zeta.
  destruct (ensureToken_trace s) as (new & Hev & Hreq & Hsame & _).
  exists new. split; [exact Hev|]. split; [exact Hreq|].
  split; [exact Hsame|]. clear Hsame.
  revert Hev. rewrite ensureToken_run.
  destruct (String.eqb (contabo.accessToken (contabo.client s)) "").
  - intros Hev. destruct (refreshToken_failure s) as (new' & Hev' & Hfail).
    rewrite Hev in Hev'. apply List.app_inv_head in Hev'. subst new'.
    exact Hfail.
  - cbv zeta. destruct (30 * Second <? Sub _ _).
    + simpl. intros Hev. apply List.app_inv_head in Hev. subst new.
      intros req resp e [H|[]]. discriminate H.
    + intros Hev.
      destruct (refreshToken_failure
                  (contabo.record
                     (contabo.EvNow (contabo.clock env (contabo.events s))) s))
        as (new' & Hev' & Hfail).
      rewrite Hev in Hev'. simpl in Hev'. rewrite <- List.app_assoc in Hev'.
      apply List.app_inv_head in Hev'. subst new.
      intros req resp e [H|H] Hf; [discriminate H|].
      exact (Hfail req resp e H Hf).
Qed.

(** The closed form of [doJSON]: the token first, then one request. *)
Lemma doJSON_run (method path : string)
    (reqBody : option contabo.CreateRecordRequest) (out : bool)
    (s : contabo.State) :
  contabo.doJSON env method path reqBody out s =
    match contabo.ensureToken env s with
    | (inl e, s1) => (inl e, s1)
    | (inr _, s1) =>
        let c := contabo.client s1 in
        if contabo.urlOK env (contabo.baseURL c +:+ path) then
          let req := recordRequest c (contabo.accessToken c) method path
                       (jsonBody reqBody) in
          let res := contabo.server env (contabo.events s1) req in
          let s2 := contabo.record (contabo.EvHTTP req res) s1 in
          match res with
          | inl msg => (inl (ErrTransport msg), s2)
          | inr resp => (recordOutcome env out resp, s2)
          end
        else (inl (ErrNewRequest (contabo.baseURL c +:+ path)), s1)
    end.
Proof.
  unfold contabo.doJSON, contabo.bind at 1.
  destruct (contabo.ensureToken env s) as [[e|[]] s1]; [reflexivity|].
  unfold recordOutcome, recordRequest, jsonBody.
  unfold contabo.newRequest, contabo.httpDo, contabo.getClient, contabo.bind,
    contabo.ret, contabo.throw, contabo.record.
  simpl. split_tests; reflexivity.
Qed.

(** What one call of [doJSON] adds to the history: the events of
    [ensureToken], none of them a request to the record API, then at most
    one request, sent with the token the client holds afterwards; the
    result is the error of the step that failed or what the response
    gives. *)
Lemma doJSON_trace (method path : string)
    (reqBody : option contabo.CreateRecordRequest) (out : bool)
    (s : contabo.State) :
  let o := contabo.doJSON env method path reqBody out s in
  exists tok sent,
    contabo.events (snd o) = (contabo.events s ++ tok ++ sent)%list
    /\ recordRequests tok = []
    /\ sameSettings (contabo.client s) (contabo.client (snd o))
    /\ (forall req resp e,
          In (contabo.EvHTTP req (inr resp)) tok ->
          authFailure env resp = Some e ->
          fst o = inl e /\ sent = [])
    /\ ((sent = [] /\ exists e, fst o = inl e)
        \/ exists res,
             sent = [contabo.EvHTTP
                       (recordRequest (contabo.client s)
                          (contabo.accessToken (contabo.client (snd o)))
                          method path (jsonBody reqBody)) res]
             /\ fst o = match res with
                        | inl msg => inl (ErrTransport msg)
                        | inr resp => recordOutcome env out resp
                        end).
Proof.
  cbv zeta. rewrite doJSON_run.
  destruct (ensureToken_failure s) as (tok & Hev & Hreq & Hsame & Hfail).
  destruct (contabo.ensureToken env s) as [[e|[]] s1]; simpl in *.
  - exists tok, []. rewrite List.app_nil_r.
    split; [assumption|]. split; [assumption|]. split; [assumption|].
    split.
    { intros req resp e0 Hin Hf. split; [|reflexivity].
      specialize (Hfail req resp e0 Hin Hf). congruence. }
    left. split; [reflexivity|]. exists e. reflexivity.
  - assert (Hnofail : forall req resp e,
              In (contabo.EvHTTP req (inr resp)) tok ->
              authFailure env resp = Some e -> False).
    { intros req resp e Hin Hf. specialize (Hfail req resp e Hin Hf).
      discriminate Hfail. }
    assert (Hbase : contabo.baseURL (contabo.client s1)
                    = contabo.baseURL (contabo.client s)) by apply Hsame.
    destruct (contabo.urlOK env (contabo.baseURL (contabo.client s1) +:+ path)).
    + assert (Hreqeq :
                recordRequest (contabo.client s1)
                  (contabo.accessToken (contabo.client s1)) method path
                  (jsonBody reqBody)
                = recordRequest (contabo.client s)
                    (contabo.accessToken (contabo.client s1)) method path
                    (jsonBody reqBody))
        by (unfold recordRequest; rewrite Hbase; reflexivity).
      cbv zeta. rewrite Hreqeq.
      remember (contabo.server env (contabo.events s1)
                  (recordRequest (contabo.client s)
                     (contabo.accessToken (contabo.client s1)) method path
                     (jsonBody reqBody))) as res eqn:Hres.
      exists tok,
        [contabo.EvHTTP
           (recordRequest (contabo.client s)
              (contabo.accessToken (contabo.client s1)) method path
              (jsonBody reqBody)) res].
      destruct res as [msg|resp]; simpl; rewrite Hev, <- List.app_assoc;
        (split; [reflexivity|]); (split; [assumption|]);
        (split; [assumption|]);
        (split; [intros req resp0 e Hin Hf; exfalso; eauto|]);
        right; eexists; split; reflexivity.
    + exists tok, []. simpl. rewrite List.app_nil_r.
      split; [assumption|]. split; [assumption|]. split; [assumption|].
      split; [intros req resp e Hin Hf; exfalso; eauto|].
      left. split; [reflexivity|]. eexists. reflexivity.
Qed.

Lemma wrap64_small (z : Z) : - 2 ^ 63 <= z < 2 ^ 63 -> wrap64 z = z.
Proof.
  intros Hz. unfold wrap64.
  rewrite Z.mod_small by lia. lia.
Qed.

Lemma list_neq_snoc {A} (l : list A) (x : A) : (l ++ [x])%list <> l.
Proof.
  intros H. apply (f_equal (@List.length A)) in H.
  rewrite List.length_app in H. simpl in H. lia.
Qed.

Lemma tokenRequests_snoc_auth (h : list contabo.Event) (c : contabo.Client)
    (res : string + contabo.Response) :
  tokenRequests (h ++ [contabo.EvHTTP (authRequest c) res])
  = (tokenRequests h ++ [authRequest c])%list.
Proof. rewrite tokenRequests_app. reflexivity. Qed.

(** What a refresh does to the token requests of the history, and what
    it stores when it succeeds. *)
Lemma refreshToken_facts (s : contabo.State) :
  let c := contabo.client s in
  let out := contabo.refreshToken env s in
  (contabo.urlOK env (contabo.authURL c) = true ->
   tokenRequests (contabo.events (snd out))
   = (tokenRequests (contabo.events s) ++ [authRequest c])%list)
  /\ (fst out = inr tt ->
      exists resp token t,
        contabo.urlOK env (contabo.authURL c) = true
        /\ contabo.events (snd out)
           = (contabo.events s
              ++ [contabo.EvHTTP (authRequest c) (inr resp); contabo.EvNow t])%list
        /\ t = contabo.clock env
                 (contabo.events s ++ [contabo.EvHTTP (authRequest c) (inr resp)])
        /\ authFailure env resp = None
        /\ contabo.decodeToken env (contabo.RespBody resp) = Some token
        /\ contabo.client (snd out)
           = contabo.withToken c (contabo.AccessToken token)
               (t + wrap64 (contabo.ExpiresIn token * Second))).
Proof.
  cbv zeta. rewrite refreshToken_run. cbv zeta.
  destruct (contabo.urlOK env (contabo.authURL (contabo.client s)));
    [|split; [discriminate|simpl; discriminate]].
  destruct (contabo.server env (contabo.events s)
              (authRequest (contabo.client s))) as [msg|resp] eqn:Hres.
  { simpl. split; [intros _; apply tokenRequests_snoc_auth|discriminate]. }
  destruct (authFailure env resp) eqn:Hfail.
  { simpl. split; [intros _; apply tokenRequests_snoc_auth|discriminate]. }
  destruct (contabo.decodeToken env (contabo.RespBody resp)) as [token|] eqn:Hdec.
  - simpl. split.
    + intros _. rewrite tokenRequests_app, tokenRequests_snoc_auth.
      simpl. apply List.app_nil_r.
    + intros _. exists resp, token. eexists.
      rewrite <- List.app_assoc. simpl.
      repeat split; try reflexivity; assumption.
  - simpl. split; [intros _; apply tokenRequests_snoc_auth|discriminate].
Qed.

Lemma recordRequests_In (h : list contabo.Event) (req : contabo.Request)
    (res : string + contabo.Response) :
  In (contabo.EvHTTP req res) h -> isRecordRequest req = true ->
  In req (recordRequests h).
Proof.
  induction h as [|[t|req' res'] h IH]; simpl; [tauto| |].
  - intros [H|H] Hrec; [discriminate H|auto].
  - intros [H|H] Hrec.
    + injection H as -> _. rewrite Hrec. left. reflexivity.
    + destruct (isRecordRequest req'); [right|]; auto.
Qed.

End ClientFacts.

(** ** The token cache *)

(** C4, amended.  [ensureToken] succeeds without a token request exactly
    when a token is present and [now + 30s] is before the stored expiry,
    and it then leaves the client as it is.  Otherwise it refreshes: with
    an auth URL that the HTTP library accepts it sends one token request,
    and on success it stores the token of the response with expiry
    [t + expires_in * 1s], [t] being the clock read after the response,
    the product computed in 64-bit nanoseconds: it is [expires_in]
    seconds whenever that fits a [Duration] (up to 9223372036 seconds
    either way) and wraps around beyond. *)
Theorem ensureToken_cached_or_refreshed (env : contabo.Env) (s : contabo.State) :
  let c := contabo.client s in
  let now := contabo.clock env (contabo.events s) in
  let out := contabo.ensureToken env s in
  ((fst out = inr tt
    /\ tokenRequests (contabo.events (snd out)) = tokenRequests (contabo.events s))
   <-> tokenUsable c now)
  /\ (tokenUsable c now -> contabo.client (snd out) = c)
  /\ (~ tokenUsable c now ->
      contabo.urlOK env (contabo.authURL c) = true ->
      tokenRequests (contabo.events (snd out))
      = (tokenRequests (contabo.events s) ++ [authRequest c])%list)
  /\ (~ tokenUsable c now ->
      fst out = inr tt ->
      exists resp token t h,
        contabo.events (snd out)
        = (h ++ [contabo.EvHTTP (authRequest c) (inr resp); contabo.EvNow t])%list
        /\ t = contabo.clock env (h ++ [contabo.EvHTTP (authRequest c) (inr resp)])
        /\ contabo.decodeToken env (contabo.RespBody resp) = Some token
        /\ contabo.accessToken (contabo.client (snd out)) = contabo.AccessToken token
        /\ contabo.expiresAt (contabo.client (snd out))
           = t + wrap64 (contabo.ExpiresIn token * Second)
        /\ (- 9223372036 <= contabo.ExpiresIn token <= 9223372036 ->
            contabo.expiresAt (contabo.client (snd out))
            = t + contabo.ExpiresIn token * Second)).
Proof.
  cbv zeta. unfold tokenUsable. rewrite ensureToken_run.
  assert (Hstored : forall s0 : contabo.State,
            contabo.client s0 = contabo.client s ->
            fst (contabo.refreshToken env s0) = inr tt ->
            exists resp token t h,
              contabo.events (snd (contabo.refreshToken env s0))
              = (h ++ [contabo.EvHTTP (authRequest (contabo.client s)) (inr resp);
                       contabo.EvNow t])%list
              /\ t = contabo.clock env
                       (h ++ [contabo.EvHTTP (authRequest (contabo.client s)) (inr resp)])
              /\ contabo.decodeToken env (contabo.RespBody resp) = Some token
              /\ contabo.accessToken (contabo.client (snd (contabo.refreshToken env s0)))
                 = contabo.AccessToken token
              /\ contabo.expiresAt (contabo.client (snd (contabo.refreshToken env s0)))
                 = t + wrap64 (contabo.ExpiresIn token * Second)
              /\ (- 9223372036 <= contabo.ExpiresIn token <= 9223372036 ->
                  contabo.expiresAt (contabo.client (snd (contabo.refreshToken env s0)))
                  = t + contabo.ExpiresIn token * Second)).
  { intros s0 Hc Hok.
    destruct (refreshToken_facts env s0) as [_ Hfacts].
    destruct (Hfacts Hok) as (resp & token & t & _ & Hev & Ht & _ & Hdec & Hcl).
    rewrite Hc in *. exists resp, token, t, (contabo.events s0).
    rewrite Hcl. simpl. repeat split; try assumption.
    intros Hrange. rewrite wrap64_small; [reflexivity|unfold Second; lia]. }
  assert (Hgrow : forall s0 : contabo.State,
            contabo.client s0 = contabo.client s ->
            tokenRequests (contabo.events s0) = tokenRequests (contabo.events s) ->
            fst (contabo.refreshToken env s0) = inr tt ->
            tokenRequests (contabo.events (snd (contabo.refreshToken env s0)))
            <> tokenRequests (contabo.events s)).
  { intros s0 Hc Hreq Hok.
    destruct (refreshToken_facts env s0) as [Hsent Hfacts].
    destruct (Hfacts Hok) as (_ & _ & _ & Hurl & _).
    rewrite (Hsent Hurl), Hreq. apply list_neq_snoc. }
  destruct (String.eqb_spec (contabo.accessToken (contabo.client s)) "")
    as [Hempty|Hpresent].
  - (* no token: refresh at once *)
    split; [|split; [|split]].
    + split; [intros [Hok Hreq]|intros [Habs _]; contradiction].
      exfalso. exact (Hgrow s eq_refl eq_refl Hok Hreq).
    + intros [Habs _]. contradiction.
    + intros _ Hurl. apply (refreshToken_facts env s). exact Hurl.
    + intros _. apply Hstored. reflexivity.
  - cbv zeta.
    destruct (30 * Second <? Sub (contabo.expiresAt (contabo.client s))
                               (contabo.clock env (contabo.events s))) eqn:Htest.
    + (* token present and fresh *)
      apply fresh_test in Htest. simpl.
      split; [|split; [|split]].
      * split; [auto|]. intros _. split; [reflexivity|].
        rewrite tokenRequests_app. simpl. apply List.app_nil_r.
      * reflexivity.
      * intros Hnot. exfalso. apply Hnot. auto.
      * intros Hnot. exfalso. apply Hnot. auto.
    + (* token present but stale: one clock reading, then refresh *)
      assert (Hstale : ~ contabo.clock env (contabo.events s) + 30 * Second
                         < contabo.expiresAt (contabo.client s)).
      { intros H. apply fresh_test in H. congruence. }
      set (s1 := contabo.record
                   (contabo.EvNow (contabo.clock env (contabo.events s))) s).
      assert (Hreq1 : tokenRequests (contabo.events s1)
                      = tokenRequests (contabo.events s)).
      { unfold s1. simpl. rewrite tokenRequests_app. simpl. apply List.app_nil_r. }
      split; [|split; [|split]].
      * split; [intros [Hok Hreq]|intros [_ Habs]; contradiction].
        exfalso. exact (Hgrow s1 eq_refl Hreq1 Hok Hreq).
      * intros [_ Habs]. contradiction.
      * intros _ Hurl. rewrite <- Hreq1.
        apply (refreshToken_facts env s1). exact Hurl.
      * intros _. apply Hstored. reflexivity.
Qed.

(** The refresh of a new client in the concrete world, through the
    theorem: the client has no token, the call succeeds. *)
Lemma ensureToken_cached_or_refreshed_witness :
  let env := Scenario.world 200 3600 in
  let s := Scenario.start in
  let c := contabo.client s in
  let out := contabo.ensureToken env s in
  exists resp token t h,
    contabo.events (snd out)
    = (h ++ [contabo.EvHTTP (authRequest c) (inr resp); contabo.EvNow t])%list
    /\ t = contabo.clock env (h ++ [contabo.EvHTTP (authRequest c) (inr resp)])
    /\ contabo.decodeToken env (contabo.RespBody resp) = Some token
    /\ contabo.accessToken (contabo.client (snd out)) = contabo.AccessToken token
    /\ contabo.expiresAt (contabo.client (snd out))
       = t + wrap64 (contabo.ExpiresIn token * Second)
    /\ (- 9223372036 <= contabo.ExpiresIn token <= 9223372036 ->
        contabo.expiresAt (contabo.client (snd out))
        = t + contabo.ExpiresIn token * Second).
Proof.
  apply (proj2 (proj2 (proj2
           (ensureToken_cached_or_refreshed (Scenario.world 200 3600)
              Scenario.start)))).
  - intros [Hpresent _]. apply Hpresent. reflexivity.
  - reflexivity.
Defined.

(** C4 as stated fails for a large [expires_in]: the auth endpoint
    answers [expires_in = 9223372037], the refresh succeeds, the clock
    reads 1001 s after the response, and the expiry stored is 292 years
    in the past instead of [now + 9223372037 s]. *)
Lemma ensureToken_expiry_wraps :
  let env := Scenario.world 200 9223372037 in
  let out := contabo.ensureToken env Scenario.start in
  fst out = inr tt
  /\ contabo.events (snd out)
     = [contabo.EvHTTP (authRequest Scenario.the_client)
          (inr {| contabo.StatusCode := 200; contabo.Status := "200 OK";
                  contabo.RespBody := "token" |});
        contabo.EvNow (1001 * Second)]
  /\ contabo.decodeToken env "token"
     = Some {| contabo.AccessToken := "token123"; contabo.TokenType := "Bearer";
               contabo.ExpiresIn := 9223372037 |}
  /\ contabo.expiresAt (contabo.client (snd out)) = -9223371035709551616
  /\ contabo.expiresAt (contabo.client (snd out))
     <> 1001 * Second + 9223372037 * Second.
Proof.
  cbv zeta. repeat split. vm_compute. discriminate.
Qed.

(** ** Errors of the two endpoints *)

(** The failures of the token request are those of the claim: an error
    status, a body that does not decode, or an empty [access_token]. *)
Lemma authFailure_cases (env : contabo.Env) (resp : contabo.Response) (e : error) :
  authFailure env resp = Some e <->
    (300 <= contabo.StatusCode resp /\ e = ErrTokenStatus (contabo.Status resp))
    \/ (contabo.StatusCode resp < 300
        /\ contabo.decodeToken env (contabo.RespBody resp) = None /\ e = ErrJSON)
    \/ (contabo.StatusCode resp < 300
        /\ (exists token,
              contabo.decodeToken env (contabo.RespBody resp) = Some token
              /\ contabo.AccessToken token = "")
        /\ e = ErrTokenMissing).
Proof.
  unfold authFailure.
  destruct (300 <=? contabo.StatusCode resp) eqn:Hst;
    [apply Z.leb_le in Hst|apply Z.leb_gt in Hst].
  - split.
    + intros H. injection H as <-. left. auto.
    + intros [[_ ->]|[[Hlt _]|[Hlt _]]]; [reflexivity|lia|lia].
  - destruct (contabo.decodeToken env (contabo.RespBody resp)) as [token|].
    + destruct (String.eqb_spec (contabo.AccessToken token) "") as [Hempty|Hne].
      * split.
        -- intros H. injection H as <-. right. right. eauto.
        -- intros [[Hge _]|[[_ [Hd _]]|[_ [_ ->]]]];
             [lia|discriminate Hd|reflexivity].
      * split; [discriminate|].
        intros [[Hge _]|[[_ [Hd _]]|[_ [[token' [Hd He]] _]]]];
          [lia|discriminate Hd|].
        injection Hd as <-. contradiction.
    + split.
      * intros H. injection H as <-. right. left. auto.
      * intros [[Hge _]|[[_ [_ ->]]|[_ [[token [Hd _]] _]]]];
          [lia|reflexivity|discriminate Hd].
Qed.


(** C8.  A response of the record API with status 300 or more makes the
    call return the provider's message when the body carries a non-empty
    one, and the status line of the response otherwise. *)
Theorem api_error_detail (env : contabo.Env) (method path : string)
    (reqBody : option contabo.CreateRecordRequest) (out : bool)
    (s : contabo.State) :
  let o := contabo.doJSON env method path reqBody out s in
  exists new,
    contabo.events (snd o) = (contabo.events s ++ new)%list
    /\ forall req resp,
         In (contabo.EvHTTP req (inr resp)) new ->
         isRecordRequest req = true ->
         300 <= contabo.StatusCode resp ->
         let message := contabo.decodeMessage env (contabo.RespBody resp) in
         (message <> "" -> fst o = inl (ErrAPI message))
         /\ (message = "" -> fst o = inl (ErrAPIStatus (contabo.Status resp))).
Proof.
  cbv zeta.
  destruct (doJSON_trace env method path reqBody out s)
    as (tok & sent & Hev & Hreq & _ & _ & Hsent).
  exists (tok ++ sent)%list. split; [exact Hev|].
  intros req resp Hin Hrec Hst.
  apply List.in_app_or in Hin as [Hin|Hin].
  - exfalso. apply (recordRequests_In _ _ _ Hin) in Hrec.
    rewrite Hreq in Hrec. exact Hrec.
  - destruct Hsent as [[-> _]|[res [-> Hout]]]; [contradiction|].
    destruct Hin as [H|[]]. injection H as _ ->.
    rewrite Hout. unfold recordOutcome.
    apply Z.leb_le in Hst. rewrite Hst.
    destruct (String.eqb_spec
                (contabo.decodeMessage env (contabo.RespBody resp)) "")
      as [Hempty|Hne]; simpl.
    + split; [contradiction|reflexivity].
    + split; [reflexivity|contradiction].
Qed.

(** ** The solver: [Present] and [CleanUp] *)

Section SolverFacts.

Context (env : contabo.Env).

Lemma calls_app (h1 h2 : list contabo.Event) :
  calls (h1 ++ h2) = (calls h1 ++ calls h2)%list.
Proof. unfold calls. rewrite recordRequests_app, List.map_app. reflexivity. Qed.

Lemma Present_setup_error (sv : solver.Solver) (ch : solver.ChallengeRequest)
    (h : list contabo.Event) (e : error) :
  solver.setup env sv ch = inl e -> solver.Present env sv ch h = (inl e, h).
Proof.
  unfold solver.setup, solver.Present.
  destruct (solver.loadConfig env (solver.ch_Config ch)) as [e0|cfg];
    [congruence|].
  destruct (solver.loadCredentials sv ch cfg) as [e1|creds]; [congruence|].
  destruct (solver.newClient cfg creds) as [e2|c]; [congruence|discriminate].
Qed.

Lemma CleanUp_setup_error (sv : solver.Solver) (ch : solver.ChallengeRequest)
    (h : list contabo.Event) (e : error) :
  solver.setup env sv ch = inl e -> solver.CleanUp env sv ch h = (inl e, h).
Proof.
  unfold solver.setup, solver.CleanUp.
  destruct (solver.loadConfig env (solver.ch_Config ch)) as [e0|cfg];
    [congruence|].
  destruct (solver.loadCredentials sv ch cfg) as [e1|creds]; [congruence|].
  destruct (solver.newClient cfg creds) as [e2|c]; [congruence|discriminate].
Qed.

Lemma Present_run (sv : solver.Solver) (ch : solver.ChallengeRequest)
    (h : list contabo.Event) (cfg : Config) (c : contabo.Client) :
  solver.loadConfig env (solver.ch_Config ch) = inr cfg ->
  solver.setup env sv ch = inr c ->
  solver.Present env sv ch h =
    solver.withClient c
      (contabo.CreateRecord env (normalizeZone (solver.ResolvedZone ch))
         (desiredRecord cfg ch)) h.
Proof.
  unfold solver.setup, solver.Present. intros ->.
  destruct (solver.loadCredentials sv ch cfg) as [e1|creds]; [discriminate|].
  destruct (solver.newClient cfg creds) as [e2|c']; [discriminate|].
  intros H. injection H as ->. reflexivity.
Qed.

Lemma CleanUp_run (sv : solver.Solver) (ch : solver.ChallengeRequest)
    (h : list contabo.Event) (c : contabo.Client) :
  solver.setup env sv ch = inr c ->
  solver.CleanUp env sv ch h =
    let zone := normalizeZone (solver.ResolvedZone ch) in
    let name := relativeRecordName (solver.ResolvedFQDN ch) (solver.ResolvedZone ch) in
    solver.withClient c
      (contabo.bind (contabo.ListRecords env zone name)
         (fun records => solver.deleteRecords env zone name (solver.Key ch) records))
      h.
Proof.
  unfold solver.setup, solver.CleanUp.
  destruct (solver.loadConfig env (solver.ch_Config ch)) as [e0|cfg];
    [discriminate|].
  destruct (solver.loadCredentials sv ch cfg) as [e1|creds]; [discriminate|].
  destruct (solver.newClient cfg creds) as [e2|c']; [discriminate|].
  intros H. injection H as ->. reflexivity.
Qed.

(** A call of the client in terms of the calls it adds to the history:
    none or the one asked for, and the one asked for when it succeeds. *)
Lemma doJSON_calls (method path : string)
    (reqBody : option contabo.CreateRecordRequest) (out : bool)
    (s : contabo.State) :
  let o := contabo.doJSON env method path reqBody out s in
  exists new,
    contabo.events (snd o) = (contabo.events s ++ new)%list
    /\ sameSettings (contabo.client s) (contabo.client (snd o))
    /\ (recordRequests new = []
        \/ recordRequests new
           = [recordRequest (contabo.client s)
                (contabo.accessToken (contabo.client (snd o)))
                method path (jsonBody reqBody)])
    /\ (recordRequests new = [] -> exists e, fst o = inl e).
Proof.
  cbv zeta.
  destruct (doJSON_trace env method path reqBody out s)
    as (tok & sent & Hev & Hreq & Hsame & _ & Hsent).
  exists (tok ++ sent)%list. split; [exact Hev|]. split; [exact Hsame|].
  rewrite recordRequests_app, Hreq. simpl.
  destruct Hsent as [[-> He]|[res [-> Hout]]]; simpl.
  - split; [left; reflexivity|intros _; exact He].
  - split; [right; reflexivity|discriminate].
Qed.

Lemma CreateRecord_run (zone : string) (req : contabo.CreateRecordRequest)
    (s : contabo.State) :
  contabo.CreateRecord env zone req s =
    let o := contabo.doJSON env "POST" (contabo.recordsPath zone) (Some req)
               false s in
    (match fst o with inl e => inl e | inr _ => inr tt end, snd o).
Proof.
  unfold contabo.CreateRecord, contabo.bind, contabo.ret. cbv zeta.
  destruct (contabo.doJSON env "POST" (contabo.recordsPath zone) (Some req)
              false s) as [[e|v] s1]; reflexivity.
Qed.

Lemma DeleteRecord_run (zone recordID : string) (s : contabo.State) :
  contabo.DeleteRecord env zone recordID s =
    let o := contabo.doJSON env "DELETE"
               (contabo.recordsPath zone +:+ "/" +:+ url.PathEscape recordID)
               None false s in
    (match fst o with inl e => inl e | inr _ => inr tt end, snd o).
Proof.
  unfold contabo.DeleteRecord, contabo.bind, contabo.ret. cbv zeta.
  destruct (contabo.doJSON env "DELETE" _ None false s) as [[e|v] s1];
    reflexivity.
Qed.

(** One [Present]: whatever the history, it sends at most one request to
    the record API, the create of the desired record, and it fails when
    it sends none. *)
Lemma Present_once (sv : solver.Solver) (ch : solver.ChallengeRequest)
    (h : list contabo.Event) (cfg : Config) (c : contabo.Client) :
  solver.loadConfig env (solver.ch_Config ch) = inr cfg ->
  solver.setup env sv ch = inr c ->
  let o := solver.Present env sv ch h in
  exists new,
    snd o = (h ++ new)%list
    /\ (recordRequests new = []
        \/ exists token,
             recordRequests new
             = [recordRequest c token "POST"
                  (contabo.recordsPath (normalizeZone (solver.ResolvedZone ch)))
                  (contabo.JSONBody (desiredRecord cfg ch))])
    /\ (recordRequests new = [] -> exists e, fst o = inl e).
Proof.
  intros Hcfg Hsetup. cbv zeta.
  rewrite (Present_run sv ch h cfg c Hcfg Hsetup).
  unfold solver.withClient. rewrite CreateRecord_run. cbv zeta.
  destruct (doJSON_calls "POST"
              (contabo.recordsPath (normalizeZone (solver.ResolvedZone ch)))
              (Some (desiredRecord cfg ch)) false
              {| contabo.client := c; contabo.events := h |})
    as (new & Hev & _ & Hreq & Hnone).
  simpl in *. exists new. split; [exact Hev|]. split.
  - destruct Hreq as [Hreq|Hreq]; [left; exact Hreq|right; eauto].
  - intros Hnil. destruct (Hnone Hnil) as [e He]. exists e. rewrite He.
    reflexivity.
Qed.

(** One delete: it adds at most the call that deletes the record, and
    exactly that call when it succeeds. *)
Lemma DeleteRecord_calls (zone : string) (r : contabo.DNSRecord)
    (s : contabo.State) :
  let o := contabo.DeleteRecord env zone (Sprint (contabo.RecordID r)) s in
  exists new,
    contabo.events (snd o) = (contabo.events s ++ new)%list
    /\ sameSettings (contabo.client s) (contabo.client (snd o))
    /\ (calls new = [] \/ calls new = [deleteCall (contabo.client s) zone r])
    /\ (fst o = inr tt -> calls new = [deleteCall (contabo.client s) zone r]).
Proof.
  cbv zeta. rewrite DeleteRecord_run. cbv zeta.
  destruct (doJSON_calls "DELETE"
              (contabo.recordsPath zone +:+ "/"
               +:+ url.PathEscape (Sprint (contabo.RecordID r)))
              None false s) as (new & Hev & Hsame & Hreq & Hnone).
  simpl. exists new. split; [exact Hev|]. split; [exact Hsame|].
  unfold calls.
  destruct Hreq as [Hreq|Hreq]; rewrite Hreq; simpl.
  - split; [left; reflexivity|].
    destruct (Hnone Hreq) as [e He]. rewrite He. discriminate.
  - split; [right; reflexivity|intros _; reflexivity].
Qed.

Lemma deleteCall_sameSettings (c c' : contabo.Client) (zone : string)
    (r : contabo.DNSRecord) :
  sameSettings c c' -> deleteCall c' zone r = deleteCall c zone r.
Proof. intros [Hbase _]. unfold deleteCall. rewrite Hbase. reflexivity. Qed.

Lemma deleteRecords_cons_selected (zone name key : string)
    (r : contabo.DNSRecord) (rest : list contabo.DNSRecord) (s : contabo.State) :
  solver.isACMERecord r name key = true ->
  solver.deleteRecords env zone name key (r :: rest) s =
    match contabo.DeleteRecord env zone (Sprint (contabo.RecordID r)) s with
    | (inl e, s') => (inl e, s')
    | (inr _, s') => solver.deleteRecords env zone name key rest s'
    end.
Proof. intros Hsel. simpl. rewrite Hsel. reflexivity. Qed.

(** The loop of [CleanUp] over a candidate list.  The calls it adds to
    the history are the deletes of the selected records, in list order.
    When it succeeds they are all there.  When it fails with [e], the
    selected records split into those deleted before ([pre]), the record
    [r] whose delete returned [e], and the rest: the loop ends in the
    state that failed delete left, so the deletes of the rest are not
    attempted and nothing is sent for [pre] a second time. *)
Lemma deleteRecords_trace (zone name key : string)
    (records : list contabo.DNSRecord) :
  forall s : contabo.State,
    let o := solver.deleteRecords env zone name key records s in
    exists new,
      contabo.events (snd o) = (contabo.events s ++ new)%list
      /\ sameSettings (contabo.client s) (contabo.client (snd o))
      /\ match fst o with
         | inr _ =>
             calls new
             = List.map (deleteCall (contabo.client s) zone)
                 (selected name key records)
         | inl e =>
             exists pre r post s2,
               selected name key records = (pre ++ r :: post)%list
               /\ solver.deleteRecords env zone name key pre s = (inr tt, s2)
               /\ contabo.DeleteRecord env zone (Sprint (contabo.RecordID r)) s2
                  = (inl e, snd o)
               /\ (calls new = List.map (deleteCall (contabo.client s) zone) pre
                   \/ calls new
                      = List.map (deleteCall (contabo.client s) zone)
                          (pre ++ [r]))
         end.
Proof.
  induction records as [|r rest IH]; intros s; cbv zeta.
  - simpl. exists []. split; [symmetry; apply List.app_nil_r|].
    split; [apply sameSettings_refl|reflexivity].
  - destruct (solver.isACMERecord r name key) eqn:Hsel.
    2:{ specialize (IH s). cbv zeta in IH. unfold selected in *.
        simpl. rewrite Hsel. simpl. exact IH. }
    rewrite (deleteRecords_cons_selected zone name key r rest s Hsel).
    destruct (DeleteRecord_calls zone r s)
      as (new1 & Hev1 & Hsame1 & Hcalls1 & Hok1).
    assert (Hselcons : selected name key (r :: rest)
                       = r :: selected name key rest)
      by (unfold selected; simpl; rewrite Hsel; reflexivity).
    destruct (contabo.DeleteRecord env zone (Sprint (contabo.RecordID r)) s)
      as [[e|[]] s1] eqn:Hdel; simpl in *.
    + (* the delete of [r] fails: the loop stops here *)
      exists new1. split; [exact Hev1|]. split; [exact Hsame1|].
      exists [], r, (selected name key rest), s. simpl.
      split; [exact Hselcons|]. split; [reflexivity|]. split; [exact Hdel|].
      destruct Hcalls1 as [H|H]; [left|right]; exact H.
    + (* the delete of [r] succeeds: on to the rest *)
      specialize (Hok1 eq_refl).
      specialize (IH s1). cbv zeta in IH.
      destruct IH as (new2 & Hev2 & Hsame2 & Hrest).
      exists (new1 ++ new2)%list.
      split; [rewrite Hev2, Hev1, List.app_assoc; reflexivity|].
      split; [exact (sameSettings_trans _ _ _ Hsame1 Hsame2)|].
      assert (Hmap : forall l,
                List.map (deleteCall (contabo.client s1) zone) l
                = List.map (deleteCall (contabo.client s) zone) l).
      { intros l. apply List.map_ext. intros x.
        apply deleteCall_sameSettings. exact Hsame1. }
      destruct (fst (solver.deleteRecords env zone name key rest s1))
        as [e|v] eqn:Hres.
      * destruct Hrest as (pre & r' & post & s2 & Hsplit & Hpre & Hfail & Hcalls).
        exists (r :: pre), r', post, s2.
        split; [rewrite Hselcons, Hsplit; reflexivity|].
        split.
        { rewrite (deleteRecords_cons_selected zone name key r pre s Hsel).
          rewrite Hdel. exact Hpre. }
        split; [exact Hfail|].
        rewrite calls_app, Hok1. simpl.
        destruct Hcalls as [Hc|Hc]; [left|right]; rewrite Hc, Hmap; reflexivity.
      * rewrite calls_app, Hok1, Hrest, Hmap, Hselcons. reflexivity.
Qed.

(** [CleanUp] after a successful setup and list: the loop over the
    records the list returned. *)
Lemma CleanUp_after_list (sv : solver.Solver) (ch : solver.ChallengeRequest)
    (h : list contabo.Event) (c : contabo.Client)
    (records : list contabo.DNSRecord) (s1 : contabo.State) :
  solver.setup env sv ch = inr c ->
  contabo.ListRecords env (normalizeZone (solver.ResolvedZone ch))
    (relativeRecordName (solver.ResolvedFQDN ch) (solver.ResolvedZone ch))
    {| contabo.client := c; contabo.events := h |} = (inr records, s1) ->
  solver.CleanUp env sv ch h =
    let o := solver.deleteRecords env (normalizeZone (solver.ResolvedZone ch))
               (relativeRecordName (solver.ResolvedFQDN ch) (solver.ResolvedZone ch))
               (solver.Key ch) records s1 in
    (fst o, contabo.events (snd o)).
Proof.
  intros Hsetup Hlist. rewrite (CleanUp_run sv ch h c Hsetup). cbv zeta.
  unfold solver.withClient, contabo.bind. rewrite Hlist.
  destruct (solver.deleteRecords env _ _ _ records s1); reflexivity.
Qed.

(** The calls of a whole [CleanUp]: nothing, or the list request with its
    search parameter followed by deletes. *)
Lemma CleanUp_calls (sv : solver.Solver) (ch : solver.ChallengeRequest)
    (h : list contabo.Event) (c : contabo.Client) :
  solver.setup env sv ch = inr c ->
  let zone := normalizeZone (solver.ResolvedZone ch) in
  let name := relativeRecordName (solver.ResolvedFQDN ch) (solver.ResolvedZone ch) in
  let o := solver.CleanUp env sv ch h in
  exists new,
    snd o = (h ++ new)%list
    /\ (calls new = []
        \/ exists l,
             calls new
             = ("GET", contabo.baseURL c +:+ contabo.listEndpoint zone name)
               :: List.map (deleteCall c zone) l).
Proof.
  intros Hsetup. cbv zeta.
  destruct (doJSON_calls "GET"
              (contabo.listEndpoint (normalizeZone (solver.ResolvedZone ch))
                 (relativeRecordName (solver.ResolvedFQDN ch)
                    (solver.ResolvedZone ch)))
              None true {| contabo.client := c; contabo.events := h |})
    as (new1 & Hev1 & Hsame1 & Hreq1 & Hnone1).
  fold (contabo.ListRecords env (normalizeZone (solver.ResolvedZone ch))
          (relativeRecordName (solver.ResolvedFQDN ch) (solver.ResolvedZone ch)))
    in *.
  destruct (contabo.ListRecords env (normalizeZone (solver.ResolvedZone ch))
              (relativeRecordName (solver.ResolvedFQDN ch) (solver.ResolvedZone ch))
              {| contabo.client := c; contabo.events := h |})
    as [[e|records] s1] eqn:Hlist; simpl in *.
  - (* the list fails: nothing more is sent *)
    rewrite (CleanUp_run sv ch h c Hsetup). cbv zeta.
    unfold solver.withClient, contabo.bind. rewrite Hlist. simpl.
    exists new1. split; [exact Hev1|]. unfold calls.
    destruct Hreq1 as [Hreq|Hreq]; rewrite Hreq; simpl;
      [left; reflexivity|right; exists []; reflexivity].
  - rewrite (CleanUp_after_list sv ch h c records s1 Hsetup Hlist). cbv zeta.
    destruct (deleteRecords_trace (normalizeZone (solver.ResolvedZone ch))
                (relativeRecordName (solver.ResolvedFQDN ch) (solver.ResolvedZone ch))
                (solver.Key ch) records s1)
      as (new2 & Hev2 & _ & Hdel).
    simpl. exists (new1 ++ new2)%list.
    split; [rewrite Hev2, Hev1, List.app_assoc; reflexivity|].
    assert (Hmap : forall l,
              List.map (deleteCall (contabo.client s1)
                          (normalizeZone (solver.ResolvedZone ch))) l
              = List.map (deleteCall c (normalizeZone (solver.ResolvedZone ch))) l).
    { intros l. apply List.map_ext. intros x.
      apply deleteCall_sameSettings. exact Hsame1. }
    assert (Hlistcall : calls new1
              = [("GET", contabo.baseURL c
                         +:+ contabo.listEndpoint
                               (normalizeZone (solver.ResolvedZone ch))
                               (relativeRecordName (solver.ResolvedFQDN ch)
                                  (solver.ResolvedZone ch)))]).
    { unfold calls. destruct Hreq1 as [Hreq|Hreq]; [|rewrite Hreq; reflexivity].
      destruct (Hnone1 Hreq) as [e He]. discriminate He. }
    right. rewrite calls_app, Hlistcall. simpl.
    destruct (fst (solver.deleteRecords env _ _ _ records s1)).
    + destruct Hdel as (pre & r & post & s2 & _ & _ & _ & [Hc|Hc]);
        rewrite Hc, Hmap; eexists; reflexivity.
    + rewrite Hdel, Hmap. eexists. reflexivity.
Qed.

(** *** Stopping at a failed token request *)







End SolverFacts.

(** C5.  For a challenge whose configuration and credentials load,
    [Present] sends to the record API nothing but the create of the
    record (relative name, type TXT, the configured TTL or 120, priority
    0, the key as data): one create at most, no list or other request
    before it, and it fails when it sends none.  So two calls of
    [Present] for one challenge that both succeed have sent two creates
    of the same record. *)
Theorem Present_creates_without_check (env : contabo.Env)
    (sv : solver.Solver) (ch : solver.ChallengeRequest)
    (h : list contabo.Event) (cfg : Config) (c : contabo.Client) :
  solver.loadConfig env (solver.ch_Config ch) = inr cfg ->
  solver.setup env sv ch = inr c ->
  let create := fun token =>
    recordRequest c token "POST"
      (contabo.recordsPath (normalizeZone (solver.ResolvedZone ch)))
      (contabo.JSONBody
         {| contabo.req_Name :=
              relativeRecordName (solver.ResolvedFQDN ch) (solver.ResolvedZone ch);
            contabo.req_Type := "TXT";
            contabo.req_TTL := if TTL cfg <=? 0 then 120 else TTL cfg;
            contabo.req_Prio := 0;
            contabo.req_Data := solver.Key ch |}) in
  let o1 := solver.Present env sv ch h in
  let o2 := solver.Present env sv ch (snd o1) in
  (exists new,
     snd o1 = (h ++ new)%list
     /\ (recordRequests new = [] \/ exists token, recordRequests new = [create token])
     /\ (recordRequests new = [] -> exists e, fst o1 = inl e))
  /\ (fst o1 = inr tt -> fst o2 = inr tt ->
      exists new token1 token2,
        snd o2 = (h ++ new)%list
        /\ recordRequests new = [create token1; create token2]).
Proof.
  intros Hcfg Hsetup. cbv zeta.
  pose proof (Present_once env sv ch h cfg c Hcfg Hsetup) as H1.
  pose proof (Present_once env sv ch (snd (solver.Present env sv ch h)) cfg c
                Hcfg Hsetup) as H2.
  cbv zeta in H1, H2. split; [exact H1|].
  intros Hok1 Hok2.
  destruct H1 as (new1 & Hev1 & Hreq1 & Hnone1).
  destruct H2 as (new2 & Hev2 & Hreq2 & Hnone2).
  destruct Hreq1 as [Hnil|[token1 Hreq1]].
  { destruct (Hnone1 Hnil) as [e He]. rewrite He in Hok1. discriminate. }
  destruct Hreq2 as [Hnil|[token2 Hreq2]].
  { destruct (Hnone2 Hnil) as [e He]. rewrite He in Hok2. discriminate. }
  exists (new1 ++ new2)%list, token1, token2. split.
  - rewrite Hev2, Hev1, List.app_assoc. reflexivity.
  - rewrite recordRequests_app, Hreq1, Hreq2. reflexivity.
Qed.

(** The test of the repository: in the concrete world two calls of
    [Present] succeed and leave two creates in the history. *)
Lemma Present_creates_without_check_witness :
  let env := Scenario.world 200 3600 in
  let o1 := solver.Present env Scenario.the_solver Scenario.challenge [] in
  let o2 := solver.Present env Scenario.the_solver Scenario.challenge (snd o1) in
  exists new token1 token2,
    snd o2 = ([] ++ new)%list
    /\ List.map contabo.ReqBody (recordRequests new)
       = List.map contabo.ReqBody
           [recordRequest Scenario.the_client token1 "POST"
              "/v1/dns/zones/example.com/records"
              (contabo.JSONBody
                 {| contabo.req_Name := "_acme-challenge";
                    contabo.req_Type := "TXT"; contabo.req_TTL := 120;
                    contabo.req_Prio := 0; contabo.req_Data := "key" |});
            recordRequest Scenario.the_client token2 "POST"
              "/v1/dns/zones/example.com/records"
              (contabo.JSONBody
                 {| contabo.req_Name := "_acme-challenge";
                    contabo.req_Type := "TXT"; contabo.req_TTL := 120;
                    contabo.req_Prio := 0; contabo.req_Data := "key" |})].
Proof.
  destruct (proj2 (Present_creates_without_check (Scenario.world 200 3600)
                     Scenario.the_solver Scenario.challenge []
                     Scenario.the_config Scenario.the_client
                     eq_refl eq_refl) eq_refl eq_refl)
    as (new & token1 & token2 & Hev & Hreq).
  exists new, token1, token2. split; [exact Hev|].
  rewrite Hreq. reflexivity.
Defined.

(** ** Cleaning up *)

(** C1.  A record of the candidate list is selected for deletion exactly
    when its type is TXT up to case, its name is the name looked for and
    the key is empty or equal to its data. *)
Theorem selected_iff (name key : string) (records : list contabo.DNSRecord)
    (r : contabo.DNSRecord) :
  (solver.isACMERecord r name key = true
   <-> equalIgnoringCase (contabo.Type_ r) "TXT"
       /\ contabo.Name r = name
       /\ (key = "" \/ contabo.Data r = key))
  /\ (In r (selected name key records)
      <-> In r records
          /\ equalIgnoringCase (contabo.Type_ r) "TXT"
          /\ contabo.Name r = name
          /\ (key = "" \/ contabo.Data r = key)).
Proof.
  assert (Hiff : solver.isACMERecord r name key = true
                 <-> equalIgnoringCase (contabo.Type_ r) "TXT"
                     /\ contabo.Name r = name
                     /\ (key = "" \/ contabo.Data r = key)).
  { rewrite isACMERecord_true, EqualFold_TXT. reflexivity. }
  split; [exact Hiff|].
  unfold selected. rewrite List.filter_In, Hiff. reflexivity.
Qed.


(** [CleanUp] without a key in the concrete world: the three records are
    selected, the delete of 99 succeeds, the delete of 100 is answered by
    404 and [CleanUp] stops there; 101 is not touched. *)
Example CleanUp_stops_at_first_error :
  let o := solver.CleanUp (Scenario.world 200 3600) Scenario.the_solver
             Scenario.challenge_nokey [] in
  fst o = inl (ErrAPI "record not found")
  /\ calls (snd o)
     = [("GET", "http://127.0.0.1/v1/dns/zones/example.com/records?search=_acme-challenge");
        ("DELETE", "http://127.0.0.1/v1/dns/zones/example.com/records/99");
        ("DELETE", "http://127.0.0.1/v1/dns/zones/example.com/records/100")].
Proof. split; reflexivity. Qed.

(** The test of the repository: with the key, only record 99 goes. *)
Example CleanUp_selective :
  let o := solver.CleanUp (Scenario.world 200 3600) Scenario.the_solver
             Scenario.challenge [] in
  fst o = inr tt
  /\ calls (snd o)
     = [("GET", "http://127.0.0.1/v1/dns/zones/example.com/records?search=_acme-challenge");
        ("DELETE", "http://127.0.0.1/v1/dns/zones/example.com/records/99")].
Proof. split; reflexivity. Qed.


(** C9.  [relativeRecordName] never returns the empty string, so the
    endpoint [ListRecords] builds for it carries the search parameter,
    and every list request of [CleanUp] goes to that URL. *)
Theorem list_filter_never_empty (env : contabo.Env) (sv : solver.Solver)
    (ch : solver.ChallengeRequest) (h : list contabo.Event)
    (c : contabo.Client) :
  let zone := normalizeZone (solver.ResolvedZone ch) in
  let name := relativeRecordName (solver.ResolvedFQDN ch) (solver.ResolvedZone ch) in
  name <> ""
  /\ contabo.listEndpoint zone name
     = contabo.recordsPath zone +:+ "?search=" +:+ url.QueryEscape name
  /\ (solver.setup env sv ch = inr c ->
      exists new,
        snd (solver.CleanUp env sv ch h) = (h ++ new)%list
        /\ forall method target,
             In (method, target) (calls new) ->
             method = "GET" ->
             target = contabo.baseURL c +:+ contabo.recordsPath zone
                      +:+ "?search=" +:+ url.QueryEscape name).
Proof.
  cbv zeta.
  pose proof (relativeRecordName_nonempty (solver.ResolvedFQDN ch)
                (solver.ResolvedZone ch)) as Hne.
  assert (Hend : contabo.listEndpoint (normalizeZone (solver.ResolvedZone ch))
                   (relativeRecordName (solver.ResolvedFQDN ch)
                      (solver.ResolvedZone ch))
                 = contabo.recordsPath (normalizeZone (solver.ResolvedZone ch))
                   +:+ "?search="
                   +:+ url.QueryEscape
                         (relativeRecordName (solver.ResolvedFQDN ch)
                            (solver.ResolvedZone ch))).
  { unfold contabo.listEndpoint.
    destruct (String.eqb_spec
                (relativeRecordName (solver.ResolvedFQDN ch)
                   (solver.ResolvedZone ch)) "") as [Habs|_];
      [contradiction|reflexivity]. }
  split; [exact Hne|]. split; [exact Hend|].
  intros Hsetup.
  destruct (CleanUp_calls env sv ch h c Hsetup) as (new & Hev & Hcalls).
  exists new. split; [exact Hev|].
  intros method target Hin Hget.
  destruct Hcalls as [Hnil|[l Hcalls]].
  - rewrite Hnil in Hin. contradiction.
  - rewrite Hcalls in Hin. destruct Hin as [Heq|Hin].
    + injection Heq as _ <-. rewrite Hend. reflexivity.
    + exfalso. apply List.in_map_iff in Hin as [r [Heq _]].
      unfold deleteCall in Heq. injection Heq as Hm _. subst method.
      discriminate Hget.
Qed.

Lemma list_filter_never_empty_witness :
  let env := Scenario.world 200 3600 in
  exists new,
    snd (solver.CleanUp env Scenario.the_solver Scenario.challenge [])
    = ([] ++ new)%list
    /\ forall method target,
         In (method, target) (calls new) ->
         method = "GET" ->
         target = "http://127.0.0.1/v1/dns/zones/example.com/records?search=_acme-challenge".
Proof.
  apply (proj2 (proj2 (list_filter_never_empty (Scenario.world 200 3600)
                         Scenario.the_solver Scenario.challenge []
                         Scenario.the_client))).
  reflexivity.
Defined.

(** ** White space and credentials *)

Section WhiteSpace.

Ltac sapp := repeat (rewrite sapp_cons || rewrite sapp_nil_l).

Ltac split_ifs :=
  repeat match goal with
    | |- context [if ?b then _ else _] => destruct b eqn:?
    | H : context [if ?b then _ else _] |- _ => destruct b eqn:?
    end.

Lemma rev_app (s t : string) :
  strings.rev (s +:+ t) = strings.rev t +:+ strings.rev s.
Proof.
  induction s as [|c s IH]; sapp; simpl.
  - rewrite sapp_nil_r. reflexivity.
  - rewrite IH, sapp_assoc. reflexivity.
Qed.

Lemma rev_involutive (s : string) : strings.rev (strings.rev s) = s.
Proof.
  induction s as [|c s IH]; [reflexivity|].
  simpl. rewrite rev_app, IH. reflexivity.
Qed.

Lemma rev_empty (s : string) : strings.rev s = "" -> s = "".
Proof.
  intros H. rewrite <- (rev_involutive s), H. reflexivity.
Qed.

Lemma length_rev (s : string) :
  String.length (strings.rev s) = String.length s.
Proof.
  induction s as [|c s IH]; [reflexivity|].
  simpl. rewrite slength_app, IH. simpl. lia.
Qed.

Lemma drop_app (w s : string) : strings.drop (String.length w) (w +:+ s) = s.
Proof. induction w as [|c w IH]; sapp; simpl; [destruct s; reflexivity|exact IH]. Qed.

Lemma length_drop (n : nat) (s : string) :
  String.length (strings.drop n s) = (String.length s - n)%nat.
Proof.
  revert s. induction n as [|n IH]; intros [|c s]; simpl; auto.
Qed.

(** A measured prefix: when [spaceLen s] is not zero, [s] starts with
    that many bytes and they form one white-space rune. *)
Lemma spaceLen_prefix (s : string) (k : nat) :
  strings.spaceLen s = S k ->
  exists w rest, s = w +:+ rest /\ String.length w = S k /\ isSpaceRune w.
Proof.
  unfold isSpaceRune.
  destruct s as [|c0 s]; [discriminate|]. simpl.
  destruct (strings.asciiSpace c0) eqn:H0.
  { intros H. injection H as <-. exists (String c0 ""), s. sapp.
    repeat split; [discriminate|]. simpl. rewrite H0. reflexivity. }
  destruct s as [|c1 s]; [discriminate|].
  match goal with |- context [if ?b then _ else _] => destruct b eqn:H1 end.
  { intros H. injection H as <-. exists (String c0 (String c1 "")), s. sapp.
    repeat split; [discriminate|]. simpl. rewrite H0, H1. reflexivity. }
  destruct s as [|c2 s]; [discriminate|].
  match goal with |- context [if ?b then _ else _] => destruct b eqn:H2 end;
    [|discriminate].
  intros H. injection H as <-.
  exists (String c0 (String c1 (String c2 ""))), s. sapp.
  repeat split; [discriminate|]. simpl. rewrite H0, H1, H2. reflexivity.
Qed.

Lemma spaceLen_le_3 (s : string) : (strings.spaceLen s <= 3)%nat.
Proof.
  destruct s as [|c0 [|c1 [|c2 s]]]; simpl; split_ifs; lia.
Qed.

(** ... and a white-space rune at the front of a string is measured
    whatever follows it. *)
Lemma spaceLen_app (w r : string) :
  isSpaceRune w -> strings.spaceLen (w +:+ r) = String.length w.
Proof.
  intros [Hne Hlen]. pose proof (spaceLen_le_3 w) as Hle.
  destruct w as [|c0 [|c1 [|c2 [|c3 w]]]]; [contradiction| | | |];
    sapp; simpl in *; split_ifs; try reflexivity; try lia; try discriminate.
Qed.

(** The same for the measure at the end of the string. *)
Lemma spaceLenRev_prefix (r : string) (k : nat) :
  strings.spaceLenRev r = S k ->
  exists q rest, r = q +:+ rest /\ String.length q = S k /\ isSpaceRuneRev q.
Proof.
  unfold isSpaceRuneRev.
  destruct r as [|c0 r]; [discriminate|]. simpl.
  destruct (strings.asciiSpace c0) eqn:H0.
  { intros H. injection H as <-. exists (String c0 ""), r. sapp.
    repeat split; [discriminate|]. simpl. rewrite H0. reflexivity. }
  destruct r as [|c1 r]; [discriminate|].
  match goal with |- context [if ?b then _ else _] => destruct b eqn:H1 end.
  { intros H. injection H as <-. exists (String c0 (String c1 "")), r. sapp.
    repeat split; [discriminate|]. simpl. rewrite H0, H1. reflexivity. }
  destruct r as [|c2 r]; [discriminate|].
  match goal with |- context [if ?b then _ else _] => destruct b eqn:H2 end;
    [|discriminate].
  intros H. injection H as <-.
  exists (String c0 (String c1 (String c2 ""))), r. sapp.
  repeat split; [discriminate|]. simpl. rewrite H0, H1, H2. reflexivity.
Qed.

Lemma spaceLenRev_le_3 (r : string) : (strings.spaceLenRev r <= 3)%nat.
Proof.
  destruct r as [|c0 [|c1 [|c2 r]]]; unfold strings.spaceLenRev;
    split_ifs; lia.
Qed.

(** A rune found at the end, turned round, is a rune at the front. *)
Lemma isSpaceRuneRev_rev (q : string) :
  isSpaceRuneRev q -> isSpaceRune (strings.rev q).
Proof.
  intros [Hne Hlen]. pose proof (spaceLenRev_le_3 q) as Hle.
  unfold isSpaceRune.
  destruct q as [|c0 [|c1 [|c2 [|c3 q]]]]; [contradiction| | | |].
  - cbv [strings.rev String.append]. split; [discriminate|].
    simpl in *. destruct (strings.asciiSpace c0); [reflexivity|discriminate].
  - cbv [strings.rev String.append]. split; [discriminate|].
    unfold strings.spaceLenRev in Hlen.
    destruct (strings.asciiSpace c0); [discriminate|].
    destruct (strings.spaceLen (String c1 (String c0 "")) =? 2)%nat eqn:H2;
      [|discriminate].
    apply Nat.eqb_eq in H2. exact H2.
  - cbv [strings.rev String.append]. split; [discriminate|].
    unfold strings.spaceLenRev in Hlen.
    destruct (strings.asciiSpace c0); [discriminate|].
    destruct (strings.spaceLen (String c1 (String c0 "")) =? 2)%nat;
      [discriminate|].
    destruct (strings.spaceLen (String c2 (String c1 (String c0 ""))) =? 3)%nat
      eqn:H3; [|discriminate].
    apply Nat.eqb_eq in H3. exact H3.
  - rewrite Hlen in Hle. simpl in Hle. lia.
Qed.

(** The stripping loop, for any measure [len] that finds runes of [P]
    at the front of a string. *)
Section Stripping.

Context (len : string -> nat) (P : string -> Prop).
Context (len_nil : len "" = 0%nat).
Context (len_prefix : forall s k, len s = S k ->
           exists w rest, s = w +:+ rest /\ String.length w = S k /\ P w).

Lemma strip_drop (s : string) (k : nat) :
  len s = S k ->
  exists w, P w /\ String.length w = S k /\ s = w +:+ strings.drop (S k) s.
Proof.
  intros H. destruct (len_prefix s k H) as (w & rest & -> & Hlen & HP).
  exists w. rewrite <- Hlen, drop_app. auto.
Qed.

Lemma strip_empty_concat (fuel : nat) :
  forall s, (String.length s <= fuel)%nat ->
    strings.trimLeftFuel len fuel s = "" -> Concat P s.
Proof.
  induction fuel as [|fuel IH]; intros s Hfuel; cbn [strings.trimLeftFuel].
  - intros ->. constructor.
  - destruct (len s) as [|k] eqn:Hlen.
    + intros ->. constructor.
    + destruct (strip_drop s k Hlen) as (w & HP & Hw & Hs).
      intros Hrest. rewrite Hs. constructor; [exact HP|].
      apply IH; [|exact Hrest].
      rewrite length_drop. lia.
Qed.

Lemma strip_unmeasured (fuel : nat) :
  forall s, (String.length s <= fuel)%nat ->
    len (strings.trimLeftFuel len fuel s) = 0%nat.
Proof.
  induction fuel as [|fuel IH]; intros s Hfuel; cbn [strings.trimLeftFuel].
  - destruct s; [exact len_nil|simpl in Hfuel; lia].
  - destruct (len s) as [|k] eqn:Hlen; [exact Hlen|].
    apply IH. rewrite length_drop.
    destruct (strip_drop s k Hlen) as (w & _ & Hw & Hs).
    apply (f_equal String.length) in Hs. rewrite slength_app in Hs. lia.
Qed.

Lemma strip_split (fuel : nat) :
  forall s, exists l, Concat P l /\ s = l +:+ strings.trimLeftFuel len fuel s.
Proof.
  induction fuel as [|fuel IH]; intros s; cbn [strings.trimLeftFuel].
  - exists "". split; [constructor|reflexivity].
  - destruct (len s) as [|k] eqn:Hlen.
    + exists "". split; [constructor|reflexivity].
    + destruct (strip_drop s k Hlen) as (w & HP & Hw & Hs).
      destruct (IH (strings.drop (S k) s)) as (l & Hl & Hrest).
      exists (w +:+ l). split; [constructor; assumption|].
      rewrite sapp_assoc, <- Hrest. exact Hs.
Qed.

Context (P_nonempty : forall w, P w -> w <> "").
Context (len_app : forall w r, P w -> len (w +:+ r) = String.length w).

Lemma concat_strip_empty (s : string) :
  Concat P s ->
  forall fuel, (String.length s <= fuel)%nat ->
    strings.trimLeftFuel len fuel s = "".
Proof.
  induction 1 as [|w s HP Hs IH]; intros fuel Hfuel.
  - destruct fuel; cbn [strings.trimLeftFuel]; [reflexivity|]. rewrite len_nil. reflexivity.
  - rewrite slength_app in Hfuel.
    assert (String.length w <> 0%nat) as Hw.
    { intros H0. apply length_zero in H0. exact (P_nonempty w HP H0). }
    destruct fuel as [|fuel]; [lia|]. cbn [strings.trimLeftFuel].
    rewrite (len_app w s HP).
    destruct (String.length w) as [|k] eqn:Hk; [contradiction|].
    rewrite <- Hk, drop_app. apply IH. lia.
Qed.

Lemma concat_last (s : string) :
  Concat P s -> s <> "" -> exists s' q, s = s' +:+ q /\ P q.
Proof.
  induction 1 as [|w s HP Hs IH]; intros Hne; [contradiction|].
  destruct s as [|c s].
  - exists "", w. rewrite sapp_nil_r, sapp_nil_l. auto.
  - destruct IH as (s' & q & Hs' & Hq); [discriminate|].
    exists (w +:+ s'), q. rewrite Hs', sapp_assoc. auto.
Qed.

End Stripping.

Lemma Concat_snoc (P : string -> Prop) (s w : string) :
  Concat P s -> P w -> Concat P (s +:+ w).
Proof.
  induction 1 as [|v s Hv Hs IH]; intros Hw.
  - rewrite sapp_nil_l, <- (sapp_nil_r w). constructor; [exact Hw|constructor].
  - rewrite sapp_assoc. constructor; [exact Hv|apply IH, Hw].
Qed.

(** White space read backwards is white space. *)
Lemma Concat_rev (l : string) :
  Concat isSpaceRuneRev l -> OnlySpace (strings.rev l).
Proof.
  induction 1 as [|q l Hq Hl IH]; [constructor|].
  rewrite rev_app. apply Concat_snoc; [exact IH|].
  apply isSpaceRuneRev_rev, Hq.
Qed.

Lemma isSpaceRune_nonempty (w : string) : isSpaceRune w -> w <> "".
Proof. intros [H _]. exact H. Qed.

(** [TrimLeftSpace] leaves nothing exactly of the strings that are white
    space and nothing else. *)
Lemma TrimLeftSpace_empty_iff (s : string) :
  strings.TrimLeftSpace s = "" <-> OnlySpace s.
Proof.
  unfold strings.TrimLeftSpace, OnlySpace. split.
  - apply (strip_empty_concat strings.spaceLen isSpaceRune eq_refl
             spaceLen_prefix).
    lia.
  - intros H.
    apply (concat_strip_empty strings.spaceLen isSpaceRune eq_refl
             isSpaceRune_nonempty spaceLen_app s H).
    lia.
Qed.

(** What [TrimLeftSpace] returns does not start with white space, so
    trimming it at the end cannot use it up unless it is empty. *)
Lemma TrimRightSpace_empty (t : string) :
  strings.spaceLen t = 0%nat -> strings.TrimRightSpace t = "" -> t = "".
Proof.
  unfold strings.TrimRightSpace. intros Hfront Hright.
  apply rev_empty in Hright.
  apply (strip_empty_concat strings.spaceLenRev isSpaceRuneRev eq_refl
           spaceLenRev_prefix) in Hright; [|rewrite length_rev; lia].
  destruct t as [|c t]; [reflexivity|exfalso].
  destruct (concat_last isSpaceRuneRev (strings.rev (String c t)) Hright)
    as (r' & q & Hsplit & Hq).
  { intros H. apply rev_empty in H. discriminate H. }
  apply (f_equal strings.rev) in Hsplit.
  rewrite rev_involutive, rev_app in Hsplit.
  apply isSpaceRuneRev_rev in Hq.
  pose proof (spaceLen_app (strings.rev q) (strings.rev r') Hq) as Hlen.
  rewrite <- Hsplit, Hfront in Hlen.
  destruct Hq as [Hne _]. symmetry in Hlen. apply length_zero in Hlen.
  contradiction.
Qed.

Lemma TrimSpace_empty_iff (s : string) :
  strings.TrimSpace s = "" <-> OnlySpace s.
Proof.
  rewrite <- TrimLeftSpace_empty_iff. unfold strings.TrimSpace. split.
  - apply TrimRightSpace_empty.
    apply (strip_unmeasured strings.spaceLen isSpaceRune eq_refl
             spaceLen_prefix).
    lia.
  - intros ->. reflexivity.
Qed.

(** [TrimSpace] cuts white space only, and all of it, at both ends. *)
Lemma TrimSpace_trimmedOf (s : string) : trimmedOf s (strings.TrimSpace s).
Proof.
  unfold trimmedOf, strings.TrimSpace.
  set (t := strings.TrimLeftSpace s).
  assert (Hfront : strings.spaceLen t = 0%nat).
  { apply (strip_unmeasured strings.spaceLen isSpaceRune eq_refl
             spaceLen_prefix). lia. }
  destruct (strip_split strings.spaceLen isSpaceRune spaceLen_prefix
              (String.length s) s) as (l & Hl & Hs).
  fold (strings.TrimLeftSpace s) in Hs. fold t in Hs.
  destruct (strip_split strings.spaceLenRev isSpaceRuneRev spaceLenRev_prefix
              (String.length t) (strings.rev t)) as (q & Hq & Ht).
  apply (f_equal strings.rev) in Ht.
  rewrite rev_involutive, rev_app in Ht.
  fold (strings.TrimRightSpace t) in Ht.
  split; [|split].
  - exists l, (strings.rev q). split; [|split].
    + rewrite <- Ht. exact Hs.
    + exact Hl.
    + apply Concat_rev, Hq.
  - destruct (strings.spaceLen (strings.TrimRightSpace t)) as [|k] eqn:Hk;
      [reflexivity|exfalso].
    destruct (spaceLen_prefix _ _ Hk) as (w & rest & Hw & Hlen & Hrune).
    rewrite Hw, sapp_assoc in Ht.
    pose proof (spaceLen_app w (rest +:+ strings.rev q) Hrune) as Happ.
    rewrite <- Ht, Hfront in Happ. lia.
  - unfold strings.TrimRightSpace. rewrite rev_involutive.
    apply (strip_unmeasured strings.spaceLenRev isSpaceRuneRev eq_refl
             spaceLenRev_prefix).
    rewrite length_rev. lia.
Qed.

End WhiteSpace.

Lemma blank_iff (data : gmap string string) (k : string) :
  strings.TrimSpace (solver.index data k) = "" <-> blank data k.
Proof.
  rewrite TrimSpace_empty_iff. unfold solver.index, blank.
  destruct (data !! k) as [v|]; simpl.
  - split; [intros H; right; eauto|].
    intros [H|[v' [H Hv]]]; [discriminate H|].
    injection H as <-. exact Hv.
  - split; [auto|]. intros _. constructor.
Qed.

(** C10.  [credentialsFromSecret] returns the four values with their
    leading and trailing white space removed (nothing but white space is
    cut, and none is left at either end), and it returns an error
    exactly when one of the four keys is missing or holds white space
    only.  When it does, [Present] and [CleanUp] return that error
    before a client exists: the setup fails and the history of requests
    is unchanged. *)
Theorem credentialsFromSecret_checks (secret : solver.Secret) :
  let data := solver.SecretData secret in
  (forall creds,
     solver.credentialsFromSecret secret = inr creds ->
     trimmedOf (solver.index data "clientId") (solver.clientID creds)
     /\ trimmedOf (solver.index data "clientSecret") (solver.clientSecret creds)
     /\ trimmedOf (solver.index data "username") (solver.username creds)
     /\ trimmedOf (solver.index data "password") (solver.password creds))
  /\ ((exists e, solver.credentialsFromSecret secret = inl e)
      <-> exists k,
            In k ["clientId"; "clientSecret"; "username"; "password"]
            /\ blank data k)
  /\ (forall env sv ch h cfg kube e,
        solver.loadConfig env (solver.ch_Config ch) = inr cfg ->
        solver.client sv = Some kube ->
        secretNamespace cfg ch <> "" ->
        kube (secretNamespace cfg ch) (CredentialsSecretName cfg) = Some secret ->
        solver.credentialsFromSecret secret = inl e ->
        solver.setup env sv ch = inl e
        /\ solver.Present env sv ch h = (inl e, h)
        /\ solver.CleanUp env sv ch h = (inl e, h)).
Proof.
  cbv zeta. split; [|split].
  - intros creds. unfold solver.credentialsFromSecret.
    destruct (_ || _ || _ || _); [discriminate|].
    intros H. injection H as <-. simpl.
    repeat split; apply TrimSpace_trimmedOf.
  - pose proof (blank_iff (solver.SecretData secret) "clientId") as H1.
    pose proof (blank_iff (solver.SecretData secret) "clientSecret") as H2.
    pose proof (blank_iff (solver.SecretData secret) "username") as H3.
    pose proof (blank_iff (solver.SecretData secret) "password") as H4.
    unfold solver.credentialsFromSecret, solver.secretKeyClientID,
      solver.secretKeyClientSecret, solver.secretKeyUsername,
      solver.secretKeyPassword.
    destruct (String.eqb_spec
                (strings.TrimSpace (solver.index (solver.SecretData secret) "clientId")) "")
      as [E1|E1];
    destruct (String.eqb_spec
                (strings.TrimSpace (solver.index (solver.SecretData secret) "clientSecret")) "")
      as [E2|E2];
    destruct (String.eqb_spec
                (strings.TrimSpace (solver.index (solver.SecretData secret) "username")) "")
      as [E3|E3];
    destruct (String.eqb_spec
                (strings.TrimSpace (solver.index (solver.SecretData secret) "password")) "")
      as [E4|E4]; simpl.
    all: split;
      [ intros Hex;
        first [ exists "clientId"; split; [simpl; tauto|apply H1; assumption]
              | exists "clientSecret"; split; [simpl; tauto|apply H2; assumption]
              | exists "username"; split; [simpl; tauto|apply H3; assumption]
              | exists "password"; split; [simpl; tauto|apply H4; assumption]
              | destruct Hex as [e He]; discriminate He ]
      | intros [k [Hk Hblank]];
        first [ eexists; reflexivity
              | exfalso; simpl in Hk;
                destruct Hk as [<-|[<-|[<-|[<-|[]]]]];
                [apply H1 in Hblank|apply H2 in Hblank
                |apply H3 in Hblank|apply H4 in Hblank]; contradiction ] ].
  - intros env sv ch h cfg kube e Hcfg Hkube Hns Hget Hcreds.
    assert (Hsetup : solver.setup env sv ch = inl e).
    { unfold solver.setup. rewrite Hcfg.
      unfold solver.loadCredentials. rewrite Hkube.
      fold (secretNamespace cfg ch).
      destruct (String.eqb_spec (secretNamespace cfg ch) "") as [Habs|_];
        [contradiction|].
      rewrite Hget, Hcreds. reflexivity. }
    split; [exact Hsetup|]. split.
    + apply Present_setup_error. exact Hsetup.
    + apply CleanUp_setup_error. exact Hsetup.
Qed.

Lemma credentialsFromSecret_checks_witness :
  let env := Scenario.world 200 3600 in
  let e := ErrSecretKeys "tenant-ns" "contabo-credentials" in
  solver.setup env Scenario.bad_solver Scenario.challenge = inl e
  /\ solver.Present env Scenario.bad_solver Scenario.challenge [] = (inl e, [])
  /\ solver.CleanUp env Scenario.bad_solver Scenario.challenge [] = (inl e, []).
Proof.
  apply (proj2 (proj2 (credentialsFromSecret_checks Scenario.bad_secret))
           (Scenario.world 200 3600) Scenario.bad_solver Scenario.challenge []
           Scenario.the_config (fun _ _ => Some Scenario.bad_secret)).
  - reflexivity.
  - reflexivity.
  - discriminate.
  - reflexivity.
  - reflexivity.
Defined.

(** ** Witnesses for the client *)

(** The delete of record 100 is answered by 404 with a message in the
    body: the call returns the message. *)
Lemma api_error_detail_witness :
  let o := contabo.doJSON (Scenario.world 200 3600) "DELETE"
             "/v1/dns/zones/example.com/records/100" None false Scenario.start in
  fst o = inl (ErrAPI "record not found").
Proof.
  cbv zeta.
  destruct (api_error_detail (Scenario.world 200 3600) "DELETE"
              "/v1/dns/zones/example.com/records/100" None false Scenario.start)
    as (new & Hev & Hdetail).
  simpl in Hev. subst new.
  apply (Hdetail
           (recordRequest Scenario.the_client "token123" "DELETE"
              "/v1/dns/zones/example.com/records/100" contabo.NoBody)
           {| contabo.StatusCode := 404; contabo.Status := "404 Not Found";
              contabo.RespBody := "gone" |}).
  - right. right. left. reflexivity.
  - reflexivity.
  - simpl. lia.
  - discriminate.
Defined.

(** ** The name resolver, claim by claim *)

(** C7, amended.  [normalizeZone] strips exactly one trailing dot when
    there is one and leaves other strings alone; applying it twice gives
    the same as applying it once exactly on the strings that do not end
    with two dots. *)
Theorem normalizeZone_strips_one_dot (z : string) :
  (forall p, z = p +:+ "." -> normalizeZone z = p)
  /\ (strings.HasSuffix z "." = false -> normalizeZone z = z)
  /\ (normalizeZone (normalizeZone z) = normalizeZone z
      <-> strings.HasSuffix z ".." = false).
Proof.
  split; [|split].
  - intros p ->. apply TrimSuffix_app.
  - apply TrimSuffix_none.
  - apply normalizeZone_idempotent_iff.
Qed.

Lemma normalizeZone_strips_one_dot_witness :
  normalizeZone "example.com." = "example.com"
  /\ normalizeZone "example.com" = "example.com".
Proof.
  split.
  - apply (proj1 (normalizeZone_strips_one_dot "example.com.") "example.com").
    reflexivity.
  - apply (proj1 (proj2 (normalizeZone_strips_one_dot "example.com"))).
    reflexivity.
Defined.

(** C7 as stated fails on a zone with two trailing dots. *)
Lemma normalizeZone_not_idempotent :
  normalizeZone "example.com.." = "example.com."
  /\ normalizeZone (normalizeZone "example.com..") = "example.com"
  /\ normalizeZone (normalizeZone "example.com..") <> normalizeZone "example.com..".
Proof. repeat split. discriminate. Qed.

(** C3 fails on the code.  For a zone [z] that is not empty and does not
    end with a dot, the name of the zone itself, with or without the
    trailing dot on either argument, resolves to [z] and not to the
    sentinel: [relativeRecordName] looks for the suffix ["." ++ z], which
    is longer than the name. *)
Theorem relativeRecordName_apex (z : string) :
  z <> "" ->
  strings.HasSuffix z "." = false ->
  relativeRecordName z z = z
  /\ relativeRecordName (z +:+ ".") (z +:+ ".") = z
  /\ relativeRecordName z (z +:+ ".") = z
  /\ relativeRecordName (z +:+ ".") z = z.
Proof.
  intros Hne Hdot.
  assert (Hcore : strings.TrimSuffix
                    (strings.TrimSuffix z ("." +:+ z)) "." = z).
  { assert (strings.HasSuffix z ("." +:+ z) = false) as Hno.
    { destruct (strings.HasSuffix z ("." +:+ z)) eqn:H; [|reflexivity].
      apply HasSuffix_iff in H as [p Hp].
      apply (f_equal String.length) in Hp.
      rewrite !slength_app in Hp. simpl in Hp. lia. }
    rewrite (TrimSuffix_none _ _ Hno). apply TrimSuffix_none, Hdot. }
  assert (Hz : String.eqb z "" = false) by (apply String.eqb_neq; exact Hne).
  unfold relativeRecordName.
  rewrite !TrimSuffix_app, !(TrimSuffix_none z "." Hdot), Hcore, Hz.
  auto.
Qed.

(** The inputs of [TestRelativeRecordNameRoot], which expects ["@"]. *)
Lemma relativeRecordName_apex_witness :
  relativeRecordName "example.com." "example.com." = "example.com"
  /\ relativeRecordName "example.com" "example.com." = "example.com".
Proof.
  destruct (relativeRecordName_apex "example.com") as (_ & H1 & H2 & _).
  - discriminate.
  - reflexivity.
  - split; [exact H1|exact H2].
Defined.

(** ** A failed token request *)



(** A token that is stale at the first delete: the list has been sent,
    the refresh before the delete is refused, and [CleanUp] returns the
    error of the token request with no delete sent. *)
Example CleanUp_refresh_refused :
  let o := solver.CleanUp Scenario.short_lived Scenario.the_solver
             Scenario.challenge [] in
  fst o = inl (ErrTokenStatus "401 Unauthorized")
  /\ calls (snd o)
     = [("GET", "http://127.0.0.1/v1/dns/zones/example.com/records?search=_acme-challenge")]
  /\ List.length (tokenRequests (snd o)) = 2%nat.
Proof. repeat split. Qed.

(** * Further properties *)

(** ** Names under the zone *)

(** Whether a string ends with a dot depends on its last part only. *)
Lemma HasSuffix_dot_app (s t : string) :
  t <> "" -> strings.HasSuffix (s +:+ t) "." = strings.HasSuffix t ".".
Proof.
  intros Ht.
  assert (Hend : forall s p, s +:+ t = p +:+ "." -> exists q, t = q +:+ ".").
  { clear s. induction s as [|c s IH]; intros p H.
    - exists p. exact H.
    - destruct p as [|d p].
      + rewrite sapp_cons, sapp_nil_l in H. injection H as _ H.
        destruct s; [|discriminate H]. rewrite sapp_nil_l in H. contradiction.
      + rewrite !sapp_cons in H. injection H as _ H. exact (IH p H). }
  destruct (strings.HasSuffix t ".") eqn:H.
  - apply HasSuffix_iff in H as [q ->]. apply HasSuffix_iff.
    exists (s +:+ q). symmetry. apply sapp_assoc.
  - destruct (strings.HasSuffix (s +:+ t) ".") eqn:H'; [|reflexivity].
    apply HasSuffix_iff in H' as [p Hp]. apply Hend in Hp.
    apply HasSuffix_iff in Hp. congruence.
Qed.

(** X1.  The name of a record under its zone.  For a zone written without a
    final dot and a non-empty name that does not end with a dot, the
    FQDN [name.zone] resolves to [name], whether or not the FQDN and the
    zone are given with the final dot. *)
Theorem relativeRecordName_under_zone (name zone : string) :
  name <> "" ->
  strings.HasSuffix name "." = false ->
  strings.HasSuffix zone "." = false ->
  relativeRecordName (name +:+ "." +:+ zone) zone = name
  /\ relativeRecordName (name +:+ "." +:+ zone +:+ ".") zone = name
  /\ relativeRecordName (name +:+ "." +:+ zone) (zone +:+ ".") = name
  /\ relativeRecordName (name +:+ "." +:+ zone +:+ ".") (zone +:+ ".") = name.
Proof.
  intros Hne Hname Hzone.
  assert (Hlast : strings.TrimSuffix name "." = name)
    by (apply TrimSuffix_none, Hname).
  assert (Hout : (if String.eqb name "" then "@" else name) = name)
    by (destruct (String.eqb_spec name ""); [contradiction|reflexivity]).
  assert (Hz : strings.TrimSuffix zone "." = zone)
    by (apply TrimSuffix_none, Hzone).
  assert (Hzd : strings.TrimSuffix (zone +:+ ".") "." = zone)
    by apply TrimSuffix_app.
  assert (Hfd : strings.TrimSuffix (name +:+ "." +:+ zone +:+ ".") "."
                = name +:+ "." +:+ zone).
  { replace (name +:+ "." +:+ zone +:+ ".")
      with ((name +:+ "." +:+ zone) +:+ ".")
      by (rewrite !sapp_assoc; reflexivity).
    apply TrimSuffix_app. }
  assert (Hf : strings.TrimSuffix
                 (strings.TrimSuffix (name +:+ "." +:+ zone) ".")
                 ("." +:+ zone) = name).
  { destruct (String.eqb_spec zone "") as [->|Hzne].
    - change (name +:+ "." +:+ "") with (name +:+ ".").
      change ("." +:+ "") with ".".
      rewrite (TrimSuffix_app name "."). exact Hlast.
    - rewrite (TrimSuffix_none (name +:+ "." +:+ zone) ".").
      + apply TrimSuffix_app.
      + rewrite HasSuffix_dot_app by (rewrite sapp_cons; discriminate).
        rewrite HasSuffix_dot_app by exact Hzne. exact Hzone. }
  assert (Hcore : strings.TrimSuffix (name +:+ "." +:+ zone) ("." +:+ zone)
                  = name) by apply TrimSuffix_app.
  unfold relativeRecordName. cbv zeta.
  rewrite ?Hz, ?Hzd, ?Hfd, ?Hf, ?Hcore, ?Hlast, ?Hout.
  repeat split; rewrite ?Hf, ?Hlast, ?Hout; reflexivity.
Qed.

(** The name of the challenge record of the test, in the four spellings. *)
Lemma relativeRecordName_under_zone_witness :
  relativeRecordName "_acme-challenge.example.com" "example.com" = "_acme-challenge"
  /\ relativeRecordName "_acme-challenge.example.com." "example.com" = "_acme-challenge"
  /\ relativeRecordName "_acme-challenge.example.com" "example.com." = "_acme-challenge"
  /\ relativeRecordName "_acme-challenge.example.com." "example.com." = "_acme-challenge".
Proof.
  apply (relativeRecordName_under_zone "_acme-challenge" "example.com").
  - discriminate.
  - reflexivity.
  - reflexivity.
Defined.

(** ** Names are cut, never made up *)

(** X2.  [relativeRecordName] returns the sentinel or a prefix of the FQDN:
    all it does to a name is to cut its end off. *)
Theorem relativeRecordName_prefix (fqdn zone : string) :
  relativeRecordName fqdn zone = "@"
  \/ exists cut, fqdn = relativeRecordName fqdn zone +:+ cut.
Proof.
  unfold relativeRecordName. cbv zeta.
  set (f1 := strings.TrimSuffix fqdn ".").
  set (f2 := strings.TrimSuffix f1 ("." +:+ strings.TrimSuffix zone ".")).
  set (f3 := strings.TrimSuffix f2 ".").
  assert (Hcut : forall s suffix, exists cut, s = strings.TrimSuffix s suffix +:+ cut).
  { intros s suffix. destruct (TrimSuffix_cases s suffix) as [[_ H]|[_ H]].
    - eauto.
    - exists "". rewrite H, sapp_nil_r. reflexivity. }
  destruct (String.eqb f3 ""); [left; reflexivity|right].
  destruct (Hcut fqdn ".") as [c1 H1].
  destruct (Hcut f1 ("." +:+ strings.TrimSuffix zone ".")) as [c2 H2].
  destruct (Hcut f2 ".") as [c3 H3].
  fold f1 in H1. fold f2 in H2. fold f3 in H3.
  exists (c3 +:+ c2 +:+ c1).
  rewrite H1 at 1. rewrite H2 at 1. rewrite H3 at 1.
  rewrite !sapp_assoc. reflexivity.
Qed.

(** ** Defaults of the configuration *)



(** ** What the calls keep *)

Section Keeps.

Context (env : contabo.Env).
Context (I : contabo.State -> Prop) (Q : list contabo.Event -> Prop)
        (E : error -> Prop).
Hypothesis Q_nil : Q [].
Hypothesis Q_app : forall a b, Q a -> Q b -> Q (a ++ b)%list.

Lemma keeps_ret {A : Type} (a : A) : keeps I Q E (contabo.ret a).
Proof.
  intros s Hs. simpl. split; [exact Hs|]. split.
  - exists []. split; [symmetry; apply List.app_nil_r|exact Q_nil].
  - intros e H. discriminate H.
Qed.

Lemma keeps_bind {A B : Type} (m : contabo.M A) (k : A -> contabo.M B) :
  keeps I Q E m -> (forall a, keeps I Q E (k a)) ->
  keeps I Q E (contabo.bind m k).
Proof.
  intros Hm Hk s Hs. unfold contabo.bind.
  destruct (Hm s Hs) as (HI1 & (new1 & Hev1 & HQ1) & HE1).
  destruct (m s) as [[e1|a] s1]; simpl in *.
  - split; [exact HI1|]. split; [eauto|].
    intros e H. injection H as <-. apply HE1. reflexivity.
  - destruct (Hk a s1 HI1) as (HI2 & (new2 & Hev2 & HQ2) & HE2).
    split; [exact HI2|]. split; [|exact HE2].
    exists (new1 ++ new2)%list.
    split; [rewrite Hev2, Hev1, List.app_assoc; reflexivity|auto].
Qed.

Hypothesis keeps_doJSON :
  forall method path reqBody out,
    keeps I Q E (contabo.doJSON env method path reqBody out).

Lemma keeps_CreateRecord (zone : string) (req : contabo.CreateRecordRequest) :
  keeps I Q E (contabo.CreateRecord env zone req).
Proof.
  unfold contabo.CreateRecord.
  apply keeps_bind; [apply keeps_doJSON|intros _; apply keeps_ret].
Qed.

Lemma keeps_ListRecords (zone search : string) :
  keeps I Q E (contabo.ListRecords env zone search).
Proof. apply keeps_doJSON. Qed.

Lemma keeps_DeleteRecord (zone recordID : string) :
  keeps I Q E (contabo.DeleteRecord env zone recordID).
Proof.
  unfold contabo.DeleteRecord.
  apply keeps_bind; [apply keeps_doJSON|intros _; apply keeps_ret].
Qed.

Lemma keeps_deleteRecords (zone name key : string)
    (records : list contabo.DNSRecord) :
  keeps I Q E (solver.deleteRecords env zone name key records).
Proof.
  induction records as [|r rest IH]; simpl.
  - apply keeps_ret.
  - destruct (negb (solver.isACMERecord r name key)); [exact IH|].
    apply keeps_bind; [apply keeps_DeleteRecord|intros _; exact IH].
Qed.

End Keeps.

Section Outcomes.

Context (env : contabo.Env).

Lemma authFailure_tokenError (resp : contabo.Response) (e : error) :
  authFailure env resp = Some e -> tokenError e = true.
Proof.
  intros H. apply authFailure_cases in H.
  destruct H as [[_ ->]|[[_ [_ ->]]|[_ [_ ->]]]]; reflexivity.
Qed.

Lemma authFailure_none (resp : contabo.Response) (token : contabo.tokenResponse) :
  authFailure env resp = None ->
  contabo.decodeToken env (contabo.RespBody resp) = Some token ->
  contabo.AccessToken token <> "".
Proof.
  unfold authFailure. intros H Hdec. rewrite Hdec in H.
  destruct (300 <=? contabo.StatusCode resp); [discriminate|].
  destruct (String.eqb_spec (contabo.AccessToken token) ""); [discriminate|assumption].
Qed.

(** How a refresh ends: with a non-empty token stored, or with one of
    the errors of the token request and the client as it was. *)
Lemma refreshToken_outcome (s : contabo.State) :
  let o := contabo.refreshToken env s in
  match fst o with
  | inr _ => contabo.accessToken (contabo.client (snd o)) <> ""
  | inl e => tokenError e = true /\ contabo.client (snd o) = contabo.client s
  end.
Proof.
  cbv zeta. rewrite refreshToken_run. cbv zeta.
  destruct (contabo.urlOK env (contabo.authURL (contabo.client s)));
    [|simpl; auto].
  destruct (contabo.server env (contabo.events s)
              (authRequest (contabo.client s))) as [msg|resp]; [simpl; auto|].
  destruct (authFailure env resp) as [e|] eqn:Hfail.
  { simpl. split; [exact (authFailure_tokenError resp e Hfail)|reflexivity]. }
  destruct (contabo.decodeToken env (contabo.RespBody resp)) as [token|] eqn:Hdec.
  - simpl. exact (authFailure_none resp token Hfail Hdec).
  - simpl. auto.
Qed.

Lemma ensureToken_outcome (s : contabo.State) :
  let o := contabo.ensureToken env s in
  match fst o with
  | inr _ => contabo.accessToken (contabo.client (snd o)) <> ""
  | inl e => tokenError e = true /\ contabo.client (snd o) = contabo.client s
  end.
Proof.
  cbv zeta. rewrite ensureToken_run.
  destruct (String.eqb_spec (contabo.accessToken (contabo.client s)) "")
    as [Hempty|Hne]; [apply refreshToken_outcome|].
  cbv zeta. destruct (30 * Second <? Sub _ _); [simpl; exact Hne|].
  apply (refreshToken_outcome
           (contabo.record
              (contabo.EvNow (contabo.clock env (contabo.events s))) s)).
Qed.

Lemma recordOutcome_error (out : bool) (resp : contabo.Response) (e : error) :
  recordOutcome env out resp = inl e -> callError e = true.
Proof.
  unfold recordOutcome.
  destruct (300 <=? contabo.StatusCode resp).
  - destruct (negb _); intros H; injection H as <-; reflexivity.
  - destruct out; [|discriminate].
    destruct (contabo.decodeRecords env _); [discriminate|].
    intros H; injection H as <-; reflexivity.
Qed.

Lemma tokenError_callError (e : error) : tokenError e = true -> callError e = true.
Proof. destruct e; simpl; congruence. Qed.

Lemma authRequest_sameSettings (c c' : contabo.Client) :
  sameSettings c c' -> authRequest c' = authRequest c.
Proof.
  intros (_ & Hauth & Hid & Hsec & Huser & Hpass).
  unfold authRequest, contabo.tokenForm.
  rewrite Hauth, Hid, Hsec, Huser, Hpass. reflexivity.
Qed.

Lemma recordRequest_sameSettings (c c' : contabo.Client)
    (token method path : string) (body : contabo.Body) :
  sameSettings c c' ->
  recordRequest c' token method path body = recordRequest c token method path body.
Proof. intros [Hbase _]. unfold recordRequest. rewrite Hbase. reflexivity. Qed.

Lemma addressed_sameSettings (c c' : contabo.Client) (ev : contabo.Event) :
  sameSettings c c' -> addressed c' ev -> addressed c ev.
Proof.
  intros Hsame. destruct ev as [t|req res]; [auto|]. simpl.
  rewrite (authRequest_sameSettings c c' Hsame).
  intros [H|(token & method & path & body & Hne & H)]; [left; exact H|right].
  exists token, method, path, body. split; [exact Hne|].
  rewrite <- (recordRequest_sameSettings c c'); assumption.
Qed.

(** [ensureToken] sends nothing but the token request. *)
Lemma ensureToken_addressed (s : contabo.State) :
  exists new,
    contabo.events (snd (contabo.ensureToken env s))
    = (contabo.events s ++ new)%list
    /\ Forall (addressed (contabo.client s)) new.
Proof.
  assert (Hrefresh : forall s0 : contabo.State,
            exists new,
              contabo.events (snd (contabo.refreshToken env s0))
              = (contabo.events s0 ++ new)%list
              /\ Forall (addressed (contabo.client s0)) new).
  { intros s0. rewrite refreshToken_run. cbv zeta.
    destruct (contabo.urlOK env (contabo.authURL (contabo.client s0)));
      [|exists []; split; [symmetry; apply List.app_nil_r|constructor]].
    destruct (contabo.server env (contabo.events s0)
                (authRequest (contabo.client s0))) as [msg|resp].
    { simpl. eexists. split; [reflexivity|].
      constructor; [left; reflexivity|constructor]. }
    destruct (authFailure env resp).
    { simpl. eexists. split; [reflexivity|].
      constructor; [left; reflexivity|constructor]. }
    destruct (contabo.decodeToken env (contabo.RespBody resp)).
    - simpl. rewrite <- List.app_assoc. eexists. split; [reflexivity|]. simpl.
      constructor; [left; reflexivity|]. constructor; [exact Logic.I|constructor].
    - simpl. eexists. split; [reflexivity|].
      constructor; [left; reflexivity|constructor]. }
  rewrite ensureToken_run.
  destruct (String.eqb (contabo.accessToken (contabo.client s)) "");
    [apply Hrefresh|].
  cbv zeta. destruct (30 * Second <? Sub _ _).
  - simpl. eexists. split; [reflexivity|].
    constructor; [exact Logic.I|constructor].
  - destruct (Hrefresh
                (contabo.record
                   (contabo.EvNow (contabo.clock env (contabo.events s))) s))
      as (new & Hev & Hnew).
    simpl in Hev, Hnew. rewrite <- List.app_assoc in Hev.
    eexists. split; [exact Hev|]. simpl.
    constructor; [exact Logic.I|exact Hnew].
Qed.

(** One call of the client, for a client with the settings of [c0]: the
    settings stay, every request goes where it belongs, and the call
    fails with the errors of a call only. *)
Lemma doJSON_sound (c0 : contabo.Client) (method path : string)
    (reqBody : option contabo.CreateRecordRequest) (out : bool) :
  keeps (fun s => sameSettings c0 (contabo.client s)) (Forall (addressed c0))
    (fun e => callError e = true)
    (contabo.doJSON env method path reqBody out).
Proof.
  intros s Hs.
  destruct (ensureToken_trace env s) as (tok & Hev & _ & Hsame & _).
  destruct (ensureToken_addressed s) as (tok' & Hev' & Htok).
  cbv zeta in Hev, Hsame. rewrite Hev in Hev'.
  apply List.app_inv_head in Hev'. subst tok'.
  assert (Htok0 : Forall (addressed c0) tok).
  { eapply List.Forall_impl; [|exact Htok].
    intros ev. apply addressed_sameSettings, Hs. }
  pose proof (ensureToken_outcome s) as Hout. cbv zeta in Hout.
  rewrite doJSON_run.
  destruct (contabo.ensureToken env s) as [[e|[]] s1]; simpl in *.
  { split; [exact (sameSettings_trans _ _ _ Hs Hsame)|]. split.
    - exists tok. split; [exact Hev|exact Htok0].
    - intros e0 H. injection H as <-. apply tokenError_callError, Hout. }
  assert (Hs1 : sameSettings c0 (contabo.client s1))
    by exact (sameSettings_trans _ _ _ Hs Hsame).
  assert (Hsent : forall res,
            Forall (addressed c0)
              (tok ++ [contabo.EvHTTP
                         (recordRequest (contabo.client s1)
                            (contabo.accessToken (contabo.client s1))
                            method path (jsonBody reqBody)) res])).
  { intros res. apply Forall_app. split; [exact Htok0|].
    constructor; [|constructor]. right.
    exists (contabo.accessToken (contabo.client s1)), method, path,
      (jsonBody reqBody).
    split; [exact Hout|]. apply recordRequest_sameSettings, Hs1. }
  destruct (contabo.urlOK env (contabo.baseURL (contabo.client s1) +:+ path)).
  - cbv zeta.
    destruct (contabo.server env (contabo.events s1) _) as [msg|resp] eqn:Hres;
      simpl; (split; [exact Hs1|]);
      (split;
       [eexists; split;
        [rewrite Hev, <- List.app_assoc; reflexivity|apply Hsent]|]).
    + intros e H. injection H as <-. reflexivity.
    + intros e H. exact (recordOutcome_error out resp e H).
  - simpl. split; [exact Hs1|]. split.
    + exists tok. split; [exact Hev|exact Htok0].
    + intros e H. injection H as <-. reflexivity.
Qed.

End Outcomes.

(** ** The solver: setup, errors and tokens *)

Section SolverOutcomes.

Context (env : contabo.Env).

Lemma keeps_withClient {A : Type} (I : contabo.State -> Prop)
    (Q : list contabo.Event -> Prop) (E : error -> Prop)
    (m : contabo.M A) (c : contabo.Client) (h : list contabo.Event) :
  keeps I Q E m -> I {| contabo.client := c; contabo.events := h |} ->
  (exists new, snd (solver.withClient c m h) = (h ++ new)%list /\ Q new)
  /\ forall e, fst (solver.withClient c m h) = inl e -> E e.
Proof.
  intros Hm Hc. unfold solver.withClient.
  destruct (Hm {| contabo.client := c; contabo.events := h |} Hc)
    as (_ & Hev & HE).
  destruct (m {| contabo.client := c; contabo.events := h |}) as [r st].
  simpl in *. auto.
Qed.

Lemma credentials_nonempty (secret : solver.Secret) (creds : solver.credentials) :
  solver.credentialsFromSecret secret = inr creds ->
  String.eqb (solver.clientID creds) "" || String.eqb (solver.clientSecret creds) ""
  || String.eqb (solver.username creds) "" || String.eqb (solver.password creds) ""
  = false.
Proof.
  unfold solver.credentialsFromSecret.
  destruct (_ || _ || _ || _) eqn:H; [discriminate|].
  intros Heq. injection Heq as <-. exact H.
Qed.

Lemma loadCredentials_secret (sv : solver.Solver) (ch : solver.ChallengeRequest)
    (cfg : Config) (creds : solver.credentials) :
  solver.loadCredentials sv ch cfg = inr creds ->
  exists kube secret,
    solver.client sv = Some kube
    /\ secretNamespace cfg ch <> ""
    /\ kube (secretNamespace cfg ch) (CredentialsSecretName cfg) = Some secret
    /\ solver.credentialsFromSecret secret = inr creds.
Proof.
  unfold solver.loadCredentials, secretNamespace.
  destruct (solver.client sv) as [kube|]; [|discriminate].
  destruct (String.eqb_spec
              (if String.eqb (CredentialsSecretNamespace cfg) ""
               then solver.ResourceNamespace ch
               else CredentialsSecretNamespace cfg) "") as [_|Hns];
    [discriminate|].
  destruct (kube _ (CredentialsSecretName cfg)) as [secret|] eqn:Hget;
    [|discriminate].
  intros H. exists kube, secret. auto.
Qed.

Lemma newClient_run (cfg : Config) (creds : solver.credentials) :
  solver.newClient cfg creds =
    if String.eqb (solver.clientID creds) "" || String.eqb (solver.clientSecret creds) ""
       || String.eqb (solver.username creds) "" || String.eqb (solver.password creds) ""
    then inl ErrClientArgs
    else inr (clientOf cfg creds).
Proof.
  unfold solver.newClient, contabo.NewClient, contabo.NewClientWithAuthURL, clientOf.
  destruct (_ || _ || _ || _); [destruct (negb _); reflexivity|].
  destruct (String.eqb (AuthURL cfg) ""); reflexivity.
Qed.

Lemma setup_inv (sv : solver.Solver) (ch : solver.ChallengeRequest)
    (c : contabo.Client) :
  solver.setup env sv ch = inr c ->
  exists cfg creds,
    solver.loadConfig env (solver.ch_Config ch) = inr cfg
    /\ solver.loadCredentials sv ch cfg = inr creds
    /\ c = clientOf cfg creds.
Proof.
  unfold solver.setup.
  destruct (solver.loadConfig env (solver.ch_Config ch)) as [e|cfg]; [discriminate|].
  destruct (solver.loadCredentials sv ch cfg) as [e|creds] eqn:Hcreds; [discriminate|].
  intros H. exists cfg, creds. split; [reflexivity|]. split; [exact Hcreds|].
  destruct (loadCredentials_secret sv ch cfg creds Hcreds)
    as (kube & secret & _ & _ & _ & Hsec).
  rewrite newClient_run, (credentials_nonempty secret creds Hsec) in H.
  injection H as <-. reflexivity.
Qed.

Lemma setup_error (sv : solver.Solver) (ch : solver.ChallengeRequest) (e : error) :
  solver.setup env sv ch = inl e -> setupError e = true.
Proof.
  unfold solver.setup, solver.loadConfig.
  destruct (solver.ch_Config ch) as [raw|]; [|intros H; injection H as <-; reflexivity].
  destruct (contabo.decodeConfig env raw) as [cfg|];
    [|intros H; injection H as <-; reflexivity].
  destruct (String.eqb (CredentialsSecretName cfg) "");
    [intros H; injection H as <-; reflexivity|].
  destruct (solver.loadCredentials sv ch cfg) as [e1|creds] eqn:Hcreds.
  - intros H. injection H as <-. revert Hcreds.
    unfold solver.loadCredentials, solver.credentialsFromSecret.
    destruct (solver.client sv) as [kube|];
      [|intros H; injection H as <-; reflexivity].
    destruct (String.eqb _ ""); [intros H; injection H as <-; reflexivity|].
    destruct (kube _ _) as [secret|]; [|intros H; injection H as <-; reflexivity].
    destruct (_ || _ || _ || _); [|discriminate].
    intros H; injection H as <-; reflexivity.
  - destruct (loadCredentials_secret sv ch cfg creds Hcreds)
      as (kube & secret & _ & _ & _ & Hsec).
    rewrite newClient_run, (credentials_nonempty secret creds Hsec).
    discriminate.
Qed.

End SolverOutcomes.

(** X4.  [NewClientWithAuthURL] refuses empty credentials and fills in the
    default URLs; [newClient] takes the auth URL of the configuration
    when there is one.  Credentials that [credentialsFromSecret]
    returned are never refused, so the steps before the first request
    fail with the errors of the configuration and the secret only. *)
Theorem newClient_checks (cfg : Config) (creds : solver.credentials) :
  (solver.newClient cfg creds = inl ErrClientArgs
   <-> solver.clientID creds = "" \/ solver.clientSecret creds = ""
       \/ solver.username creds = "" \/ solver.password creds = "")
  /\ (forall c,
        solver.newClient cfg creds = inr c <->
        (solver.clientID creds <> "" /\ solver.clientSecret creds <> ""
         /\ solver.username creds <> "" /\ solver.password creds <> "")
        /\ c = {| contabo.baseURL :=
                    if String.eqb (BaseURL cfg) ""
                    then "https://api.contabo.com" else BaseURL cfg;
                  contabo.authURL :=
                    if String.eqb (AuthURL cfg) ""
                    then "https://auth.contabo.com/auth/realms/contabo/protocol/openid-connect/token"
                    else AuthURL cfg;
                  contabo.clientID := solver.clientID creds;
                  contabo.secret := solver.clientSecret creds;
                  contabo.username := solver.username creds;
                  contabo.password := solver.password creds;
                  contabo.accessToken := "";
                  contabo.expiresAt := 0 |})
  /\ (forall secret,
        solver.credentialsFromSecret secret = inr creds ->
        exists c, solver.newClient cfg creds = inr c)
  /\ (forall env sv ch e,
        solver.setup env sv ch = inl e -> setupError e = true).
Proof.
  rewrite newClient_run.
  assert (Hor : String.eqb (solver.clientID creds) ""
                || String.eqb (solver.clientSecret creds) ""
                || String.eqb (solver.username creds) ""
                || String.eqb (solver.password creds) "" = true
                <-> solver.clientID creds = "" \/ solver.clientSecret creds = ""
                    \/ solver.username creds = "" \/ solver.password creds = "").
  { rewrite !orb_true_iff, !String.eqb_eq. tauto. }
  split; [|split; [|split]].
  - destruct (_ || _ || _ || _) eqn:Hb.
    + split; [intros _; apply Hor; reflexivity|reflexivity].
    + split; [discriminate|]. intros H. apply Hor in H. discriminate H.
  - intros c. destruct (_ || _ || _ || _) eqn:Hb.
    + split; [discriminate|]. intros [Hne _]. exfalso.
      destruct Hor as [Hor _]. specialize (Hor eq_refl). tauto.
    + assert (Hnone : ~ (solver.clientID creds = "" \/ solver.clientSecret creds = ""
                         \/ solver.username creds = "" \/ solver.password creds = ""))
        by (intros H; apply Hor in H; discriminate).
      split.
      * intros H. injection H as <-.
        split; [repeat split; intros Heq; apply Hnone; auto|reflexivity].
      * intros [_ ->]. reflexivity.
  - intros secret Hsec. rewrite (credentials_nonempty secret creds Hsec).
    eauto.
  - intros env sv ch e. apply setup_error.
Qed.

(** ** A solver without a Kubernetes client *)

(** X5.  A solver that was never initialised, new or left by an [Initialize]
    that failed, answers every [Present] and [CleanUp] with an error and
    touches nothing: the error of the configuration when that does not
    load, the complaint about the missing Kubernetes client otherwise. *)
Theorem uninitialized_solver_fails (env : contabo.Env)
    (ch : solver.ChallengeRequest) (h : list contabo.Event) (cause : string) :
  let e := match solver.loadConfig env (solver.ch_Config ch) with
           | inl e => e
           | inr _ => ErrKubeNotInitialized
           end in
  let failed := solver.Initialize (inl cause) solver.NewSolver in
  fst failed = Some (solver.ErrInitialize cause)
  /\ solver.Present env solver.NewSolver ch h = (inl e, h)
  /\ solver.CleanUp env solver.NewSolver ch h = (inl e, h)
  /\ solver.Present env (snd failed) ch h = (inl e, h)
  /\ solver.CleanUp env (snd failed) ch h = (inl e, h).
Proof.
  cbv zeta. simpl.
  unfold solver.Present, solver.CleanUp.
  destruct (solver.loadConfig env (solver.ch_Config ch)) as [e|cfg];
    repeat split; reflexivity.
Qed.

Section SolverCalls.

Context (env : contabo.Env).

Lemma Forall_app_intro {A : Type} (P : A -> Prop) (a b : list A) :
  Forall P a -> Forall P b -> Forall P (a ++ b)%list.
Proof. intros Ha Hb. apply Forall_app. auto. Qed.

(** What a call of the solver does once the client exists. *)
Lemma solver_sound (sv : solver.Solver) (ch : solver.ChallengeRequest)
    (h : list contabo.Event) (c : contabo.Client) :
  solver.setup env sv ch = inr c ->
  forall o,
    o = solver.Present env sv ch h \/ o = solver.CleanUp env sv ch h ->
    (exists new, snd o = (h ++ new)%list /\ Forall (addressed c) new)
    /\ forall e, fst o = inl e -> callError e = true.
Proof.
  intros Hsetup o Ho.
  destruct (setup_inv env sv ch c Hsetup) as (cfg & creds & Hcfg & _ & _).
  destruct Ho as [->| ->].
  - rewrite (Present_run env sv ch h cfg c Hcfg Hsetup).
    apply (keeps_withClient (fun s => sameSettings c (contabo.client s))
             (Forall (addressed c)) (fun e => callError e = true));
      [|apply sameSettings_refl].
    apply (keeps_CreateRecord env _ _ _ (List.Forall_nil _) (Forall_app_intro _)).
    intros. apply doJSON_sound.
  - rewrite (CleanUp_run env sv ch h c Hsetup). cbv zeta.
    apply (keeps_withClient (fun s => sameSettings c (contabo.client s))
             (Forall (addressed c)) (fun e => callError e = true));
      [|apply sameSettings_refl].
    apply (keeps_bind _ _ _ (Forall_app_intro _)).
    + apply keeps_ListRecords. intros. apply doJSON_sound.
    + intros records.
      apply (keeps_deleteRecords env _ _ _ (List.Forall_nil _) (Forall_app_intro _)).
      intros. apply doJSON_sound.
Qed.

Lemma setupError_callError (e : error) :
  setupError e = true -> callError e = false.
Proof. destruct e; simpl; congruence. Qed.

End SolverCalls.

(** X6.  Where the solver sends what.  Once the client [c] is set up, every
    request of [Present] and of [CleanUp] is either the token request of
    [c] (to its auth URL, with the credentials in the form and no
    [Authorization] header) or a request to a URL under the base URL of
    [c] that carries a bearer token, and never the empty token. *)
Theorem requests_addressed (env : contabo.Env) (sv : solver.Solver)
    (ch : solver.ChallengeRequest) (h : list contabo.Event) (c : contabo.Client) :
  solver.setup env sv ch = inr c ->
  let sent := fun o : result unit * list contabo.Event =>
    exists new,
      snd o = (h ++ new)%list
      /\ forall req res,
           In (contabo.EvHTTP req res) new ->
           req = {| contabo.Method := "POST";
                    contabo.URL := contabo.authURL c;
                    contabo.ContentType := "application/x-www-form-urlencoded";
                    contabo.Authorization := None;
                    contabo.ReqBody := contabo.FormBody (contabo.tokenForm c) |}
           \/ exists token method path body,
                token <> ""
                /\ req = {| contabo.Method := method;
                            contabo.URL := contabo.baseURL c +:+ path;
                            contabo.ContentType := "application/json";
                            contabo.Authorization := Some ("Bearer " +:+ token);
                            contabo.ReqBody := body |} in
  sent (solver.Present env sv ch h) /\ sent (solver.CleanUp env sv ch h).
Proof.
  intros Hsetup. cbv zeta.
  split.
  - destruct (solver_sound env sv ch h c Hsetup _ (or_introl eq_refl))
      as [(new & Hev & Hall) _].
    exists new. split; [exact Hev|]. intros req res Hin.
    rewrite List.Forall_forall in Hall. exact (Hall _ Hin).
  - destruct (solver_sound env sv ch h c Hsetup _ (or_intror eq_refl))
      as [(new & Hev & Hall) _].
    exists new. split; [exact Hev|]. intros req res Hin.
    rewrite List.Forall_forall in Hall. exact (Hall _ Hin).
Qed.

(** The requests of the test: the token request and requests with the token of the test. *)
Lemma requests_addressed_witness :
  let env := Scenario.world 200 3600 in
  let c := Scenario.the_client in
  let sent := fun o : result unit * list contabo.Event =>
    exists new,
      snd o = ([] ++ new)%list
      /\ forall req res,
           In (contabo.EvHTTP req res) new ->
           req = {| contabo.Method := "POST";
                    contabo.URL := contabo.authURL c;
                    contabo.ContentType := "application/x-www-form-urlencoded";
                    contabo.Authorization := None;
                    contabo.ReqBody := contabo.FormBody (contabo.tokenForm c) |}
           \/ exists token method path body,
                token <> ""
                /\ req = {| contabo.Method := method;
                            contabo.URL := contabo.baseURL c +:+ path;
                            contabo.ContentType := "application/json";
                            contabo.Authorization := Some ("Bearer " +:+ token);
                            contabo.ReqBody := body |} in
  sent (solver.Present env Scenario.the_solver Scenario.challenge [])
  /\ sent (solver.CleanUp env Scenario.the_solver Scenario.challenge []).
Proof.
  apply (requests_addressed (Scenario.world 200 3600) Scenario.the_solver
           Scenario.challenge [] Scenario.the_client).
  reflexivity.
Defined.

(** X7.  The errors of the solver.  [Present] and [CleanUp] fail either
    before a client exists, with an error of the configuration or the
    secret and nothing sent or read, or in a call of the client, with one
    of its errors; the complaint of [NewClientWithAuthURL] about missing
    credentials is never returned. *)
Theorem solver_error_classes (env : contabo.Env) (sv : solver.Solver)
    (ch : solver.ChallengeRequest) (h : list contabo.Event) :
  let classified := fun o : result unit * list contabo.Event =>
    fst o <> inl ErrClientArgs
    /\ forall e,
         fst o = inl e ->
         if setupError e
         then solver.setup env sv ch = inl e /\ snd o = h
         else callError e = true /\ exists c, solver.setup env sv ch = inr c in
  classified (solver.Present env sv ch h)
  /\ classified (solver.CleanUp env sv ch h).
Proof.
  cbv zeta.
  assert (Hall : forall o,
            o = solver.Present env sv ch h \/ o = solver.CleanUp env sv ch h ->
            forall e, fst o = inl e ->
              if setupError e
              then solver.setup env sv ch = inl e /\ snd o = h
              else callError e = true /\ exists c, solver.setup env sv ch = inr c).
  { intros o Ho e He.
    destruct (solver.setup env sv ch) as [e0|c] eqn:Hsetup.
    - assert (Hoe : o = (inl e0, h)).
      { destruct Ho as [->| ->];
          [apply Present_setup_error|apply CleanUp_setup_error]; exact Hsetup. }
      subst o. simpl in He. injection He as <-.
      rewrite (setup_error env sv ch e0 Hsetup). auto.
    - destruct (solver_sound env sv ch h c Hsetup o Ho) as [_ Herr].
      specialize (Herr e He).
      destruct (setupError e) eqn:Hse.
      + apply setupError_callError in Hse. congruence.
      + split; [exact Herr|eauto]. }
  split; split.
  - intros Habs.
    destruct (Hall _ (or_introl eq_refl) _ Habs) as [H _]. discriminate H.
  - apply Hall. left. reflexivity.
  - intros Habs.
    destruct (Hall _ (or_intror eq_refl) _ Habs) as [H _]. discriminate H.
  - apply Hall. right. reflexivity.
Qed.

(** ** The first request *)

Section FirstRequest.

Context (env : contabo.Env).

Lemma doJSON_extends (method path : string)
    (reqBody : option contabo.CreateRecordRequest) (out : bool)
    (s : contabo.State) :
  exists more,
    contabo.events (snd (contabo.doJSON env method path reqBody out s))
    = (contabo.events (snd (contabo.ensureToken env s)) ++ more)%list.
Proof.
  rewrite doJSON_run.
  destruct (contabo.ensureToken env s) as [[e|u] s1]; simpl.
  { exists []. symmetry. apply List.app_nil_r. }
  destruct (contabo.urlOK env _).
  - cbv zeta. destruct (contabo.server env (contabo.events s1) _); simpl; eauto.
  - exists []. symmetry. apply List.app_nil_r.
Qed.

Lemma ensureToken_fresh (s : contabo.State) :
  contabo.accessToken (contabo.client s) = "" ->
  let c := contabo.client s in
  if contabo.urlOK env (contabo.authURL c)
  then exists rest,
         contabo.events (snd (contabo.ensureToken env s))
         = (contabo.events s
            ++ contabo.EvHTTP (authRequest c)
                 (contabo.server env (contabo.events s) (authRequest c))
               :: rest)%list
  else contabo.ensureToken env s = (inl (ErrNewRequest (contabo.authURL c)), s).
Proof.
  intros Htok. cbv zeta. rewrite ensureToken_run, Htok. simpl.
  rewrite refreshToken_run. cbv zeta.
  destruct (contabo.urlOK env (contabo.authURL (contabo.client s)));
    [|reflexivity].
  destruct (contabo.server env (contabo.events s)
              (authRequest (contabo.client s))) as [msg|resp] eqn:Hres.
  { simpl. eauto. }
  destruct (authFailure env resp).
  { simpl. eauto. }
  destruct (contabo.decodeToken env (contabo.RespBody resp)).
  - simpl. rewrite <- List.app_assoc. simpl. eauto.
  - simpl. eauto.
Qed.

(** A call on a client without a token starts with the token request,
    before any reading of the clock; when the HTTP library refuses the
    auth URL the call fails with nothing done. *)
Lemma doJSON_fresh (method path : string)
    (reqBody : option contabo.CreateRecordRequest) (out : bool)
    (s : contabo.State) :
  contabo.accessToken (contabo.client s) = "" ->
  let o := contabo.doJSON env method path reqBody out s in
  let c := contabo.client s in
  if contabo.urlOK env (contabo.authURL c)
  then exists rest,
         contabo.events (snd o)
         = (contabo.events s
            ++ contabo.EvHTTP (authRequest c)
                 (contabo.server env (contabo.events s) (authRequest c))
               :: rest)%list
  else o = (inl (ErrNewRequest (contabo.authURL c)), s).
Proof.
  intros Htok. cbv zeta.
  pose proof (ensureToken_fresh s Htok) as Hfirst. cbv zeta in Hfirst.
  destruct (contabo.urlOK env (contabo.authURL (contabo.client s))).
  - destruct Hfirst as [rest Hrest].
    destruct (doJSON_extends method path reqBody out s) as [more Hmore].
    exists (rest ++ more)%list. rewrite Hmore, Hrest, <- List.app_assoc.
    reflexivity.
  - rewrite doJSON_run, Hfirst. reflexivity.
Qed.

End FirstRequest.

(** X8.  Every call of the solver logs in first.  [Present] and [CleanUp]
    work on a client of their own, which holds no token: the first thing
    either does after the setup is to send the token request, and when
    the HTTP library refuses the auth URL it fails with nothing sent. *)
Theorem solver_authenticates_first (env : contabo.Env) (sv : solver.Solver)
    (ch : solver.ChallengeRequest) (h : list contabo.Event) (c : contabo.Client) :
  solver.setup env sv ch = inr c ->
  contabo.accessToken c = ""
  /\ let first := fun o : result unit * list contabo.Event =>
       if contabo.urlOK env (contabo.authURL c)
       then exists rest,
              snd o = (h ++ contabo.EvHTTP (authRequest c)
                             (contabo.server env h (authRequest c))
                           :: rest)%list
       else o = (inl (ErrNewRequest (contabo.authURL c)), h) in
     first (solver.Present env sv ch h) /\ first (solver.CleanUp env sv ch h).
Proof.
  intros Hsetup.
  destruct (setup_inv env sv ch c Hsetup) as (cfg & creds & Hcfg & _ & Hc).
  assert (Htok : contabo.accessToken c = "") by (subst c; reflexivity).
  split; [exact Htok|]. cbv zeta.
  set (s := {| contabo.client := c; contabo.events := h |}).
  split.
  - rewrite (Present_run env sv ch h cfg c Hcfg Hsetup).
    unfold solver.withClient. fold s. rewrite CreateRecord_run. cbv zeta.
    pose proof (doJSON_fresh env "POST"
                  (contabo.recordsPath (normalizeZone (solver.ResolvedZone ch)))
                  (Some (desiredRecord cfg ch)) false s Htok) as H.
    cbv zeta in H. simpl in H.
    destruct (contabo.urlOK env (contabo.authURL c)).
    + exact H.
    + rewrite H. reflexivity.
  - rewrite (CleanUp_run env sv ch h c Hsetup). cbv zeta.
    unfold solver.withClient, contabo.bind. fold s.
    pose proof (doJSON_fresh env "GET"
                  (contabo.listEndpoint (normalizeZone (solver.ResolvedZone ch))
                     (relativeRecordName (solver.ResolvedFQDN ch)
                        (solver.ResolvedZone ch)))
                  None true s Htok) as H.
    cbv zeta in H. simpl in H. unfold contabo.ListRecords.
    destruct (contabo.urlOK env (contabo.authURL c)).
    + destruct H as [rest Hrest].
      destruct (contabo.doJSON env "GET" _ None true s) as [[e|records] s1];
        simpl in *; [eauto|].
      destruct (deleteRecords_trace env
                  (normalizeZone (solver.ResolvedZone ch))
                  (relativeRecordName (solver.ResolvedFQDN ch)
                     (solver.ResolvedZone ch))
                  (solver.Key ch) records s1) as (new & Hev & _).
      cbv zeta in Hev.
      destruct (solver.deleteRecords env _ _ _ records s1) as [r s2].
      simpl in *. exists (rest ++ new)%list.
      rewrite Hev, Hrest, <- List.app_assoc. reflexivity.
    + rewrite H. reflexivity.
Qed.

(** In the world of the test both calls start with the token exchange. *)
Lemma solver_authenticates_first_witness :
  let env := Scenario.world 200 3600 in
  let token_exchange :=
    contabo.EvHTTP (authRequest Scenario.the_client)
      (inr {| contabo.StatusCode := 200; contabo.Status := "200 OK";
              contabo.RespBody := "token" |}) in
  (exists rest,
     snd (solver.Present env Scenario.the_solver Scenario.challenge [])
     = token_exchange :: rest)
  /\ (exists rest,
        snd (solver.CleanUp env Scenario.the_solver Scenario.challenge [])
        = token_exchange :: rest).
Proof.
  exact (proj2 (solver_authenticates_first (Scenario.world 200 3600)
                  Scenario.the_solver Scenario.challenge []
                  Scenario.the_client eq_refl)).
Defined.

(** ** Successful calls *)

Section Success.

Context (env : contabo.Env).

Lemma recordOutcome_ok (out : bool) (resp : contabo.Response)
    (v : list contabo.DNSRecord) :
  recordOutcome env out resp = inr v
  <-> contabo.StatusCode resp < 300
      /\ if out then contabo.decodeRecords env (contabo.RespBody resp) = Some v
         else v = [].
Proof.
  unfold recordOutcome.
  destruct (Z.leb_spec 300 (contabo.StatusCode resp)) as [Hge|Hlt].
  - split; [destruct (negb _); discriminate|lia].
  - destruct out.
    + destruct (contabo.decodeRecords env (contabo.RespBody resp)) as [data|].
      * split; [intros H; injection H as ->; auto|].
        intros [_ H]. injection H as ->. reflexivity.
      * split; [discriminate|intros [_ H]; discriminate H].
    + split; [intros H; injection H as <-; auto|intros [_ ->]; reflexivity].
Qed.

Lemma doJSON_success_iff (method path : string)
    (reqBody : option contabo.CreateRecordRequest) (out : bool)
    (s : contabo.State) (v : list contabo.DNSRecord) :
  let o := contabo.doJSON env method path reqBody out s in
  fst o = inr v
  <-> answered s (contabo.events (snd o))
        (fun resp =>
           if out then contabo.decodeRecords env (contabo.RespBody resp) = Some v
           else v = []).
Proof.
  cbv zeta. unfold answered.
  destruct (doJSON_trace env method path reqBody out s)
    as (tok & sent & Hev & Hnone & _ & _ & Hsent).
  cbv zeta in Hev, Hsent. rewrite Hev. split.
  - intros Hok. destruct Hsent as [[_ [e He]]|[res [-> Hres]]]; [congruence|].
    rewrite Hok in Hres. destruct res as [msg|resp]; [discriminate|].
    symmetry in Hres. apply recordOutcome_ok in Hres as [Hlt Hp].
    exists tok. eexists. exists resp. split; [reflexivity|].
    split; [reflexivity|]. auto.
  - intros (pre & req & resp & Heq & Hrec & Hlt & Hp).
    apply List.app_inv_head in Heq.
    destruct Hsent as [[-> _]|[res [-> Hres]]].
    + exfalso. rewrite List.app_nil_r in Heq. subst tok.
      rewrite recordRequests_app in Hnone. simpl in Hnone.
      rewrite Hrec in Hnone. destruct (recordRequests pre); discriminate.
    + apply List.app_inj_tail in Heq as [_ Heq]. injection Heq as _ ->.
      rewrite Hres. apply recordOutcome_ok. auto.
Qed.

End Success.

(** X9.  When a call of the client succeeds.  [CreateRecord] and
    [DeleteRecord] return no error exactly when the call got as far as
    the record request and the response has a status below 300; the body
    of the response is not looked at.  [ListRecords] returns [data]
    exactly when, in addition, the body decodes to [data]. *)
Theorem call_succeeds_iff (env : contabo.Env) (s : contabo.State)
    (zone recordID search : string) (req : contabo.CreateRecordRequest)
    (data : list contabo.DNSRecord) :
  (fst (contabo.CreateRecord env zone req s) = inr tt
   <-> answered s (contabo.events (snd (contabo.CreateRecord env zone req s)))
         (fun _ => True))
  /\ (fst (contabo.DeleteRecord env zone recordID s) = inr tt
      <-> answered s
            (contabo.events (snd (contabo.DeleteRecord env zone recordID s)))
            (fun _ => True))
  /\ (fst (contabo.ListRecords env zone search s) = inr data
      <-> answered s (contabo.events (snd (contabo.ListRecords env zone search s)))
            (fun resp =>
               contabo.decodeRecords env (contabo.RespBody resp) = Some data)).
Proof.
  assert (Hunit : forall method path reqBody,
            let o := contabo.doJSON env method path reqBody false s in
            (match fst o with inl e => inl e | inr _ => inr tt end
             = (inr tt : result unit))
            <-> answered s (contabo.events (snd o)) (fun _ => True)).
  { intros method path reqBody. cbv zeta.
    pose proof (doJSON_success_iff env method path reqBody false s []) as H.
    cbv zeta in H. split.
    - intros Hok.
      destruct (fst (contabo.doJSON env method path reqBody false s))
        as [e|v] eqn:Hv; [discriminate|].
      pose proof (doJSON_success_iff env method path reqBody false s v) as Hv'.
      cbv zeta in Hv'. rewrite Hv in Hv'.
      destruct (proj1 Hv' eq_refl) as (pre & r & resp & Hev & Hrec & Hlt & _).
      exists pre, r, resp. auto.
    - intros (pre & r & resp & Hev & Hrec & Hlt & _).
      destruct H as [_ H]. rewrite H; [reflexivity|].
      exists pre, r, resp. auto. }
  split; [|split].
  - rewrite CreateRecord_run. apply Hunit.
  - rewrite DeleteRecord_run. apply Hunit.
  - apply (doJSON_success_iff env "GET" (contabo.listEndpoint zone search)
             None true s data).
Qed.

Section Exchanges.

Context (env : contabo.Env).

(** A successful call on a client without a token: two exchanges with a
    reading of the clock between them. *)
Lemma doJSON_fresh_ok (method path : string)
    (reqBody : option contabo.CreateRecordRequest) (out : bool)
    (s s1 : contabo.State) (v : list contabo.DNSRecord) :
  contabo.accessToken (contabo.client s) = "" ->
  contabo.doJSON env method path reqBody out s = (inr v, s1) ->
  exists resp1 token t resp2,
    contabo.events s1
    = (contabo.events s
       ++ [contabo.EvHTTP (authRequest (contabo.client s)) (inr resp1);
           contabo.EvNow t;
           contabo.EvHTTP
             (recordRequest (contabo.client s) (contabo.AccessToken token)
                method path (jsonBody reqBody)) (inr resp2)])%list
    /\ authFailure env resp1 = None
    /\ contabo.decodeToken env (contabo.RespBody resp1) = Some token
    /\ recordOutcome env out resp2 = inr v.
Proof.
  intros Htok. rewrite doJSON_run.
  pose proof (refreshToken_facts env s) as [_ Hok]. cbv zeta in Hok.
  rewrite ensureToken_run, Htok in *. simpl in *.
  destruct (contabo.refreshToken env s) as [[e|[]] s0]; simpl in *;
    [discriminate|].
  destruct (Hok eq_refl) as (resp1 & token & t & _ & Hev & _ & Hfail & Hdec & Hcl).
  rewrite Hcl. simpl.
  destruct (contabo.urlOK env (contabo.baseURL (contabo.client s) +:+ path));
    [|discriminate].
  cbv zeta.
  destruct (contabo.server env (contabo.events s0) _) as [msg|resp2];
    [discriminate|].
  intros H. injection H as Hv <-. simpl.
  exists resp1, token, t, resp2.
  split; [rewrite Hev, <- List.app_assoc; reflexivity|auto].
Qed.

End Exchanges.

(** X10.  A successful [Present] is two exchanges.  [Present] returns no error
    exactly when it has added to the history the token request, answered
    with a token, a reading of the clock, and the create request, sent
    with that token and answered with a status below 300, and nothing
    else. *)
Theorem Present_succeeds_iff (env : contabo.Env) (sv : solver.Solver)
    (ch : solver.ChallengeRequest) (h : list contabo.Event)
    (cfg : Config) (c : contabo.Client) :
  solver.loadConfig env (solver.ch_Config ch) = inr cfg ->
  solver.setup env sv ch = inr c ->
  let o := solver.Present env sv ch h in
  fst o = inr tt
  <-> exists resp1 token t resp2,
        snd o
        = (h ++ [contabo.EvHTTP (authRequest c) (inr resp1);
                 contabo.EvNow t;
                 contabo.EvHTTP
                   (recordRequest c (contabo.AccessToken token) "POST"
                      (contabo.recordsPath (normalizeZone (solver.ResolvedZone ch)))
                      (contabo.JSONBody (desiredRecord cfg ch)))
                   (inr resp2)])%list
        /\ contabo.StatusCode resp1 < 300
        /\ contabo.decodeToken env (contabo.RespBody resp1) = Some token
        /\ contabo.AccessToken token <> ""
        /\ contabo.StatusCode resp2 < 300.
Proof.
  intros Hcfg Hsetup. cbv zeta.
  destruct (setup_inv env sv ch c Hsetup) as (cfg' & creds & _ & _ & Hc).
  assert (Htok : contabo.accessToken c = "") by (subst c; reflexivity).
  rewrite (Present_run env sv ch h cfg c Hcfg Hsetup).
  unfold solver.withClient.
  set (s := {| contabo.client := c; contabo.events := h |}).
  rewrite CreateRecord_run. cbv zeta.
  destruct (contabo.doJSON env "POST" _ (Some (desiredRecord cfg ch)) false s)
    as [[e|v] s1] eqn:Hrun; simpl.
  - split; [discriminate|].
    intros (resp1 & token & t & resp2 & Hev & _ & _ & _ & Hlt). exfalso.
    assert (Hok : fst (contabo.doJSON env "POST"
                         (contabo.recordsPath
                            (normalizeZone (solver.ResolvedZone ch)))
                         (Some (desiredRecord cfg ch)) false s) = inr []).
    { apply doJSON_success_iff. rewrite Hrun.
      exists [contabo.EvHTTP (authRequest c) (inr resp1); contabo.EvNow t].
      eexists. exists resp2. split; [exact Hev|]. split; [reflexivity|auto]. }
    rewrite Hrun in Hok. discriminate Hok.
  - split; [intros _|reflexivity].
    destruct (doJSON_fresh_ok env _ _ _ _ s s1 v Htok Hrun)
      as (resp1 & token & t & resp2 & Hev & Hfail & Hdec & Hout).
    exists resp1, token, t, resp2. split; [exact Hev|].
    pose proof (authFailure_none env resp1 token Hfail Hdec) as Hne.
    apply recordOutcome_ok in Hout as [Hlt2 _].
    unfold authFailure in Hfail.
    destruct (Z.leb_spec 300 (contabo.StatusCode resp1)); [discriminate|].
    auto.
Qed.

(** The two exchanges of a [Present] in the world of the test. *)
Lemma Present_succeeds_iff_witness :
  let env := Scenario.world 200 3600 in
  exists resp1 token t resp2,
    snd (solver.Present env Scenario.the_solver Scenario.challenge [])
    = [contabo.EvHTTP (authRequest Scenario.the_client) (inr resp1);
       contabo.EvNow t;
       contabo.EvHTTP
         (recordRequest Scenario.the_client (contabo.AccessToken token) "POST"
            "/v1/dns/zones/example.com/records"
            (contabo.JSONBody
               {| contabo.req_Name := "_acme-challenge";
                  contabo.req_Type := "TXT"; contabo.req_TTL := 120;
                  contabo.req_Prio := 0; contabo.req_Data := "key" |}))
         (inr resp2)]
    /\ contabo.StatusCode resp1 < 300
    /\ contabo.decodeToken env (contabo.RespBody resp1) = Some token
    /\ contabo.AccessToken token <> ""
    /\ contabo.StatusCode resp2 < 300.
Proof.
  exact (proj1 (Present_succeeds_iff (Scenario.world 200 3600)
                  Scenario.the_solver Scenario.challenge []
                  Scenario.the_config Scenario.the_client
                  eq_refl eq_refl) eq_refl).
Defined.

(** ** One login for one clean-up *)

Section Reuse.

Context (env : contabo.Env).

(** A successful call on a client without a token has sent exactly one
    token request. *)
Lemma doJSON_fresh_success (method path : string)
    (reqBody : option contabo.CreateRecordRequest) (out : bool)
    (s s1 : contabo.State) (v : list contabo.DNSRecord) :
  contabo.accessToken (contabo.client s) = "" ->
  contabo.doJSON env method path reqBody out s = (inr v, s1) ->
  tokenRequests (contabo.events s1)
  = (tokenRequests (contabo.events s) ++ [authRequest (contabo.client s)])%list
  /\ contabo.accessToken (contabo.client s1) <> "".
Proof.
  intros Htok. rewrite doJSON_run.
  pose proof (ensureToken_outcome env s) as Hout. cbv zeta in Hout.
  pose proof (refreshToken_facts env s) as [Hreqs Hok]. cbv zeta in Hreqs, Hok.
  rewrite ensureToken_run, Htok in *. simpl in *.
  destruct (contabo.refreshToken env s) as [[e|[]] s0]; simpl in *;
    [discriminate|].
  destruct (Hok eq_refl) as (_ & _ & _ & Hurl & _).
  specialize (Hreqs Hurl).
  destruct (contabo.urlOK env (contabo.baseURL (contabo.client s0) +:+ path));
    [|discriminate].
  cbv zeta.
  destruct (contabo.server env (contabo.events s0) _) as [msg|resp];
    [discriminate|].
  intros H. injection H as _ <-. simpl.
  rewrite tokenRequests_app. simpl. rewrite List.app_nil_r.
  split; [exact Hreqs|exact Hout].
Qed.

Context (c1 : contabo.Client) (T : Z).
Hypothesis token_held : contabo.accessToken c1 <> "".
Hypothesis token_lasts : T + 30 * Second < contabo.expiresAt c1.

(** A call on a client that holds a token reads the clock first; if the
    reading is not after [T], the call uses the token and asks for no
    other. *)
Lemma doJSON_reuse (method path : string)
    (reqBody : option contabo.CreateRecordRequest) (out : bool)
    (s : contabo.State) :
  contabo.client s = c1 ->
  let o := contabo.doJSON env method path reqBody out s in
  let t := contabo.clock env (contabo.events s) in
  exists rest,
    contabo.events (snd o) = (contabo.events s ++ contabo.EvNow t :: rest)%list
    /\ (t <= T -> contabo.client (snd o) = c1 /\ reuses c1 (contabo.EvNow t :: rest)).
Proof.
  intros Hc. cbv zeta.
  destruct (doJSON_extends env method path reqBody out s) as [more Hmore].
  revert Hmore.
  rewrite doJSON_run, ensureToken_run, Hc.
  destruct (String.eqb_spec (contabo.accessToken c1) "") as [Habs|_];
    [contradiction|].
  cbv zeta.
  destruct (30 * Second
            <? Sub (contabo.expiresAt c1) (contabo.clock env (contabo.events s)))
    eqn:Hfresh.
  - intros _. simpl. rewrite Hc.
    destruct (contabo.urlOK env (contabo.baseURL c1 +:+ path)).
    + cbv zeta.
      destruct (contabo.server env _ _) as [msg|resp]; simpl; rewrite Hc;
        (eexists; split; [rewrite <- List.app_assoc; reflexivity|]);
        intros _; (split; [reflexivity|]); split; simpl;
        try reflexivity; (constructor; [reflexivity|constructor]).
    + simpl. rewrite Hc. exists []. split; [reflexivity|].
      intros _. split; [reflexivity|]. split; [reflexivity|constructor].
  - intros Hmore.
    destruct (refreshToken_trace env
                (contabo.record
                   (contabo.EvNow (contabo.clock env (contabo.events s))) s))
      as (new & Hev & _).
    cbv zeta in Hev. simpl in Hev. rewrite <- List.app_assoc in Hev.
    simpl in Hev. rewrite Hev in Hmore.
    exists (new ++ more)%list. split.
    + rewrite Hmore, <- List.app_assoc. reflexivity.
    + intros Ht. exfalso.
      assert (Hok : (30 * Second
                     <? Sub (contabo.expiresAt c1)
                          (contabo.clock env (contabo.events s))) = true)
        by (apply fresh_test; lia).
      congruence.
Qed.

Lemma reuses_app (a b : list contabo.Event) :
  reuses c1 a -> reuses c1 b -> reuses c1 (a ++ b)%list.
Proof.
  intros [Ha1 Ha2] [Hb1 Hb2]. unfold reuses.
  rewrite tokenRequests_app, recordRequests_app, Ha1, Hb1.
  split; [reflexivity|apply Forall_app; auto].
Qed.

(** The loop of [CleanUp] on a client that holds a lasting token. *)
Lemma deleteRecords_reuse (zone name key : string)
    (records : list contabo.DNSRecord) :
  forall s : contabo.State,
    contabo.client s = c1 ->
    let o := solver.deleteRecords env zone name key records s in
    exists new,
      contabo.events (snd o) = (contabo.events s ++ new)%list
      /\ ((forall t, In (contabo.EvNow t) new -> t <= T) -> reuses c1 new).
Proof.
  induction records as [|r rest IH]; intros s Hc; cbv zeta.
  - simpl. exists []. split; [symmetry; apply List.app_nil_r|].
    intros _. split; [reflexivity|constructor].
  - simpl. destruct (negb (solver.isACMERecord r name key)); [apply IH, Hc|].
    unfold contabo.bind at 1. rewrite DeleteRecord_run. cbv zeta.
    destruct (doJSON_reuse "DELETE"
                (contabo.recordsPath zone +:+ "/"
                 +:+ url.PathEscape (Sprint (contabo.RecordID r)))
                None false s Hc) as (rest1 & Hev1 & Hre1).
    cbv zeta in Hev1, Hre1.
    destruct (contabo.doJSON env "DELETE" _ None false s) as [[e|v] s1];
      simpl in *.
    + eexists. split; [exact Hev1|].
      intros Hbound. apply Hre1, Hbound. left. reflexivity.
    + assert (Hnext : contabo.clock env (contabo.events s) <= T ->
                      contabo.client s1 = c1) by (intros Ht; apply Hre1, Ht).
      destruct (deleteRecords_trace env zone name key rest s1)
        as (new2 & Hev2 & _). cbv zeta in Hev2.
      exists ((contabo.EvNow (contabo.clock env (contabo.events s)) :: rest1)
              ++ new2)%list.
      split; [rewrite Hev2, Hev1, <- List.app_assoc; reflexivity|].
      intros Hbound.
      assert (Ht : contabo.clock env (contabo.events s) <= T)
        by (apply Hbound; left; reflexivity).
      destruct (Hre1 Ht) as [Hc1 Hre].
      destruct (IH s1 Hc1) as (new2' & Hev2' & Hre2). cbv zeta in Hev2'.
      rewrite Hev2 in Hev2'. apply List.app_inv_head in Hev2'. subst new2'.
      apply reuses_app; [exact Hre|].
      apply Hre2. intros t Hin. apply Hbound.
      apply List.in_or_app. right. exact Hin.
Qed.

End Reuse.

(** X11.  The token of the list request serves the whole clean-up.  When the
    token that the list request obtained is still good thirty seconds
    after [T], and no reading of the clock during the clean-up is after
    [T], [CleanUp] sends one token request in all, the one before the
    list request, and every request to the record API carries the token
    that it returned. *)
Theorem CleanUp_reuses_token (env : contabo.Env) (sv : solver.Solver)
    (ch : solver.ChallengeRequest) (h : list contabo.Event)
    (c : contabo.Client) (records : list contabo.DNSRecord)
    (s1 : contabo.State) (T : Z) :
  let zone := normalizeZone (solver.ResolvedZone ch) in
  let name := relativeRecordName (solver.ResolvedFQDN ch) (solver.ResolvedZone ch) in
  solver.setup env sv ch = inr c ->
  contabo.ListRecords env zone name
    {| contabo.client := c; contabo.events := h |} = (inr records, s1) ->
  T + 30 * Second < contabo.expiresAt (contabo.client s1) ->
  (forall t, In (contabo.EvNow t) (snd (solver.CleanUp env sv ch h)) -> t <= T) ->
  exists new,
    snd (solver.CleanUp env sv ch h) = (h ++ new)%list
    /\ tokenRequests new = [authRequest c]
    /\ contabo.accessToken (contabo.client s1) <> ""
    /\ forall req,
         In req (recordRequests new) ->
         contabo.Authorization req
         = Some ("Bearer " +:+ contabo.accessToken (contabo.client s1)).
Proof.
  cbv zeta. intros Hsetup Hlist Hlasts Hclock.
  destruct (setup_inv env sv ch c Hsetup) as (cfg & creds & _ & _ & Hc).
  assert (Htok : contabo.accessToken c = "") by (subst c; reflexivity).
  set (s := {| contabo.client := c; contabo.events := h |}) in *.
  (* the list request *)
  pose proof Hlist as Hlist'. unfold contabo.ListRecords in Hlist'.
  destruct (doJSON_fresh_success env _ _ _ _ s s1 records Htok Hlist')
    as [Hreqs Hheld].
  destruct (doJSON_trace env "GET"
              (contabo.listEndpoint (normalizeZone (solver.ResolvedZone ch))
                 (relativeRecordName (solver.ResolvedFQDN ch)
                    (solver.ResolvedZone ch))) None true s)
    as (tok & sent & Hev & Hnone & _ & _ & Hsent).
  rewrite Hlist' in Hev, Hsent. simpl in Hev, Hsent.
  destruct Hsent as [[_ [e He]]|[res [-> _]]]; [discriminate He|].
  (* the deletes *)
  rewrite (CleanUp_after_list env sv ch h c records s1 Hsetup Hlist) in *.
  cbv zeta in *.
  destruct (deleteRecords_reuse env (contabo.client s1) T Hheld Hlasts
              (normalizeZone (solver.ResolvedZone ch))
              (relativeRecordName (solver.ResolvedFQDN ch) (solver.ResolvedZone ch))
              (solver.Key ch) records s1 eq_refl) as (new & Hev2 & Hre).
  cbv zeta in Hev2. simpl in *. rewrite Hev2 in Hclock.
  destruct Hre as [Hno Hall].
  { intros t Hin. apply Hclock. apply List.in_or_app. right. exact Hin. }
  eexists.
  split; [rewrite Hev2, Hev, <- List.app_assoc; reflexivity|].
  split.
  { rewrite tokenRequests_app, Hno, List.app_nil_r.
    rewrite Hev, tokenRequests_app in Hreqs.
    apply List.app_inv_head in Hreqs. exact Hreqs. }
  split; [exact Hheld|].
  intros req. rewrite !recordRequests_app, Hnone. simpl.
  intros [<-|Hin]; [reflexivity|].
  rewrite List.Forall_forall in Hall. exact (Hall _ Hin).
Qed.

(** The clean-up of the test: one token request, and the token of its answer on the list and on the delete. *)
Lemma CleanUp_reuses_token_witness :
  let env := Scenario.world 200 3600 in
  exists new,
    snd (solver.CleanUp env Scenario.the_solver Scenario.challenge []) = new
    /\ tokenRequests new = [authRequest Scenario.the_client]
    /\ forall req,
         In req (recordRequests new) ->
         contabo.Authorization req = Some "Bearer token123".
Proof.
  cbv zeta.
  destruct (CleanUp_reuses_token (Scenario.world 200 3600)
              Scenario.the_solver Scenario.challenge []
              Scenario.the_client Scenario.the_records
              (snd (contabo.ListRecords (Scenario.world 200 3600)
                      "example.com" "_acme-challenge" Scenario.start))
              (1003 * Second))
    as (new & Hev & Hreqs & _ & Hall).
  - reflexivity.
  - reflexivity.
  - reflexivity.
  - intros t Hin. vm_compute in Hin.
    repeat (destruct Hin as [Hin|Hin]; [try discriminate Hin|]);
      try contradiction;
      injection Hin as <-; vm_compute; discriminate.
  - exists new. split; [exact Hev|]. split; [exact Hreqs|exact Hall].
Defined.

(** ** The token cache *)

(** X12.  The cache of the client.  A failed [ensureToken] returns one of the
    errors of the token request and leaves the client as it was, cached
    token and expiry included; a successful one leaves a non-empty token.
    The calls of the client change the client through [ensureToken]
    only, so a token once cached is never replaced by the empty one. *)
Theorem token_cache_kept (env : contabo.Env) (s : contabo.State)
    (method path : string) (reqBody : option contabo.CreateRecordRequest)
    (out : bool) :
  let o := contabo.ensureToken env s in
  (forall e, fst o = inl e ->
             tokenError e = true /\ contabo.client (snd o) = contabo.client s)
  /\ (fst o = inr tt -> contabo.accessToken (contabo.client (snd o)) <> "")
  /\ contabo.client (snd (contabo.doJSON env method path reqBody out s))
     = contabo.client (snd o)
  /\ (contabo.accessToken (contabo.client s) <> "" ->
      contabo.accessToken
        (contabo.client (snd (contabo.doJSON env method path reqBody out s)))
      <> "").
Proof.
  cbv zeta.
  pose proof (ensureToken_outcome env s) as Hout. cbv zeta in Hout.
  assert (Hsame : contabo.client
                    (snd (contabo.doJSON env method path reqBody out s))
                  = contabo.client (snd (contabo.ensureToken env s))).
  { rewrite doJSON_run.
    destruct (contabo.ensureToken env s) as [[e|u] s1]; [reflexivity|].
    cbv zeta.
    destruct (contabo.urlOK env (contabo.baseURL (contabo.client s1) +:+ path));
      [|reflexivity].
    destruct (contabo.server env _ _); reflexivity. }
  split; [|split; [|split]].
  - intros e He. rewrite He in Hout. exact Hout.
  - intros Hok. rewrite Hok in Hout. exact Hout.
  - exact Hsame.
  - intros Hheld. rewrite Hsame.
    destruct (fst (contabo.ensureToken env s)) as [e|u].
    + destruct Hout as [_ ->]. exact Hheld.
    + exact Hout.
Qed.

(** ** Escaping in URLs and forms *)

Section Escaping.

Lemma sapp_inv_head (p s t : string) : p +:+ s = p +:+ t -> s = t.
Proof.
  induction p as [|c p IH]; [intros H; exact H|].
  rewrite !sapp_cons. intros H. injection H as H. exact (IH H).
Qed.

Lemma occurs_app (c : ascii) (s t : string) :
  occurs c (s +:+ t) = occurs c s || occurs c t.
Proof.
  induction s as [|d s IH]; [reflexivity|].
  rewrite sapp_cons. simpl. rewrite IH. apply orb_assoc.
Qed.

(** A string is cut in one way only at the first occurrence of a byte. *)
Lemma cut_unique (c : ascii) (s s' r r' : string) :
  occurs c s = false -> occurs c s' = false ->
  s +:+ String c r = s' +:+ String c r' -> s = s' /\ r = r'.
Proof.
  revert s'. induction s as [|d s IH]; intros [|d' s'] Hs Hs' H.
  - rewrite !sapp_nil_l in H. injection H as ->. auto.
  - rewrite sapp_nil_l, sapp_cons in H. injection H as <- _.
    simpl in Hs'. rewrite Ascii.eqb_refl in Hs'. discriminate.
  - rewrite sapp_nil_l, sapp_cons in H. injection H as -> _.
    simpl in Hs. rewrite Ascii.eqb_refl in Hs. discriminate.
  - rewrite !sapp_cons in H. injection H as -> H.
    simpl in Hs, Hs'. apply orb_false_iff in Hs as [_ Hs].
    apply orb_false_iff in Hs' as [_ Hs'].
    destruct (IH s' Hs Hs' H) as [-> ->]. auto.
Qed.

Lemma upperhex_alnum (n : nat) : url.isAlnum (url.upperhex n) = true.
Proof.
  do 16 (destruct n as [|n]; [reflexivity|]). reflexivity.
Qed.

Lemma upperhex_inj (a b : nat) :
  (a < 16)%nat -> (b < 16)%nat -> url.upperhex a = url.upperhex b -> a = b.
Proof.
  intros Ha Hb.
  do 16 (destruct a as [|a];
         [do 16 (destruct b as [|b]; [first [reflexivity|discriminate]|]); lia|]).
  lia.
Qed.

Lemma nat_of_ascii_lt (c : ascii) : (nat_of_ascii c < 256)%nat.
Proof. apply nat_ascii_bounded. Qed.

(** The two hexadecimal digits of an escape determine the byte. *)
Lemma hex_inj (c d : ascii) :
  url.upperhex (nat_of_ascii c / 16) = url.upperhex (nat_of_ascii d / 16) ->
  url.upperhex (nat_of_ascii c mod 16) = url.upperhex (nat_of_ascii d mod 16) ->
  c = d.
Proof.
  intros Hhi Hlo.
  pose proof (nat_of_ascii_lt c) as Hc. pose proof (nat_of_ascii_lt d) as Hd.
  apply upperhex_inj in Hhi;
    [|apply Nat.Div0.div_lt_upper_bound; lia|apply Nat.Div0.div_lt_upper_bound; lia].
  apply upperhex_inj in Hlo; [|apply Nat.mod_upper_bound; lia|apply Nat.mod_upper_bound; lia].
  rewrite <- (ascii_nat_embedding c), <- (ascii_nat_embedding d).
  f_equal.
  rewrite (Nat.div_mod_eq (nat_of_ascii c) 16), (Nat.div_mod_eq (nat_of_ascii d) 16).
  congruence.
Qed.

Lemma escape_cons (c : ascii) (s : string) (mode : url.encoding) :
  url.escape (String c s) mode = enc c mode +:+ url.escape s mode.
Proof.
  unfold enc. simpl.
  destruct (url.shouldEscape c mode); [|reflexivity].
  destruct mode; [reflexivity|].
  destruct (Ascii.eqb c " "); reflexivity.
Qed.

Lemma shouldEscape_alnum (c : ascii) (mode : url.encoding) :
  url.isAlnum c = true -> url.shouldEscape c mode = false.
Proof. unfold url.shouldEscape. intros ->. reflexivity. Qed.

(** The encodings of two bytes never start the same way unless the
    bytes are equal. *)
Lemma enc_inj (c d : ascii) (mode : url.encoding) (x y : string) :
  enc c mode +:+ x = enc d mode +:+ y -> c = d /\ x = y.
Proof.
  unfold enc.
  destruct (url.shouldEscape c mode) eqn:Hc, (url.shouldEscape d mode) eqn:Hd.
  - destruct mode.
    + rewrite !sapp_cons, !sapp_nil_l. intros H. injection H as Hhi Hlo Hxy.
      split; [exact (hex_inj c d Hhi Hlo)|exact Hxy].
    + destruct (Ascii.eqb_spec c " ") as [->|Hcs], (Ascii.eqb_spec d " ") as [->|Hds];
        rewrite !sapp_cons, !sapp_nil_l; intros H.
      * injection H as Hxy. auto.
      * discriminate H.
      * discriminate H.
      * injection H as Hhi Hlo Hxy.
        split; [exact (hex_inj c d Hhi Hlo)|exact Hxy].
  - destruct mode; [|destruct (Ascii.eqb c " ")];
      rewrite !sapp_cons, ?sapp_nil_l; intros H; injection H as Hd' _;
      subst d; discriminate Hd.
  - destruct mode; [|destruct (Ascii.eqb d " ")];
      rewrite !sapp_cons, ?sapp_nil_l; intros H; injection H as Hc' _;
      subst c; discriminate Hc.
  - rewrite !sapp_cons, !sapp_nil_l. intros H. injection H as -> ->. auto.
Qed.

Lemma enc_nonempty (c : ascii) (mode : url.encoding) (x : string) :
  enc c mode +:+ x <> "".
Proof.
  unfold enc. destruct (url.shouldEscape c mode);
    [destruct mode; [|destruct (Ascii.eqb c " ")]|];
    rewrite sapp_cons; discriminate.
Qed.

(** Escaping loses nothing: [escape] is injective in either mode. *)
Lemma escape_inj (mode : url.encoding) (s t : string) :
  url.escape s mode = url.escape t mode -> s = t.
Proof.
  revert t. induction s as [|c s IH]; intros [|d t].
  - reflexivity.
  - rewrite escape_cons. intros H. symmetry in H.
    exfalso. exact (enc_nonempty _ _ _ H).
  - rewrite escape_cons. intros H. exfalso. exact (enc_nonempty _ _ _ H).
  - rewrite !escape_cons. intros H.
    apply enc_inj in H as [-> H]. f_equal. exact (IH t H).
Qed.

(** A byte that [shouldEscape] escapes does not occur in the output,
    unless it is the percent sign, or the plus sign of a query
    component. *)
Lemma escape_free (c : ascii) (mode : url.encoding) (s : string) :
  url.shouldEscape c mode = true ->
  c <> "%"%char ->
  (mode = url.encodeQueryComponent -> c <> "+"%char) ->
  occurs c (url.escape s mode) = false.
Proof.
  intros Hc Hpct Hplus.
  assert (Hhex : forall n, Ascii.eqb c (url.upperhex n) = false).
  { intros n. destruct (Ascii.eqb_spec c (url.upperhex n)) as [->|]; [|reflexivity].
    rewrite (shouldEscape_alnum _ _ (upperhex_alnum n)) in Hc. discriminate. }
  induction s as [|d s IH]; [reflexivity|].
  rewrite escape_cons, occurs_app, IH, orb_false_r.
  unfold enc. destruct (url.shouldEscape d mode) eqn:Hd.
  - assert (Hp : Ascii.eqb c "%" = false) by (apply Ascii.eqb_neq; exact Hpct).
    destruct mode.
    + simpl. rewrite Hp, !Hhex. reflexivity.
    + destruct (Ascii.eqb d " ").
      * simpl. rewrite orb_false_r. apply Ascii.eqb_neq. auto.
      * simpl. rewrite Hp, !Hhex. reflexivity.
  - simpl. rewrite orb_false_r. apply Ascii.eqb_neq. intros ->. congruence.
Qed.

Lemma PathEscape_no_slash (s : string) : occurs "/" (url.PathEscape s) = false.
Proof. apply escape_free; [reflexivity|discriminate|discriminate]. Qed.

Lemma PathEscape_no_question (s : string) : occurs "?" (url.PathEscape s) = false.
Proof. apply escape_free; [reflexivity|discriminate|discriminate]. Qed.

Lemma QueryEscape_no_amp (s : string) : occurs "&" (url.QueryEscape s) = false.
Proof. apply escape_free; [reflexivity|discriminate|discriminate]. Qed.

End Escaping.

(** X13.  The form of the token request determines the four credentials. *)
Theorem tokenForm_injective (c c' : contabo.Client) :
  contabo.tokenForm c = contabo.tokenForm c' ->
  contabo.clientID c = contabo.clientID c'
  /\ contabo.secret c = contabo.secret c'
  /\ contabo.username c = contabo.username c'
  /\ contabo.password c = contabo.password c'.
Proof.
  unfold contabo.tokenForm. intros H.
  apply sapp_inv_head in H.
  apply (cut_unique "&") in H as [H1 H]; try apply QueryEscape_no_amp.
  apply (sapp_inv_head "client_secret=") in H.
  apply (cut_unique "&") in H as [H2 H]; try apply QueryEscape_no_amp.
  apply (sapp_inv_head "grant_type=") in H.
  apply (cut_unique "&") in H as [_ H]; try apply QueryEscape_no_amp.
  apply (sapp_inv_head "password=") in H.
  apply (cut_unique "&") in H as [H3 H]; try apply QueryEscape_no_amp.
  apply (sapp_inv_head "username=") in H.
  apply escape_inj in H1, H2, H3, H.
  auto.
Qed.

(** A client that has cached a token sends the form it sent before. *)
Lemma tokenForm_injective_witness :
  let c := Scenario.the_client in
  let c' := contabo.withToken Scenario.the_client "token123" 3600 in
  contabo.clientID c = contabo.clientID c'
  /\ contabo.secret c = contabo.secret c'
  /\ contabo.username c = contabo.username c'
  /\ contabo.password c = contabo.password c'.
Proof.
  apply (tokenForm_injective Scenario.the_client
           (contabo.withToken Scenario.the_client "token123" 3600)).
  reflexivity.
Defined.

(** ** The URLs of the record API *)

Lemma recordsPath_cut (zone zone' r r' : string) :
  contabo.recordsPath zone +:+ r = contabo.recordsPath zone' +:+ r' ->
  zone = zone' /\ r = r'.
Proof.
  unfold contabo.recordsPath. rewrite !sapp_assoc. intros H.
  apply sapp_inv_head in H.
  apply (cut_unique "/") in H as [Hz H]; try apply PathEscape_no_slash.
  apply escape_inj in Hz. apply (sapp_inv_head "records") in H. auto.
Qed.

(** X14.  The zone, the record ID and the search string can be read back from
    the paths the client builds: different zones, records or searches
    never share a URL. *)
Theorem record_paths_injective (zone zone' id id' search search' : string) :
  (contabo.recordsPath zone = contabo.recordsPath zone' <-> zone = zone')
  /\ (contabo.recordsPath zone +:+ "/" +:+ url.PathEscape id
      = contabo.recordsPath zone' +:+ "/" +:+ url.PathEscape id'
      <-> zone = zone' /\ id = id')
  /\ (contabo.listEndpoint zone search = contabo.listEndpoint zone' search'
      <-> zone = zone' /\ search = search').
Proof.
  split; [|split].
  - split; [|intros ->; reflexivity].
    intros H. rewrite <- (sapp_nil_r (contabo.recordsPath zone)) in H.
    rewrite <- (sapp_nil_r (contabo.recordsPath zone')) in H.
    apply recordsPath_cut in H. tauto.
  - split; [|intros [-> ->]; reflexivity].
    intros H. apply recordsPath_cut in H as [-> H]. split; [reflexivity|].
    apply (sapp_inv_head "/") in H. exact (escape_inj _ _ _ H).
  - split; [|intros [-> ->]; reflexivity].
    unfold contabo.listEndpoint.
    destruct (String.eqb_spec search "") as [->|Hs],
             (String.eqb_spec search' "") as [->|Hs']; simpl; intros H.
    + rewrite <- (sapp_nil_r (contabo.recordsPath zone)) in H.
      rewrite <- (sapp_nil_r (contabo.recordsPath zone')) in H.
      apply recordsPath_cut in H. tauto.
    + rewrite <- (sapp_nil_r (contabo.recordsPath zone)) in H.
      apply recordsPath_cut in H as [_ H]. discriminate H.
    + rewrite <- (sapp_nil_r (contabo.recordsPath zone')) in H.
      apply recordsPath_cut in H as [_ H]. discriminate H.
    + apply recordsPath_cut in H as [-> H]. split; [reflexivity|].
      apply (sapp_inv_head "?search=") in H. exact (escape_inj _ _ _ H).
Qed.

(** ** Record IDs *)

Lemma escape_uint (d : Decimal.uint) (mode : url.encoding) :
  url.escape (NilEmpty.string_of_uint d) mode = NilEmpty.string_of_uint d.
Proof. induction d; simpl; [reflexivity|rewrite IHd; reflexivity..]. Qed.

Lemma Sprint_NilEmpty (n : Z) :
  Sprint n = NilEmpty.string_of_int (Z.to_int n).
Proof.
  unfold Sprint. destruct n as [|p|p]; [reflexivity| |]; simpl;
    unfold NilZero.string_of_uint;
    pose proof (DecimalPos.Unsigned.to_uint_nonnil p) as Hp;
    destruct (Pos.to_uint p); try reflexivity; contradiction.
Qed.

(** X15.  [fmt.Sprint] of a record ID is its decimal notation: it reads back
    as the ID, and [PathEscape] leaves it as it is, so the path of the
    delete request ends with the ID in decimal. *)
Theorem record_id_in_decimal (env : contabo.Env) (zone : string) (n m : Z) :
  option_map Z.of_int (NilZero.int_of_string (Sprint n)) = Some n
  /\ (Sprint n = Sprint m <-> n = m)
  /\ url.PathEscape (Sprint n) = Sprint n
  /\ contabo.DeleteRecord env zone (Sprint n)
     = contabo.bind
         (contabo.doJSON env "DELETE"
            (contabo.recordsPath zone +:+ "/" +:+ Sprint n) None false)
         (fun _ => contabo.ret tt).
Proof.
  assert (Hesc : url.PathEscape (Sprint n) = Sprint n).
  { rewrite Sprint_NilEmpty. unfold url.PathEscape.
    destruct (Z.to_int n) as [d|d]; simpl; rewrite escape_uint; reflexivity. }
  assert (Hback : forall k,
            option_map Z.of_int (NilZero.int_of_string (Sprint k)) = Some k).
  { intros k. unfold Sprint. rewrite NilZero.isi.
    - simpl. f_equal. apply DecimalZ.of_to.
    - destruct k as [|p|p]; try discriminate.
      intros H. injection H as H.
      exact (DecimalPos.Unsigned.to_uint_nonnil p H).
    - destruct k as [|p|p]; try discriminate.
      intros H. injection H as H.
      exact (DecimalPos.Unsigned.to_uint_nonnil p H). }
  split; [apply Hback|]. split; [|split; [exact Hesc|]].
  - split; [|intros ->; reflexivity].
    intros H. pose proof (Hback n) as Hn. rewrite H, Hback in Hn.
    injection Hn as ->. reflexivity.
  - unfold contabo.DeleteRecord. rewrite Hesc. reflexivity.
Qed.

(** ** A clean-up with nothing to delete *)

Lemma deleteRecords_none (env : contabo.Env) (zone name key : string)
    (records : list contabo.DNSRecord) (s : contabo.State) :
  selected name key records = [] ->
  solver.deleteRecords env zone name key records s = (inr tt, s).
Proof.
  unfold selected. induction records as [|r rest IH]; simpl; [reflexivity|].
  destruct (solver.isACMERecord r name key); [discriminate|exact IH].
Qed.

(** X16.  [CleanUp] ends with the list request when there is nothing to
    delete.  If the list request fails, [CleanUp] returns its error; if
    it returns no record that [isACMERecord] selects, the empty list
    included, [CleanUp] returns no error; either way the history is the
    one the list request left. *)
Theorem CleanUp_nothing_to_delete (env : contabo.Env) (sv : solver.Solver)
    (ch : solver.ChallengeRequest) (h : list contabo.Event) (c : contabo.Client) :
  let zone := normalizeZone (solver.ResolvedZone ch) in
  let name := relativeRecordName (solver.ResolvedFQDN ch) (solver.ResolvedZone ch) in
  let listed := contabo.ListRecords env zone name
                  {| contabo.client := c; contabo.events := h |} in
  solver.setup env sv ch = inr c ->
  match fst listed with
  | inl e =>
      solver.CleanUp env sv ch h = (inl e, contabo.events (snd listed))
  | inr records =>
      selected name (solver.Key ch) records = [] ->
      solver.CleanUp env sv ch h = (inr tt, contabo.events (snd listed))
  end.
Proof.
  cbv zeta. intros Hsetup.
  destruct (contabo.ListRecords env _ _ _) as [[e|records] s1] eqn:Hlist; simpl.
  - rewrite (CleanUp_run env sv ch h c Hsetup). cbv zeta.
    unfold solver.withClient, contabo.bind. rewrite Hlist. reflexivity.
  - intros Hnone.
    rewrite (CleanUp_after_list env sv ch h c records s1 Hsetup Hlist).
    cbv zeta. rewrite (deleteRecords_none env _ _ _ records s1 Hnone).
    reflexivity.
Qed.

(** The clean-up of the test for a key that no record holds. *)
Lemma CleanUp_nothing_to_delete_witness :
  let env := Scenario.world 200 3600 in
  let ch := {| solver.ResourceNamespace := "tenant-ns";
               solver.ResolvedZone := "example.com.";
               solver.ResolvedFQDN := "_acme-challenge.example.com.";
               solver.Key := "stale";
               solver.ch_Config := Some "cfg" |} in
  solver.CleanUp env Scenario.the_solver ch []
  = (inr tt,
     contabo.events
       (snd (contabo.ListRecords env "example.com" "_acme-challenge"
               Scenario.start))).
Proof.
  exact (CleanUp_nothing_to_delete (Scenario.world 200 3600) Scenario.the_solver
           {| solver.ResourceNamespace := "tenant-ns";
              solver.ResolvedZone := "example.com.";
              solver.ResolvedFQDN := "_acme-challenge.example.com.";
              solver.Key := "stale";
              solver.ch_Config := Some "cfg" |}
           [] Scenario.the_client eq_refl eq_refl).
Defined.

(** ** What [Present] creates, [CleanUp] selects *)

